(** * ChronoPlan: recurrence expansion, virtual ids, conflicts, reminders

    A shallow embedding of [services/recurrenceService.ts]
    ([generateRecurringTasks], [parseVirtualId]) and of the handlers of
    [App.tsx] ([checkConflict], [checkReminders], [handleBatchImport],
    [handleToggleComplete]), with the parts of the ECMAScript [Date],
    [String] and [Array] built-ins they call; then of the rest of
    [App.tsx] ([visibleTasks], [handleSaveTask], [handleEditTask],
    [handleDeleteTask], [getWeatherIcon]), of [services/weatherService.ts],
    of [handleSubmit] of [TaskForm.tsx], and of the filters and sorts of
    the views.

    Conventions.
    - A JavaScript Number that holds an integer is a [Z]; [NaN] is [None]
      of [option Z].  Every Number of these functions is integral (time
      values in milliseconds, date fields, the interval and the reminder
      minutes of the [Task] interface are taken integral).  Arithmetic
      goes through [Num.add], [Num.sub], [Num.mul], which round the exact
      result to the 53 significant bits of a double.
    - A [Date] object is its time value: [Some t] with
      [|t| <= 8.64e15], or [None] for an Invalid Date.
    - A JavaScript string is a [string]; the separator and every character
      the code tests are ASCII, so splitting the UTF-8 bytes agrees with
      splitting UTF-16 code units.
    - What ECMAScript leaves to the host is a parameter of the development:
      [DateParse] (the value of [Date.parse(s)] for a string [s]) and
      [LocalTZA] (the offset of local time), see Section [Host]; so is the
      global [Notification], which a browser may lack. *)

From Stdlib Require Import ZArith Lia Bool Ascii.
From Stdlib Require String QArith.
From stdpp Require Import base list strings gmap sorting.

Local Open Scope Z_scope.

(** ** Numbers *)

Module Num.

(** Nearest double of a non-negative integer, ties to even.  Magnitudes
    beyond the doubles, where JavaScript has [Infinity], are left finite:
    they only ever meet a comparison or [TimeClip], which treat the two
    alike. *)
Definition round53 (a : Z) : Z :=
  if a <=? 2 ^ 53 then a
  else
    let k := Z.log2 a - 52 in
    let q := a / 2 ^ k in
    let r := a mod 2 ^ k in
    let h := 2 ^ (k - 1) in
    (if (r <? h) || ((r =? h) && Z.even q) then q else q + 1) * 2 ^ k.

Definition fl (z : Z) : Z := Z.sgn z * round53 (Z.abs z).

Definition add (a b : Z) : Z := fl (a + b).
Definition sub (a b : Z) : Z := fl (a - b).
Definition mul (a b : Z) : Z := fl (a * b).

End Num.

(** A Number that may be [NaN]. *)
Definition number : Type := option Z.

Definition num_add (a b : number) : number :=
  match a, b with Some x, Some y => Some (Num.add x y) | _, _ => None end.
Definition num_sub (a b : number) : number :=
  match a, b with Some x, Some y => Some (Num.sub x y) | _, _ => None end.
Definition num_mul (a b : number) : number :=
  match a, b with Some x, Some y => Some (Num.mul x y) | _, _ => None end.

(** Relational operators: every comparison with [NaN] is false. *)
Definition num_lt (a b : number) : bool :=
  match a, b with Some x, Some y => x <? y | _, _ => false end.
Definition num_le (a b : number) : bool :=
  match a, b with Some x, Some y => x <=? y | _, _ => false end.
Definition num_gt (a b : number) : bool := num_lt b a.
Definition num_ge (a b : number) : bool := num_le b a.

(** ** ECMAScript time values and calendar *)

Module Time.

Definition msPerSecond : Z := 1000.
Definition msPerMinute : Z := 60000.
Definition msPerHour : Z := 3600000.
Definition msPerDay : Z := 86400000.
Definition maxTime : Z := 8640000000000000.

Definition Day (t : Z) : Z := t / msPerDay.
Definition TimeWithinDay (t : Z) : Z := t mod msPerDay.

Definition DaysInYear (y : Z) : Z :=
  if negb (y mod 4 =? 0) then 365
  else if negb (y mod 100 =? 0) then 366
  else if negb (y mod 400 =? 0) then 365
  else 366.

Definition DayFromYear (y : Z) : Z :=
  365 * (y - 1970) + (y - 1969) / 4 - (y - 1901) / 100 + (y - 1601) / 400.

Definition TimeFromYear (y : Z) : Z := msPerDay * DayFromYear y.

(** The largest [y] with [TimeFromYear y <= t]: an estimate from the mean
    length of a year, corrected by at most one (see [YearFromTime_spec]). *)
Definition YearFromTime (t : Z) : Z :=
  let d := Day t in
  let y0 := 1970 + (400 * d) / 146097 in
  if d <? DayFromYear y0 then y0 - 1
  else if DayFromYear (y0 + 1) <=? d then y0 + 1
  else y0.

Definition InLeapYear (t : Z) : Z :=
  if DaysInYear (YearFromTime t) =? 366 then 1 else 0.

Definition DayWithinYear (t : Z) : Z := Day t - DayFromYear (YearFromTime t).

(** Day number, within its year, of the first day of month [m]. *)
Definition monthStart (m leap : Z) : Z :=
  match m with
  | 0 => 0
  | 1 => 31
  | 2 => 59 + leap
  | 3 => 90 + leap
  | 4 => 120 + leap
  | 5 => 151 + leap
  | 6 => 181 + leap
  | 7 => 212 + leap
  | 8 => 243 + leap
  | 9 => 273 + leap
  | 10 => 304 + leap
  | _ => 334 + leap
  end.

Definition MonthFromTime (t : Z) : Z :=
  let d := DayWithinYear t in
  let l := InLeapYear t in
  if d <? 31 then 0
  else if d <? 59 + l then 1
  else if d <? 90 + l then 2
  else if d <? 120 + l then 3
  else if d <? 151 + l then 4
  else if d <? 181 + l then 5
  else if d <? 212 + l then 6
  else if d <? 243 + l then 7
  else if d <? 273 + l then 8
  else if d <? 304 + l then 9
  else if d <? 334 + l then 10
  else 11.

Definition DateFromTime (t : Z) : Z :=
  DayWithinYear t + 1 - monthStart (MonthFromTime t) (InLeapYear t).

Definition HourFromTime (t : Z) : Z := (t / msPerHour) mod 24.
Definition MinFromTime (t : Z) : Z := (t / msPerMinute) mod 60.
Definition SecFromTime (t : Z) : Z := (t / msPerSecond) mod 60.
Definition msFromTime (t : Z) : Z := t mod msPerSecond.

Definition MakeTime (hour min sec ms : Z) : Z :=
  hour * msPerHour + min * msPerMinute + sec * msPerSecond + ms.

(** [MakeDay]: months beyond 0..11 carry into the year, and a date
    beyond the month runs on into the following days. *)
Definition MakeDay (year month date : Z) : Z :=
  let ym := year + month / 12 in
  let mn := month mod 12 in
  let leap := if DaysInYear ym =? 366 then 1 else 0 in
  DayFromYear ym + monthStart mn leap + date - 1.

Definition MakeDate (day time : Z) : Z := day * msPerDay + time.

Definition TimeClip (t : Z) : number :=
  if Z.abs t <=? maxTime then Some t else None.

End Time.

(** ** Strings *)

Definition colon : ascii := ":"%char.

(** [s.split('::')]: the pieces between the successive matches of the
    separator found scanning left to right, each match consuming its two
    characters. *)
Fixpoint split (s : string) : list string :=
  match s with
  | EmptyString => [EmptyString]
  | String c rest =>
      match rest with
      | String c' rest' =>
          if Ascii.eqb c colon && Ascii.eqb c' colon
          then EmptyString :: split rest'
          else match split rest with
               | piece :: pieces => String c piece :: pieces
               | [] => [String c EmptyString]
               end
      | EmptyString => [String c EmptyString]
      end
  end.

(** [arr.includes(x)] on an array of strings. *)
Definition includes (arr : list string) (x : string) : bool :=
  existsb (String.eqb x) arr.

(** One decimal digit. *)
Definition digit (d : Z) : ascii :=
  match d with
  | 0 => "0" | 1 => "1" | 2 => "2" | 3 => "3" | 4 => "4"
  | 5 => "5" | 6 => "6" | 7 => "7" | 8 => "8" | _ => "9"
  end%char.

(** The [n] low decimal digits of [v], most significant first. *)
Fixpoint pad (n : nat) (v : Z) : string :=
  match n with
  | O => EmptyString
  | S n' => String (digit ((v / 10 ^ Z.of_nat n') mod 10)) (pad n' v)
  end.

(** [Date.prototype.toISOString] at a valid time value:
    [YYYY-MM-DDTHH:mm:ss.sssZ], with the expanded year [+YYYYYY] or
    [-YYYYYY] outside 0..9999. *)
Definition isoYear (y : Z) : string :=
  if (0 <=? y) && (y <=? 9999) then pad 4 y
  else if y <? 0 then "-" +:+ pad 6 (- y)
  else "+" +:+ pad 6 y.

Definition toISOString (t : Z) : string :=
  isoYear (Time.YearFromTime t) +:+ "-" +:+
  pad 2 (Time.MonthFromTime t + 1) +:+ "-" +:+
  pad 2 (Time.DateFromTime t) +:+ "T" +:+
  pad 2 (Time.HourFromTime t) +:+ ":" +:+
  pad 2 (Time.MinFromTime t) +:+ ":" +:+
  pad 2 (Time.SecFromTime t) +:+ "." +:+
  pad 3 (Time.msFromTime t) +:+ "Z".

(** ** The data model ([types.ts]) *)

Inductive Priority : Type := HIGH | MEDIUM | LOW.

Inductive RecurrenceFrequency : Type := NONE | DAILY | WEEKLY | MONTHLY | YEARLY.

(** [interval] is [None] when the property is [undefined] and [Some None]
    when it is [NaN], which [TaskForm] can save; [until] is optional in
    the interface. *)
Record RecurrenceConfig : Type := {
  frequency : RecurrenceFrequency;
  interval : option number;
  until : option string
}.

(** [end_] is the property [end]. *)
Record Task : Type := {
  id : string;
  title : string;
  description : string;
  start : string;
  end_ : string;
  priority : Priority;
  reminderMinutes : Z;
  completed : bool;
  recurrence : option RecurrenceConfig;
  completedInstances : option (list string)
}.

Definition isNONE (f : RecurrenceFrequency) : bool :=
  match f with NONE => true | _ => false end.

(** Truthiness of a string that may be [undefined] or [null]. *)
Definition truthy (s : option string) : bool :=
  match s with
  | Some s' => negb (String.eqb s' EmptyString)
  | None => false
  end.

(** [new Date(n)] for a Number [n]. *)
Definition newDate (n : number) : number :=
  match n with Some x => Time.TimeClip x | None => None end.

(** [d.toISOString()]: a [RangeError] ([None]) on an Invalid Date. *)
Definition Date_toISOString (d : number) : option string :=
  match d with Some t => Some (toISOString t) | None => None end.

(** ** [services/recurrenceService.ts]: [parseVirtualId] *)

Record VirtualId : Type := {
  originalId : string;
  instanceDate : option string
}.

Definition parseVirtualId (virtualId : string) : VirtualId :=
  match split virtualId with
  | [part0; part1] => {| originalId := part0; instanceDate := Some part1 |}
  | _ => {| originalId := virtualId; instanceDate := None |}
  end.

(** The template [`${task.id}::${startIso}`]. *)
Definition virtualIdOf (taskId startIso : string) : string :=
  taskId +:+ "::" +:+ startIso.

(** An element of the [any[]] handed to [handleBatchImport]: the fields the
    extraction schema requires are present, the others may be missing. *)
Module Any.
Record t : Type := {
  id : option string;
  title : string;
  description : option string;
  start : string;
  end_ : string;
  priority : Priority;
  reminderMinutes : option Z;
  completed : option bool;
  recurrence : option RecurrenceConfig
}.
End Any.

(** [x || dflt] for an [x] that is falsy only when it is missing. *)
Definition orElse {A : Type} (x : option A) (dflt : A) : A :=
  match x with Some a => a | None => dflt end.

(** The global [Notification] where the host defines it: whether
    [Notification.permission] is ['granted'], and whether
    [new Notification(...)] returns; it throws a [TypeError] in the hosts
    that show notifications through a service worker only. *)
Record NotificationAPI : Type := {
  granted : bool;
  constructs : bool
}.

Section Host.

(** [Date.parse(s)]; [None] is [NaN]. *)
Variable DateParse : string -> number.

(** [LocalTZA t isUTC], the offset of local time in milliseconds. *)
Variable LocalTZA : Z -> bool -> Z.

(** The source of [crypto.randomUUID()]: the value of the [n]-th call. *)
Variable randomUUID : nat -> string.

(** The global [Notification]; [None] in a host that does not define it,
    where evaluating [Notification.permission] throws a
    [ReferenceError]. *)
Variable Notification : option NotificationAPI.

(** [new Date(s)] for a string [s]: the parsed value, clipped. *)
Definition Date_ofString (s : string) : number := newDate (DateParse s).

Definition LocalTime (t : Z) : Z := t + LocalTZA t true.
Definition UTC (t : Z) : Z := t - LocalTZA t false.

(** *** [Date.prototype] getters and setters at a valid time value.
    Inside the built-ins the arithmetic is exact on every result that
    [TimeClip] keeps, so they use the operations of [Z]. *)

Definition getDate (t : Z) : Z := Time.DateFromTime (LocalTime t).
Definition getMonth (t : Z) : Z := Time.MonthFromTime (LocalTime t).
Definition getFullYear (t : Z) : Z := Time.YearFromTime (LocalTime t).

Definition setDate (t dt : Z) : number :=
  let lt := LocalTime t in
  Time.TimeClip (UTC (Time.MakeDate
    (Time.MakeDay (Time.YearFromTime lt) (Time.MonthFromTime lt) dt)
    (Time.TimeWithinDay lt))).

Definition setMonth (t m : Z) : number :=
  let lt := LocalTime t in
  Time.TimeClip (UTC (Time.MakeDate
    (Time.MakeDay (Time.YearFromTime lt) m (Time.DateFromTime lt))
    (Time.TimeWithinDay lt))).

Definition setFullYear (t y : Z) : number :=
  let lt := LocalTime t in
  Time.TimeClip (UTC (Time.MakeDate
    (Time.MakeDay y (Time.MonthFromTime lt) (Time.DateFromTime lt))
    (Time.TimeWithinDay lt))).

Definition setHours (t h m s ms : Z) : number :=
  let lt := LocalTime t in
  Time.TimeClip (UTC (Time.MakeDate (Time.Day lt) (Time.MakeTime h m s ms))).

(** *** [generateRecurringTasks] *)

Definition MAX_ITERATIONS : nat := 1000.

(** The [switch (frequency)] that advances [currentStart] in place; on an
    Invalid Date every setter leaves [NaN], and so does a setter whose
    argument is [NaN]. *)
Definition advance (frequency : RecurrenceFrequency) (interval : number)
    (currentStart : number) : number :=
  match currentStart with
  | None => None
  | Some t =>
      match frequency with
      | DAILY =>
          dt ← num_add (Some (getDate t)) interval; setDate t dt
      | WEEKLY =>
          dt ← num_add (Some (getDate t)) (num_mul (Some 7) interval);
          setDate t dt
      | MONTHLY =>
          m ← num_add (Some (getMonth t)) interval; setMonth t m
      | YEARLY =>
          y ← num_add (Some (getFullYear t)) interval; setFullYear t y
      | NONE => Some t
      end
  end.

(** [untilDate]: [null] is [None]. *)
Definition untilDateOf (until : option string) : option number :=
  if truthy until
  then match until with Some u => Some (Date_ofString u) | None => None end
  else None.

Definition taskDurationOf (task : Task) : number :=
  num_sub (Date_ofString (end_ task)) (Date_ofString (start task)).

(** The object literal pushed for one instance. *)
Definition instanceOf (task : Task) (startIso endIso : string) : Task :=
  {| id := virtualIdOf (id task) startIso;
     title := title task;
     description := description task;
     start := startIso;
     end_ := endIso;
     priority := priority task;
     reminderMinutes := reminderMinutes task;
     completed :=
       match completedInstances task with
       | Some arr => includes arr startIso || false
       | None => false
       end;
     recurrence := recurrence task;
     completedInstances := completedInstances task |}.

Section Loop.

Variable task : Task.
Variables rangeStart rangeEnd : number.
Variable frequency : RecurrenceFrequency.
Variable interval : number.
Variable untilDate : option number.
Variable taskDuration : number.

Definition loopCondition (currentStart : number) : bool :=
  num_lt currentStart rangeEnd &&
  match untilDate with
  | None => true
  | Some u => num_le currentStart u
  end.

(** The [while] loop; [fuel] is [MAX_ITERATIONS - iterations].  The
    result is [None] when a [toISOString] throws. *)
Fixpoint whileLoop (fuel : nat) (currentStart : number)
    : option (list Task) :=
  match fuel with
  | O => Some []
  | S fuel' =>
      if loopCondition currentStart then
        let currentEnd := newDate (num_add currentStart taskDuration) in
        pushed ←
          (if num_lt currentStart rangeEnd && num_gt currentEnd rangeStart
           then
             startIso ← Date_toISOString currentStart;
             endIso ← Date_toISOString currentEnd;
             Some [instanceOf task startIso endIso]
           else Some []);
        rest ← whileLoop fuel' (advance frequency interval currentStart);
        Some (pushed ++ rest)
      else Some []
  end.

End Loop.

(** The body of the [forEach] callback: what one task adds to [result]. *)
Definition expandTask (task : Task) (rangeStart rangeEnd : number)
    : option (list Task) :=
  let notRecurring :=
    let taskStart := Date_ofString (start task) in
    if num_lt taskStart rangeEnd && num_gt (Date_ofString (end_ task)) rangeStart
    then Some [task] else Some [] in
  match recurrence task with
  | None => notRecurring
  | Some r =>
      if isNONE (frequency r) then notRecurring
      else
        let interval :=
          match interval r with Some n => n | None => Some 1 end in
        whileLoop task rangeStart rangeEnd (frequency r) interval
          (untilDateOf (until r)) (taskDurationOf task)
          MAX_ITERATIONS (Date_ofString (start task))
  end.

Fixpoint generateRecurringTasks (tasks : list Task)
    (rangeStart rangeEnd : number) : option (list Task) :=
  match tasks with
  | [] => Some []
  | task :: tasks' =>
      pushed ← expandTask task rangeStart rangeEnd;
      rest ← generateRecurringTasks tasks' rangeStart rangeEnd;
      Some (pushed ++ rest)
  end.

(** *** [App.tsx]: [checkConflict] *)

Definition checkConflict (visibleTasks : list Task) (task : Task) : bool :=
  let currentOriginalId := originalId (parseVirtualId (id task)) in
  existsb (fun t =>
    let otherOriginalId := originalId (parseVirtualId (id t)) in
    if String.eqb currentOriginalId otherOriginalId then false
    else if completed t || completed task then false
    else
      let t1Start := Date_ofString (start task) in
      let t1End := Date_ofString (end_ task) in
      let t2Start := Date_ofString (start t) in
      let t2End := Date_ofString (end_ t) in
      num_lt t1Start t2End && num_gt t1End t2Start) visibleTasks.

(** *** [App.tsx]: [handleBatchImport] *)

(** The object literal built for one element, with the identifier drawn
    for it.  [t.reminderMinutes || 15] takes the default at [undefined]
    and at [0]; [t.description || ''] at [undefined] (and at the empty
    string, which it equals). *)
Definition formatTask (uuid : string) (t : Any.t) : Task :=
  {| id := uuid;
     title := Any.title t;
     description := orElse (Any.description t) EmptyString;
     start := Any.start t;
     end_ := Any.end_ t;
     priority := Any.priority t;
     reminderMinutes :=
       match Any.reminderMinutes t with
       | Some n => if n =? 0 then 15 else n
       | None => 15
       end;
     completed := false;
     recurrence := Any.recurrence t;
     completedInstances := None |}.

(** [newTasks.map(...)]: one [crypto.randomUUID()] per element, in order;
    [calls] counts the calls made so far. *)
Fixpoint formatTasks (calls : nat) (newTasks : list Any.t)
    : nat * list Task :=
  match newTasks with
  | [] => (calls, [])
  | t :: rest =>
      let formatted := formatTask (randomUUID calls) t in
      let '(calls', formattedRest) := formatTasks (S calls) rest in
      (calls', formatted :: formattedRest)
  end.

(** The state is the count of identifiers drawn and the task list. *)
Definition handleBatchImport (newTasks : list Any.t)
    (state : nat * list Task) : nat * list Task :=
  let '(calls, prev) := state in
  let '(calls', formattedTasks) := formatTasks calls newTasks in
  (calls', prev ++ formattedTasks).

(** *** [components/TaskForm.tsx]: the recurrence that [handleSubmit] saves *)

(** [Math.max(1, x)] for the state [interval] of the form, which holds a
    Number or, once an edit has opened on a recurrence without interval,
    [undefined]: [NaN] at [undefined] and at [NaN]. *)
Definition Math_max1 (x : option number) : number :=
  match x with
  | Some (Some n) => Some (Z.max 1 n)
  | Some None | None => None
  end.

(** [undefined] ([Some None]) for the frequency [None]; a [RangeError]
    ([None]) when [until] is given and is no date. *)
Definition submittedRecurrence (freq : RecurrenceFrequency)
    (interval : option number) (until : string)
    : option (option RecurrenceConfig) :=
  if isNONE freq then Some None
  else
    untilIso ←
      (if truthy (Some until)
       then iso ← Date_toISOString (Date_ofString until); Some (Some iso)
       else Some None);
    Some (Some {| frequency := freq;
                  interval := Some (Math_max1 interval);
                  until := untilIso |}).

(** *** [App.tsx]: [checkReminders] *)

Definition reminderDue (now : Z) (task : Task) : bool :=
  let startTime := Date_ofString (start task) in
  let reminderTime :=
    num_sub startTime
      (Some (Num.mul (Num.mul (reminderMinutes task) 60) 1000)) in
  num_ge (Some now) reminderTime &&
  num_lt (Some now) (num_add startTime (Some 60000)).

(** The statements after the two state updates: the native notification
    and the audio cue.  [true] when they return, [false] when the
    notification throws; [new Audio(...)] and [play] are of every host
    with a DOM, and the rejection of [play] is caught by the code. *)
Definition nativeNotification : bool :=
  match Notification with
  | None => false
  | Some api => if granted api then constructs api else true
  end.

(** What one tick does: the tasks handed to [setActiveReminder], in
    order, the set that the queued updaters
    [prev => new Set(prev).add(task.id)] leave, and whether the tick
    ended by an exception.  Within the tick [notifiedTaskIds] is the set
    captured by the closure. *)
Record Tick : Type := {
  reminders : list Task;
  notifiedAfter : gset string;
  thrown : bool
}.

(** The [forEach] over the expansion of the day.  The callback returns
    early on a task that is completed or notified; on a task that is due
    it queues the two updates and goes on to the notification, and an
    exception there ends the [forEach]: the tasks behind are not
    visited. *)
Fixpoint forEachReminder (notifiedTaskIds : gset string) (now : Z)
    (tasksForReminders : list Task) : list Task * bool :=
  match tasksForReminders with
  | [] => ([], false)
  | task :: rest =>
      if completed task || bool_decide (id task ∈ notifiedTaskIds)
      then forEachReminder notifiedTaskIds now rest
      else if reminderDue now task
      then
        if nativeNotification
        then
          let '(fired, threw) := forEachReminder notifiedTaskIds now rest in
          (task :: fired, threw)
        else ([task], true)
      else forEachReminder notifiedTaskIds now rest
  end.

(** The result is [None] when the expansion throws; an exception of the
    notification leaves the updates queued before it, and the timer goes
    on calling. *)
Definition checkReminders (tasks : list Task) (notifiedTaskIds : gset string)
    (now : Z) : option Tick :=
  let todayStart := setHours now 0 0 0 0 in
  let todayEnd := setHours now 23 59 59 999 in
  tasksForReminders ← generateRecurringTasks tasks todayStart todayEnd;
  let '(fired, threw) :=
    forEachReminder notifiedTaskIds now tasksForReminders in
  Some {| reminders := fired;
          notifiedAfter :=
            foldl (fun prev task => prev ∪ {[ id task ]})
              notifiedTaskIds fired;
          thrown := threw |}.

(** A run of the scanner: each tick sees the task list and the clock of
    its moment and the set left by the ticks before it. *)
Fixpoint scanner (ticks : list (list Task * Z))
    (notifiedTaskIds : gset string) : option (list Task) :=
  match ticks with
  | [] => Some []
  | (tasks, now) :: later =>
      tick ← checkReminders tasks notifiedTaskIds now;
      rest ← scanner later (notifiedAfter tick);
      Some (reminders tick ++ rest)
  end.

End Host.

(** *** [App.tsx]: [handleToggleComplete] *)

Definition setCompletedInstances (t : Task) (arr : list string) : Task :=
  {| id := id t; title := title t; description := description t;
     start := start t; end_ := end_ t; priority := priority t;
     reminderMinutes := reminderMinutes t; completed := completed t;
     recurrence := recurrence t; completedInstances := Some arr |}.

Definition setCompleted (t : Task) (b : bool) : Task :=
  {| id := id t; title := title t; description := description t;
     start := start t; end_ := end_ t; priority := priority t;
     reminderMinutes := reminderMinutes t; completed := b;
     recurrence := recurrence t; completedInstances := completedInstances t |}.

(** The callback of [prev.map(...)]. *)
Definition toggleOne (v : VirtualId) (t : Task) : Task :=
  if negb (String.eqb (id t) (originalId v)) then t
  else if truthy (instanceDate v) then
    let instanceDate := orElse (instanceDate v) EmptyString in
    let arr := orElse (completedInstances t) [] in
    let isCompleted := includes arr instanceDate in
    setCompletedInstances t
      (if isCompleted
       then List.filter (fun d => negb (String.eqb d instanceDate)) arr
       else arr ++ [instanceDate])
  else setCompleted t (negb (completed t)).

Definition handleToggleComplete (task : Task) (prev : list Task) : list Task :=
  map (toggleOne (parseVirtualId (id task))) prev.

(** ** A host: UTC local time and the ISO format of [Date.parse] *)

Definition digitValue (c : ascii) : option Z :=
  let code := Z.of_N (N_of_ascii c) in
  if (48 <=? code) && (code <=? 57) then Some (code - 48) else None.

Fixpoint takeDigits (n : nat) (acc : Z) (s : string) : option (Z * string) :=
  match n with
  | O => Some (acc, s)
  | S n' =>
      match s with
      | String c rest =>
          d ← digitValue c; takeDigits n' (10 * acc + d) rest
      | EmptyString => None
      end
  end.

Definition expect (c : ascii) (s : string) : option string :=
  match s with
  | String c' rest => if Ascii.eqb c c' then Some rest else None
  | EmptyString => None
  end.

Definition parseYear (s : string) : option (Z * string) :=
  match s with
  | String "+" rest => takeDigits 6 0 rest
  | String "-" rest =>
      '(y, rest') ← takeDigits 6 0 rest;
      if y =? 0 then None else Some (- y, rest')
  | _ => takeDigits 4 0 s
  end.

(** [Date.parse] on the format that [toISOString] writes; any other string
    is [NaN] in this host. *)
Definition DateParseISO (s : string) : number :=
  '(y, s1) ← parseYear s;
  s2 ← expect "-" s1;
  '(mo, s3) ← takeDigits 2 0 s2;
  s4 ← expect "-" s3;
  '(d, s5) ← takeDigits 2 0 s4;
  s6 ← expect "T" s5;
  '(h, s7) ← takeDigits 2 0 s6;
  s8 ← expect ":" s7;
  '(mi, s9) ← takeDigits 2 0 s8;
  s10 ← expect ":" s9;
  '(sec, s11) ← takeDigits 2 0 s10;
  s12 ← expect "." s11;
  '(ms, s13) ← takeDigits 3 0 s12;
  s14 ← expect "Z" s13;
  if String.eqb s14 EmptyString &&
     (1 <=? mo) && (mo <=? 12) && (1 <=? d) && (d <=? 31) &&
     (h <=? 23) && (mi <=? 59) && (sec <=? 59)
  then
    Time.TimeClip
      (Time.MakeDate (Time.MakeDay y (mo - 1) d) (Time.MakeTime h mi sec ms))
  else None.

(** Local time is UTC. *)
Definition LocalTZA_UTC (t : Z) (isUTC : bool) : Z := 0.

(** A source of identifiers: the call number in eight digits. *)
Definition countingUUID (n : nat) : string := pad 8 (Z.of_nat n).


(** ** The expansion as the specification states it *)

Fixpoint takeWhile {A : Type} (p : A -> bool) (l : list A) : list A :=
  match l with
  | [] => []
  | x :: l' => if p x then x :: takeWhile p l' else []
  end.

Section Specification.

Variable DateParse : string -> number.
Variable LocalTZA : Z -> bool -> Z.

(** The half-open rule: [occStart < windowEnd] and [occEnd > windowStart]. *)
Definition overlapsWindow (occStart occEnd windowStart windowEnd : number)
    : bool :=
  num_lt occStart windowEnd && num_gt occEnd windowStart.

(** The recurrence rule of a recurring task. *)
Definition recurrenceRule (task : Task) : option RecurrenceConfig :=
  match recurrence task with
  | Some r => if isNONE (frequency r) then None else Some r
  | None => None
  end.

(** The calendar fields of an instant in the local time of the host:
    the year, the month (0 is January), the day of the month and the
    milliseconds since midnight. *)
Definition calendarFields (s : Z) : Z * Z * Z * Z :=
  let l := s + LocalTZA s true in
  (Time.YearFromTime l, Time.MonthFromTime l, Time.DateFromTime l,
   Time.TimeWithinDay l).

(** The instant at which the local time has the given fields, if it is
    one.  A day of the month beyond the end of the month counts on into
    the months that follow, a month beyond December into the years that
    follow. *)
Definition instantAt (fields : Z * Z * Z * Z) : number :=
  let '(y, m, d, ms) := fields in
  let l := Time.MakeDate (Time.MakeDay y m d) ms in
  Time.TimeClip (l - LocalTZA l false).

(** One recurrence step on the fields: Daily, [+interval] days; Weekly,
    [+interval×7] days; Monthly, [+interval] months; Yearly, [+interval]
    years.  The sums and the product are those of Numbers. *)
Definition stepFields (f : RecurrenceFrequency) (n : Z)
    (fields : Z * Z * Z * Z) : Z * Z * Z * Z :=
  let '(y, m, d, ms) := fields in
  match f with
  | DAILY => (y, m, Num.add d n, ms)
  | WEEKLY => (y, m, Num.add d (Num.mul n 7), ms)
  | MONTHLY => (y, Num.add m n, d, ms)
  | YEARLY => (Num.add y n, m, d, ms)
  | NONE => fields
  end.

(** One step by frequency and interval; an interval that is absent
    counts as 1, and there is no step by an interval that is no
    number. *)
Definition nextStart (r : RecurrenceConfig) (s : number) : number :=
  match s, orElse (interval r) (Some 1) with
  | Some sk, Some n =>
      instantAt (stepFields (frequency r) n (calendarFields sk))
  | _, _ => None
  end.

(** [s0 = task.start], [s(k+1) = step(sk)]. *)
Fixpoint candidateStart (task : Task) (r : RecurrenceConfig) (k : nat)
    : number :=
  match k with
  | O => Date_ofString DateParse (start task)
  | S k' => nextStart r (candidateStart task r k')
  end.

(** The walk stops at [sk] when [sk >= windowEnd], or when [until] is set
    and [sk > until].  A candidate or a window end that is no instant
    stops it too, and so does an [until] that is set to no instant. *)
Definition walkStops (r : RecurrenceConfig) (windowEnd s : number) : bool :=
  match s, windowEnd with
  | Some sk, Some w =>
      (w <=? sk) ||
      match until r with
      | Some text =>
          if String.eqb text EmptyString then false
          else match Date_ofString DateParse text with
               | Some u => u <? sk
               | None => true
               end
      | None => false
      end
  | _, _ => true
  end.

(** The starts visited: the candidates before the first one that stops
    the walk, 1000 at most. *)
Definition visitedStarts (task : Task) (r : RecurrenceConfig)
    (windowEnd : number) : list number :=
  takeWhile (fun s => negb (walkStops r windowEnd s))
    (map (candidateStart task r) (seq 0 1000)).

(** The end of the occurrence that starts at [s]:
    [start + (series.end - series.start)], an instant or none. *)
Definition occurrenceEnd (task : Task) (s : number) : number :=
  let seriesStart := Date_ofString DateParse (start task) in
  let seriesEnd := Date_ofString DateParse (end_ task) in
  newDate (num_add s (num_sub seriesEnd seriesStart)).

(** The occurrence of [task] that starts at [s]. *)
Definition occurrenceAt (task : Task) (s : number) : option Task :=
  match s, occurrenceEnd task s with
  | Some s', Some e' =>
      Some {| id := id task +:+ "::" +:+ toISOString s';
              title := title task;
              description := description task;
              start := toISOString s';
              end_ := toISOString e';
              priority := priority task;
              reminderMinutes := reminderMinutes task;
              completed :=
                bool_decide
                  (toISOString s' ∈ orElse (completedInstances task) []);
              recurrence := recurrence task;
              completedInstances := completedInstances task |}
  | _, _ => None
  end.

Definition expandTaskSpec (task : Task) (windowStart windowEnd : number)
    : list Task :=
  match recurrenceRule task with
  | None =>
      if overlapsWindow (Date_ofString DateParse (start task))
           (Date_ofString DateParse (end_ task)) windowStart windowEnd
      then [task] else []
  | Some r =>
      omap (occurrenceAt task)
        (List.filter
           (fun s =>
              overlapsWindow s (occurrenceEnd task s) windowStart windowEnd)
           (visitedStarts task r windowEnd))
  end.

Definition expansionSpec (tasks : list Task) (windowStart windowEnd : number)
    : list Task :=
  flat_map (fun task => expandTaskSpec task windowStart windowEnd) tasks.

End Specification.

(** ** The identity codec as the specification states it *)

(** The text before and after the first occurrence of the separator. *)
Fixpoint findSeparator (s : string) : option (string * string) :=
  match s with
  | EmptyString => None
  | String c rest =>
      match rest with
      | String c' rest' =>
          if Ascii.eqb c colon && Ascii.eqb c' colon
          then Some (EmptyString, rest')
          else
            match findSeparator rest with
            | Some (before, after) => Some (String c before, after)
            | None => None
            end
      | EmptyString => None
      end
  end.

(** Decoding by a split on the first occurrence of the separator. *)
Definition decodeAtFirstSeparator (s : string) : VirtualId :=
  match findSeparator s with
  | Some (before, after) =>
      {| originalId := before; instanceDate := Some after |}
  | None => {| originalId := s; instanceDate := None |}
  end.

(** An identifier that the codec can carry: no separator in it and no
    [:] at its end. *)
Definition codecSafe (taskId : string) : Prop :=
  findSeparator (taskId +:+ ":") = None.

(** A text without the character of the separator. *)
Fixpoint colonFree (s : string) : Prop :=
  match s with
  | EmptyString => True
  | String c s' => c <> colon /\ colonFree s'
  end.

(** ** Comparing task lists with [completedInstances] read as a set *)

(** [t.completedInstances || []]. *)
Definition instancesOf (t : Task) : list string :=
  orElse (completedInstances t) [].

Definition instanceSet (t : Task) : gset string :=
  list_to_set (instancesOf t).

(** Every field but [completedInstances] agrees. *)
Definition sameButInstances (t1 t2 : Task) : Prop :=
  id t1 = id t2 /\ title t1 = title t2 /\ description t1 = description t2 /\
  start t1 = start t2 /\ end_ t1 = end_ t2 /\ priority t1 = priority t2 /\
  reminderMinutes t1 = reminderMinutes t2 /\ completed t1 = completed t2 /\
  recurrence t1 = recurrence t2.

Definition sameTask (t1 t2 : Task) : Prop :=
  sameButInstances t1 t2 /\ instanceSet t1 = instanceSet t2.

Definition sameTasks (l1 l2 : list Task) : Prop := Forall2 sameTask l1 l2.

(** The series an occurrence or a task belongs to. *)
Definition seriesOf (t : Task) : string := originalId (parseVirtualId (id t)).

(** What the batch import is asked to keep of a record. *)
Definition keepsSupplied (t : Any.t) (t' : Task) : Prop :=
  (forall n, Any.reminderMinutes t = Some n -> reminderMinutes t' = n) /\
  (forall b, Any.completed t = Some b -> completed t' = b).

(** ** The rest of the application *)

(** [ViewMode] of [types.ts]. *)
Inductive ViewMode : Type := DAY | WEEK | LIST.

(** [WeekDay(t)] of ECMAScript; 0 is Sunday. *)
Definition WeekDay (t : Z) : Z := (Time.Day t + 4) mod 7.

(** [a === b] on Numbers: false when either is [NaN]. *)
Definition num_eq (a b : number) : bool :=
  match a, b with Some x, Some y => x =? y | _, _ => false end.

(** [s.includes(q)] on strings: [q] occurs in [s]. *)
Fixpoint startsWith (s q : string) : bool :=
  match q, s with
  | EmptyString, _ => true
  | String c q', String d s' => Ascii.eqb c d && startsWith s' q'
  | String _ _, EmptyString => false
  end.

Fixpoint String_includes (s q : string) : bool :=
  startsWith s q ||
  match s with
  | String _ s' => String_includes s' q
  | EmptyString => false
  end.

(** The object that [TaskForm] hands to [onSave], the argument of
    [handleSaveTask]: every property is set, [recurrence] possibly to
    [undefined]. *)
Module TaskData.
Record t : Type := {
  title : string;
  description : string;
  start : string;
  end_ : string;
  priority : Priority;
  reminderMinutes : Z;
  recurrence : option RecurrenceConfig
}.
End TaskData.

(** The state of the fields of [TaskForm].  [interval] holds a Number,
    or [undefined] ([None]) once [setInterval] was handed the interval of
    a recurrence that has none. *)
Module Form.
Record t : Type := {
  title : string;
  description : string;
  start : string;
  end_ : string;
  priority : Priority;
  reminderMinutes : Z;
  freq : RecurrenceFrequency;
  interval : option number;
  until : string
}.
End Form.

(** [{ ...t, ...taskData }]. *)
Definition mergeTaskData (t : Task) (taskData : TaskData.t) : Task :=
  {| id := id t;
     title := TaskData.title taskData;
     description := TaskData.description taskData;
     start := TaskData.start taskData;
     end_ := TaskData.end_ taskData;
     priority := TaskData.priority taskData;
     reminderMinutes := TaskData.reminderMinutes taskData;
     completed := completed t;
     recurrence := TaskData.recurrence taskData;
     completedInstances := completedInstances t |}.

(** [{ id: ..., completed: false, ...taskData }]. *)
Definition createTask (uuid : string) (taskData : TaskData.t) : Task :=
  {| id := uuid;
     title := TaskData.title taskData;
     description := TaskData.description taskData;
     start := TaskData.start taskData;
     end_ := TaskData.end_ taskData;
     priority := TaskData.priority taskData;
     reminderMinutes := TaskData.reminderMinutes taskData;
     completed := false;
     recurrence := TaskData.recurrence taskData;
     completedInstances := None |}.

(** The icons of [lucide-react] that [getWeatherIcon] chooses from. *)
Inductive WeatherIcon : Type := Sun | CloudRain | CloudSnow | CloudLightning | Cloud.

(** *** [App.tsx]: [getWeatherIcon], on an integral WMO code *)

Definition getWeatherIcon (code : Z) : WeatherIcon :=
  if code =? 0 then Sun
  else if (61 <=? code) && (code <=? 65) then CloudRain
  else if 71 <=? code then CloudSnow
  else if 95 <=? code then CloudLightning
  else Cloud.

(** *** [services/weatherService.ts] *)

Definition getWeatherDescription (code : Z) : string :=
  if code =? 0 then "晴朗"
  else if (1 <=? code) && (code <=? 3) then "多云"
  else if (45 <=? code) && (code <=? 48) then "有雾"
  else if (51 <=? code) && (code <=? 55) then "毛毛雨"
  else if (61 <=? code) && (code <=? 65) then "下雨"
  else if (66 <=? code) && (code <=? 67) then "雨夹雪"
  else if (71 <=? code) && (code <=? 77) then "下雪"
  else if (80 <=? code) && (code <=? 82) then "阵雨"
  else if (85 <=? code) && (code <=? 86) then "阵雪"
  else if 95 <=? code then "雷雨"
  else "多云".

(** [temp] is the temperature as the service reports it, a decimal
    fraction; the comparisons are exact on it. *)
Definition tempAtLeast (temp : QArith_base.Q) (n : Z) : bool :=
  QArith_base.Qle_bool (QArith_base.inject_Z n) temp.

Definition getClothingAdvice (temp : QArith_base.Q) (code : Z) : string :=
  let advice := EmptyString in
  let advice :=
    if (51 <=? code) && (code <=? 67) || (80 <=? code) && (code <=? 82)
    then advice +:+ "记得带伞。"
    else if (71 <=? code) || (85 <=? code)
    then advice +:+ "雪天路滑，注意保暖。"
    else if (code =? 0) && negb (QArith_base.Qle_bool temp (QArith_base.inject_Z 25))
    then advice +:+ "注意防晒。"
    else advice in
  if tempAtLeast temp 30
  then advice +:+ " 天气炎热，建议穿着短袖、薄款透气衣物。"
  else if tempAtLeast temp 24
  then advice +:+ " 温暖舒适，建议T恤或薄衬衫。"
  else if tempAtLeast temp 18
  then advice +:+ " 稍有凉意，建议长袖衬衫或薄外套。"
  else if tempAtLeast temp 10
  then advice +:+ " 气温较低，建议夹克、风衣或毛衣。"
  else if tempAtLeast temp 0
  then advice +:+ " 天气寒冷，请穿着棉服或羽绒服。"
  else advice +:+ " 严寒天气，请穿着厚羽绒服，注意防寒。".

(** *** [Array.prototype.sort] with a comparator

    [before a b] says that the comparator returns a negative Number on
    [(a, b)]; a [NaN] counts as [+0].  For a consistent comparator
    ECMAScript fixes the result: the stable arrangement in ascending
    order, which inserting the elements one by one, each behind those it
    is not before, computes. *)
Section Sort.

Context {A : Type}.
Variable before : A -> A -> bool.

Fixpoint insertSorted (x : A) (sorted : list A) : list A :=
  match sorted with
  | [] => [x]
  | y :: sorted' =>
      if before x y then x :: sorted else y :: insertSorted x sorted'
  end.

Definition Array_sort (l : list A) : list A :=
  foldl (fun sorted x => insertSorted x sorted) [] l.

End Sort.

Section Application.

Variable DateParse : string -> number.
Variable LocalTZA : Z -> bool -> Z.
Variable randomUUID : nat -> string.
Variable Notification : option NotificationAPI.

(** [String.prototype.toLowerCase] and [String.prototype.trim], which work
    on Unicode text, are left to the host. *)
Variable toLowerCase : string -> string.
Variable trim : string -> string.

Definition getDay (t : Z) : Z := WeekDay (LocalTime LocalTZA t).

(** Getters and setters on a [Date] that may be invalid. *)
Definition Date_getDate (d : number) : number := t ← d; Some (getDate LocalTZA t).
Definition Date_getMonth (d : number) : number := t ← d; Some (getMonth LocalTZA t).
Definition Date_getFullYear (d : number) : number :=
  t ← d; Some (getFullYear LocalTZA t).
Definition Date_setHours (d : number) (h m s ms : Z) : number :=
  t ← d; setHours LocalTZA t h m s ms.

(** *** [App.tsx]: the window of [visibleTasks] *)

Definition dayRange (currentDate : number) : number * number :=
  (Date_setHours currentDate 0 0 0 0, Date_setHours currentDate 23 59 59 999).

Definition weekRange (currentDate : number) : number * number :=
  let s :=
    t ← currentDate;
    setDate LocalTZA t (Num.sub (getDate LocalTZA t) (getDay t)) in
  let s := Date_setHours s 0 0 0 0 in
  let e := t ← s; setDate LocalTZA t (Num.add (getDate LocalTZA t) 7) in
  (s, e).

(** *** [components/WeekView.tsx]: the columns and the navigation *)

Definition startOfWeek (currentDate : number) : number :=
  t ← currentDate;
  setDate LocalTZA t (Num.sub (getDate LocalTZA t) (getDay t)).

(** [Array.from({ length: 7 }, (_, i) => ...)]. *)
Definition weekDays (currentDate : number) : list number :=
  map (fun i => d ← startOfWeek currentDate;
                setDate LocalTZA d (Num.add (getDate LocalTZA d) i))
      [0; 1; 2; 3; 4; 5; 6].

(** The date handed to [onDateChange] by the two buttons. *)
Definition previousWeek (currentDate : number) : number :=
  d ← currentDate; setDate LocalTZA d (Num.sub (getDate LocalTZA d) 7).

Definition nextWeek (currentDate : number) : number :=
  d ← currentDate; setDate LocalTZA d (Num.add (getDate LocalTZA d) 7).

(** *** [App.tsx]: [visibleTasks] *)

Definition matchesQuery (query : string) (t : Task) : bool :=
  String_includes (toLowerCase (title t)) query ||
  String_includes (toLowerCase (description t)) query.

Definition visibleTasks (tasks : list Task) (viewMode : ViewMode)
    (currentDate : number) (searchQuery : string) : option (list Task) :=
  tasksToDisplay ←
    match viewMode with
    | LIST => Some tasks
    | DAY =>
        let '(start, end_) := dayRange currentDate in
        generateRecurringTasks DateParse LocalTZA tasks start end_
    | WEEK =>
        let '(start, end_) := weekRange currentDate in
        generateRecurringTasks DateParse LocalTZA tasks start end_
    end;
  if truthy (Some (trim searchQuery))
  then
    let query := toLowerCase searchQuery in
    Some (List.filter (matchesQuery query) tasksToDisplay)
  else Some tasksToDisplay.

(** *** [App.tsx]: [handleSaveTask] *)

(** The state is the count of identifiers drawn and the task list;
    [editingTask] is [None] when it is [undefined]. *)
Definition handleSaveTask (editingTask : option Task)
    (taskData : TaskData.t) (state : nat * list Task) : nat * list Task :=
  let '(calls, prev) := state in
  match editingTask with
  | Some editing =>
      (calls,
       map (fun t =>
              if String.eqb (id t) (id editing) then mergeTaskData t taskData
              else t) prev)
  | None =>
      let newTask := createTask (randomUUID calls) taskData in
      (S calls, prev ++ [newTask])
  end.

(** *** [App.tsx]: [handleEditTask] *)

(** The task handed to [setEditingTask]; [None] when [find] gives
    [undefined] and nothing is done. *)
Definition handleEditTask (tasks : list Task) (task : Task) : option Task :=
  let originalId := originalId (parseVirtualId (id task)) in
  List.find (fun t => String.eqb (id t) originalId) tasks.

(** *** [App.tsx]: [handleDeleteTask] *)

(** [confirmed] is the answer to the [confirm] dialog. *)
Definition handleDeleteTask (confirmed : bool) (id' : string)
    (prev : list Task) : list Task :=
  let originalId := originalId (parseVirtualId id') in
  if confirmed
  then List.filter (fun t => negb (String.eqb (id t) originalId)) prev
  else prev.

(** *** [components/TaskForm.tsx]: [handleSubmit] *)

(** [Some None] when the form is refused with the alert, [Some (Some d)]
    when [onSave(d)] is called, [None] when a [toISOString] throws. *)
Definition handleSubmit (form : Form.t) : option (option TaskData.t) :=
  if num_ge (Date_ofString DateParse (Form.start form))
            (Date_ofString DateParse (Form.end_ form))
  then Some None
  else
    recurrence ←
      submittedRecurrence DateParse (Form.freq form) (Form.interval form)
        (Form.until form);
    startIso ← Date_toISOString (Date_ofString DateParse (Form.start form));
    endIso ← Date_toISOString (Date_ofString DateParse (Form.end_ form));
    Some (Some {| TaskData.title := Form.title form;
                  TaskData.description := Form.description form;
                  TaskData.start := startIso;
                  TaskData.end_ := endIso;
                  TaskData.priority := Form.priority form;
                  TaskData.reminderMinutes := Form.reminderMinutes form;
                  TaskData.recurrence := recurrence |}).

(** *** [components/TaskForm.tsx]: the dates shown when an edit opens *)

(** [new Date(stored).toISOString().slice(0, n)]; [None] when
    [toISOString] throws. *)
Definition shownInForm (stored : string) (n : nat) : option string :=
  iso ← Date_toISOString (Date_ofString DateParse stored);
  Some (String.substring 0 n iso).

(** The values handed to [setStart], [setEnd] and [setUntil]. *)
Definition initialStart (initialData : Task) : option string :=
  shownInForm (start initialData) 16.

Definition initialEnd (initialData : Task) : option string :=
  shownInForm (end_ initialData) 16.

Definition initialUntil (r : RecurrenceConfig) : option string :=
  if truthy (until r) then shownInForm (orElse (until r) EmptyString) 10
  else Some EmptyString.

(** The value handed to [setInterval]: the interval of the recurrence as
    it is, 1 for a task that has no recurrence. *)
Definition initialInterval (initialData : Task) : option number :=
  match recurrence initialData with
  | Some r => interval r
  | None => Some (Some 1)
  end.

(** *** [components/DayView.tsx]: [dayTasks] *)

Definition dayTasks (tasks : list Task) (date : number) : list Task :=
  List.filter (fun task =>
    let taskDate := Date_ofString DateParse (start task) in
    num_eq (Date_getDate taskDate) (Date_getDate date) &&
    num_eq (Date_getMonth taskDate) (Date_getMonth date) &&
    num_eq (Date_getFullYear taskDate) (Date_getFullYear date)) tasks.

(** *** [components/ListView.tsx]: [sortedTasks] *)

(** The comparator: [1] or [-1] when the flags differ, the difference of
    the start times otherwise. *)
Definition compareListed (a b : Task) : number :=
  if negb (Bool.eqb (completed a) (completed b))
  then Some (if completed a then 1 else -1)
  else num_sub (Date_ofString DateParse (start a))
               (Date_ofString DateParse (start b)).

Definition sortedTasks (tasks : list Task) : list Task :=
  Array_sort (fun a b => num_lt (compareListed a b) (Some 0)) tasks.

(** *** [components/AiPlannerModal.tsx]: [sortGeneratedTasks] *)

Definition getPriorityValue (p : Priority) : Z :=
  match p with HIGH => 3 | MEDIUM => 2 | LOW => 1 end.

(** [a.start ? new Date(a.start).getTime() : 0]. *)
Definition generatedStart (a : Any.t) : number :=
  if truthy (Some (Any.start a)) then Date_ofString DateParse (Any.start a)
  else Some 0.

Definition compareGenerated (a b : Any.t) : number :=
  let startA := generatedStart a in
  let startB := generatedStart b in
  if negb (num_eq startA startB) then num_sub startA startB
  else Some (Num.sub (getPriorityValue (Any.priority b))
                     (getPriorityValue (Any.priority a))).

Definition sortGeneratedTasks (tasks : list Any.t) : list Any.t :=
  Array_sort (fun a b => num_lt (compareGenerated a b) (Some 0)) tasks.

(** [handleAnalyze] sorts what the extraction returns and
    [handleConfirmImport] hands it to [onImportTasks]. *)
Definition importGenerated (rawTasks : list Any.t) (state : nat * list Task)
    : nat * list Task :=
  handleBatchImport randomUUID (sortGeneratedTasks rawTasks) state.

(** The reminder scanner with the set it leaves. *)
Fixpoint scannerState (ticks : list (list Task * Z))
    (notifiedTaskIds : gset string) : option (gset string) :=
  match ticks with
  | [] => Some notifiedTaskIds
  | (tasks, now) :: later =>
      tick ←
        checkReminders DateParse LocalTZA Notification tasks notifiedTaskIds
          now;
      scannerState later (notifiedAfter tick)
  end.

End Application.

(** A host whose local time is at a fixed offset from UTC. *)
Definition LocalTZA_fixed (offset : Z) (t : Z) (isUTC : bool) : Z := offset.

(** [Date.parse] in that host on the texts the form meets: what
    [toISOString] writes, and the values of its two kinds of input.
    ECMAScript reads a date-time without an offset, [YYYY-MM-DDTHH:mm],
    as a local time, and a date alone, [YYYY-MM-DD], as a UTC date. *)
Definition DateParseLocalMinutes (offset : Z) (s : string) : number :=
  '(y, s1) ← takeDigits 4 0 s;
  s2 ← expect "-" s1;
  '(mo, s3) ← takeDigits 2 0 s2;
  s4 ← expect "-" s3;
  '(d, s5) ← takeDigits 2 0 s4;
  s6 ← expect "T" s5;
  '(h, s7) ← takeDigits 2 0 s6;
  s8 ← expect ":" s7;
  '(mi, s9) ← takeDigits 2 0 s8;
  if String.eqb s9 EmptyString &&
     (1 <=? mo) && (mo <=? 12) && (1 <=? d) && (d <=? 31) &&
     (h <=? 23) && (mi <=? 59)
  then
    Time.TimeClip
      (Time.MakeDate (Time.MakeDay y (mo - 1) d) (Time.MakeTime h mi 0 0)
       - offset)
  else None.

Definition DateParseDateOnly (s : string) : number :=
  '(y, s1) ← takeDigits 4 0 s;
  s2 ← expect "-" s1;
  '(mo, s3) ← takeDigits 2 0 s2;
  s4 ← expect "-" s3;
  '(d, s5) ← takeDigits 2 0 s4;
  if String.eqb s5 EmptyString &&
     (1 <=? mo) && (mo <=? 12) && (1 <=? d) && (d <=? 31)
  then Time.TimeClip (Time.MakeDate (Time.MakeDay y (mo - 1) d) 0)
  else None.

Definition DateParseForm (offset : Z) (s : string) : number :=
  match DateParseISO s with
  | Some t => Some t
  | None =>
      match DateParseLocalMinutes offset s with
      | Some t => Some t
      | None => DateParseDateOnly s
      end
  end.

(** Local midnight of the day of [t] in that host. *)
Definition midnight (offset t : Z) : Z :=
  Time.Day (t + offset) * Time.msPerDay - offset.

(** A recurrence whose interval is no Number below 1: it is absent,
    where the expansion takes 1; or at least 1; or [NaN], where the walk
    ends behind the first start. *)
Definition positiveInterval (t : Task) : Prop :=
  match recurrence t with
  | Some r =>
      match interval r with
      | Some (Some n) => 1 <= n
      | Some None | None => True
      end
  | None => True
  end.

(** A task list on which identifiers and reminders behave: distinct
    identifiers that the codec can carry, no interval below 1. *)
Definition wellFormed (tasks : list Task) : Prop :=
  NoDup (id <$> tasks) /\
  Forall (fun t => codecSafe (id t)) tasks /\
  Forall positiveInterval tasks.

(** Pairs of integers in lexicographic order, the order of both
    comparators. *)
Definition lexLe (p q : Z * Z) : Prop :=
  p.1 < q.1 \/ (p.1 = q.1 /\ p.2 <= q.2).

(** The sort keys: for [sortGeneratedTasks] the start, then the priority
    downwards; for [sortedTasks] the completion flag, then the start. *)
Definition generatedKey (DateParse : string -> number) (a : Any.t) : Z * Z :=
  (default 0 (generatedStart DateParse a), - getPriorityValue (Any.priority a)).

Definition listedKey (DateParse : string -> number) (t : Task) : Z * Z :=
  (if completed t then 1 else 0,
   default 0 (Date_ofString DateParse (start t))).

(** *** A session of [App.tsx] without the batch import

    What the user does to the task list: submit the form for a new task
    or for an edit, delete, toggle.  A form that is refused, or whose
    [handleSubmit] throws, leaves the list as it is. *)
Inductive Action : Type :=
  | SubmitNew (form : Form.t)
  | SubmitEdit (editingTask : Task) (form : Form.t)
  | Delete (confirmed : bool) (asked : string)
  | Toggle (task : Task).

Definition act (DateParse : string -> number) (randomUUID : nat -> string)
    (state : nat * list Task) (action : Action) : nat * list Task :=
  match action with
  | SubmitNew form =>
      match handleSubmit DateParse form with
      | Some (Some taskData) => handleSaveTask randomUUID None taskData state
      | _ => state
      end
  | SubmitEdit editingTask form =>
      match handleSubmit DateParse form with
      | Some (Some taskData) =>
          handleSaveTask randomUUID (Some editingTask) taskData state
      | _ => state
      end
  | Delete confirmed asked =>
      (state.1, handleDeleteTask confirmed asked state.2)
  | Toggle task => (state.1, handleToggleComplete task state.2)
  end.

(** The task list after a session that starts from the empty list, with
    nothing in the store. *)
Definition session (DateParse : string -> number) (randomUUID : nat -> string)
    (actions : list Action) : list Task :=
  (foldl (act DateParse randomUUID) (0%nat, []) actions).2.

(** An action whose form, if it has one, holds a Number as its
    interval; and a recurrence whose interval is a Number, at least 1. *)
Definition entersNumber (action : Action) : Prop :=
  match action with
  | SubmitNew form | SubmitEdit _ form =>
      exists n, Form.interval form = Some (Some n)
  | Delete _ _ | Toggle _ => True
  end.

Definition intervalAtLeastOne (t : Task) : Prop :=
  match recurrence t with
  | Some r => exists n, interval r = Some (Some n) /\ 1 <= n
  | None => True
  end.

(** A source of identifiers that never repeats: [n] strokes before a
    letter. *)
Fixpoint tallyUUID (n : nat) : string :=
  match n with
  | O => "u"
  | S n' => String "i" (tallyUUID n')
  end.

(** The state of a session: well formed, every identifier drawn from the
    source by one of the calls made so far. *)
Definition drawn (randomUUID : nat -> string) (state : nat * list Task)
    : Prop :=
  wellFormed state.2 /\
  Forall (fun t => exists k, (k < state.1)%nat /\ id t = randomUUID k) state.2.

(** What a view shows of a task where completion matters: identifier,
    span and flag. *)
Definition shown (t : Task) : string * string * string * bool :=
  (id t, start t, end_ t, completed t).

(** The flag of the entries with identifier [i] turned over. *)
Definition flipped (i : string) (entry : string * string * string * bool)
    : string * string * string * bool :=
  let '(i', s, e, c) := entry in
  (i', s, e, if String.eqb i' i then negb c else c).

(** ** Sample inputs *)

(** 2024-01-01T00:00:00.000Z and the hours of that day. *)
Definition jan1 : Z := 1704067200000.
Definition hours (n : Z) : Z := n * Time.msPerHour.

Definition meeting : Task :=
  {| id := "m"; title := "offsite"; description := "";
     start := "2024-01-01T00:00:00.000Z"; end_ := "2024-01-01T23:00:00.000Z";
     priority := HIGH; reminderMinutes := 15; completed := false;
     recurrence := None; completedInstances := None |}.

(** A daily recurrence with the interval [n], or without interval. *)
Definition everyDay (n : option Z) : option RecurrenceConfig :=
  Some {| frequency := DAILY;
          interval := match n with Some k => Some (Some k) | None => None end;
          until := None |}.

Definition standup (n : option Z) : Task :=
  {| id := "s"; title := "standup"; description := "";
     start := "2024-01-01T09:00:00.000Z"; end_ := "2024-01-01T10:00:00.000Z";
     priority := MEDIUM; reminderMinutes := 15; completed := false;
     recurrence := everyDay n; completedInstances := None |}.

(** The occurrence of [standup n] on 2024-01-01. *)
Definition standupOccurrence (n : option Z) : Task :=
  {| id := "s::2024-01-01T09:00:00.000Z"; title := "standup";
     description := "";
     start := "2024-01-01T09:00:00.000Z"; end_ := "2024-01-01T10:00:00.000Z";
     priority := MEDIUM; reminderMinutes := 15; completed := false;
     recurrence := everyDay n; completedInstances := None |}.

(** A record of a batch import: a daily recurrence with interval 0, a
    reminder at the start itself, and marked completed. *)
Definition importedRecord : Any.t :=
  {| Any.id := None; Any.title := "standup"; Any.description := None;
     Any.start := "2024-01-01T09:00:00.000Z";
     Any.end_ := "2024-01-01T10:00:00.000Z";
     Any.priority := MEDIUM; Any.reminderMinutes := Some 0;
     Any.completed := Some true; Any.recurrence := everyDay (Some 0) |}.

(** The days after 2024-01-01. *)
Definition day (n : Z) : Z := jan1 + n * Time.msPerDay.

(** A daily series that ends on its third day, its second occurrence
    completed. *)
Definition untilJan3 : Task :=
  {| id := "u"; title := "review"; description := "";
     start := "2024-01-01T09:00:00.000Z"; end_ := "2024-01-01T10:00:00.000Z";
     priority := LOW; reminderMinutes := 15; completed := false;
     recurrence := Some {| frequency := DAILY; interval := Some (Some 1);
                           until := Some "2024-01-03T23:59:00.000Z" |};
     completedInstances := Some ["2024-01-02T09:00:00.000Z"] |}.

(** A task that does not recur. *)
Definition span (i s e : string) (done : bool) : Task :=
  {| id := i; title := ""; description := ""; start := s; end_ := e;
     priority := LOW; reminderMinutes := 15; completed := done;
     recurrence := None; completedInstances := None |}.

(** A daily series with the identifier [i]. *)
Definition dailySeries (i : string) : Task :=
  {| id := i; title := "rounds"; description := "";
     start := "2024-01-01T09:00:00.000Z"; end_ := "2024-01-01T10:00:00.000Z";
     priority := LOW; reminderMinutes := 15; completed := false;
     recurrence := everyDay (Some 1); completedInstances := None |}.

(** A daily series whose occurrences last 25 hours, its identifier with
    the separator in it, and its first two occurrences. *)
Definition longShift : Task :=
  {| id := "x::y"; title := "shift"; description := "";
     start := "2024-01-01T09:00:00.000Z"; end_ := "2024-01-02T10:00:00.000Z";
     priority := LOW; reminderMinutes := 15; completed := false;
     recurrence := everyDay (Some 1); completedInstances := None |}.

Definition longShiftOn (startIso endIso : string) : Task :=
  {| id := "x::y::" +:+ startIso; title := "shift"; description := "";
     start := startIso; end_ := endIso;
     priority := LOW; reminderMinutes := 15; completed := false;
     recurrence := everyDay (Some 1); completedInstances := None |}.

Definition firstShift : Task :=
  longShiftOn "2024-01-01T09:00:00.000Z" "2024-01-02T10:00:00.000Z".

Definition secondShift : Task :=
  longShiftOn "2024-01-02T09:00:00.000Z" "2024-01-03T10:00:00.000Z".

(** A host in which notifications are granted and shown. *)
Definition notifying : option NotificationAPI :=
  Some {| granted := true; constructs := true |}.

(** A list of two tasks, a daily series and a single one. *)
Definition twoTasks : list Task := [standup (Some 1); meeting].

(** Ten minutes before the stand-up of 2024-01-01, and ten seconds
    later. *)
Definition beforeStandup : Z := jan1 + hours 9 - 10 * Time.msPerMinute.

Definition twoTicks : list (list Task * Z) :=
  [(twoTasks, beforeStandup); (twoTasks, beforeStandup + 10000)].

(** The offset of UTC+8. *)
Definition utc8 : Z := hours 8.

(** A form filled for a weekly series, the interval field at 0. *)
Definition weeklyForm : Form.t :=
  {| Form.title := "review"; Form.description := "";
     Form.start := "2024-01-01T09:00:00.000Z";
     Form.end_ := "2024-01-01T10:00:00.000Z";
     Form.priority := HIGH; Form.reminderMinutes := 15;
     Form.freq := WEEKLY; Form.interval := Some (Some 0); Form.until := "" |}.

(** What the extraction may return: the later record first. *)
Definition lunch : Any.t :=
  {| Any.id := None; Any.title := "lunch"; Any.description := None;
     Any.start := "2024-01-01T08:00:00.000Z";
     Any.end_ := "2024-01-01T08:30:00.000Z";
     Any.priority := LOW; Any.reminderMinutes := None;
     Any.completed := None; Any.recurrence := None |}.

Definition plan : list Any.t := [importedRecord; lunch].

(** A session: a weekly series is created, a task is created and
    deleted again, the series is toggled. *)
Definition someSession : list Action :=
  [SubmitNew weeklyForm; SubmitNew weeklyForm; Delete true "iu";
   Toggle (span "u" "" "" false)].

(** The occurrence of 2024-01-01 of the series that session leaves. *)
Definition reviewOccurrence : Task :=
  {| id := "u::2024-01-01T09:00:00.000Z"; title := "review";
     description := "";
     start := "2024-01-01T09:00:00.000Z"; end_ := "2024-01-01T10:00:00.000Z";
     priority := HIGH; reminderMinutes := 15; completed := false;
     recurrence := Some {| frequency := WEEKLY; interval := Some (Some 1);
                           until := None |};
     completedInstances := None |}.

(** Two ticks, ten seconds apart, after that session. *)
Definition sessionTicks : list (list Action * Z) :=
  [(someSession, beforeStandup); (someSession, beforeStandup + 10000)].

(** A daily recurrence that ends on 2024-01-03 at 23:00 UTC. *)
Definition endsLate : RecurrenceConfig :=
  {| frequency := DAILY; interval := Some (Some 1);
     until := Some "2024-01-03T23:00:00.000Z" |}.

(** The form as it opens for an edit of [meeting] in a host at UTC+8,
    nothing typed. *)
Definition reopenedForm : Form.t :=
  {| Form.title := "offsite"; Form.description := "";
     Form.start := "2024-01-01T00:00"; Form.end_ := "2024-01-01T23:00";
     Form.priority := HIGH; Form.reminderMinutes := 15;
     Form.freq := NONE; Form.interval := Some (Some 1); Form.until := "" |}.

(** The form data of an edit that moves [meeting] to the afternoon. *)
Definition afternoon : TaskData.t :=
  {| TaskData.title := "offsite"; TaskData.description := "";
     TaskData.start := "2024-01-01T13:00:00.000Z";
     TaskData.end_ := "2024-01-01T17:00:00.000Z";
     TaskData.priority := HIGH; TaskData.reminderMinutes := 15;
     TaskData.recurrence := None |}.

(** A daily series as a batch import may admit it, its recurrence without
    an interval; and the form as it opens for an edit of it in the UTC
    host, nothing typed. *)
Definition briefing : Task :=
  {| id := "b"; title := "briefing"; description := "";
     start := "2024-01-01T09:00:00.000Z"; end_ := "2024-01-01T10:00:00.000Z";
     priority := MEDIUM; reminderMinutes := 15; completed := false;
     recurrence := everyDay None; completedInstances := None |}.

Definition briefingForm : Form.t :=
  {| Form.title := "briefing"; Form.description := "";
     Form.start := "2024-01-01T09:00"; Form.end_ := "2024-01-01T10:00";
     Form.priority := MEDIUM; Form.reminderMinutes := 15;
     Form.freq := DAILY; Form.interval := None; Form.until := "" |}.

(** * Facts *)

(** ** Numbers and comparisons *)

Lemma num_lt_true a b :
  num_lt a b = true <-> exists x y, a = Some x /\ b = Some y /\ x < y.
Proof.
  destruct a as [x|], b as [y|]; simpl; split;
    try discriminate; try (intros (? & ? & ? & ? & ?); discriminate).
  - intros H. exists x, y. repeat split. by apply Z.ltb_lt.
  - intros (x' & y' & [= <-] & [= <-] & H). by apply Z.ltb_lt.
Qed.

Lemma num_le_true a b :
  num_le a b = true <-> exists x y, a = Some x /\ b = Some y /\ x <= y.
Proof.
  destruct a as [x|], b as [y|]; simpl; split;
    try discriminate; try (intros (? & ? & ? & ? & ?); discriminate).
  - intros H. exists x, y. repeat split. by apply Z.leb_le.
  - intros (x' & y' & [= <-] & [= <-] & H). by apply Z.leb_le.
Qed.

Lemma num_gt_true a b :
  num_gt a b = true <-> exists x y, a = Some x /\ b = Some y /\ x > y.
Proof.
  unfold num_gt. rewrite num_lt_true. split.
  - intros (y & x & -> & -> & H). exists x, y. repeat split. lia.
  - intros (x & y & -> & -> & H). exists y, x. repeat split. lia.
Qed.

Lemma num_ge_true a b :
  num_ge a b = true <-> exists x y, a = Some x /\ b = Some y /\ x >= y.
Proof.
  unfold num_ge. rewrite num_le_true. split.
  - intros (y & x & -> & -> & H). exists x, y. repeat split. lia.
  - intros (x & y & -> & -> & H). exists y, x. repeat split. lia.
Qed.

Module NumFacts.
Import Num.

Lemma round53_small a : a <= 2 ^ 53 -> round53 a = a.
Proof.
  intros H. unfold round53.
  destruct (Z.leb_spec a (2 ^ 53)); [reflexivity|lia].
Qed.

(** Above [2 ^ 53] the rounded value keeps at least 53 bits. *)
Lemma round53_big a : 2 ^ 53 < a -> 2 ^ 53 <= round53 a.
Proof.
  intros H. unfold round53. destruct (Z.leb_spec a (2 ^ 53)); [lia|].
  assert (Hlog : 53 <= Z.log2 a).
  { change 53 with (Z.log2 (2 ^ 53)). apply Z.log2_le_mono. lia. }
  set (k := Z.log2 a - 52). assert (Hk : 1 <= k) by lia.
  assert (Hpow : 2 ^ 52 * 2 ^ k <= a).
  { rewrite <- Z.pow_add_r by lia. replace (52 + k) with (Z.log2 a) by lia.
    apply Z.log2_spec. lia. }
  assert (H2k : 2 <= 2 ^ k).
  { change 2 with (2 ^ 1) at 1. apply Z.pow_le_mono_r; lia. }
  assert (Hq : 2 ^ 52 <= a / 2 ^ k).
  { apply Z.div_le_lower_bound; lia. }
  change (2 ^ 53) with (2 ^ 52 * 2).
  case_match; nia.
Qed.

(** Integers up to [2 ^ 53] in magnitude are doubles. *)
Lemma fl_small z : Z.abs z <= 2 ^ 53 -> fl z = z.
Proof.
  intros H. unfold fl. rewrite round53_small by lia.
  destruct z; simpl; lia.
Qed.

Lemma fl_big z : 2 ^ 53 < Z.abs z -> 2 ^ 53 <= Z.abs (fl z).
Proof.
  intros H. unfold fl. pose proof (round53_big _ H).
  rewrite Z.abs_mul. destruct z; simpl in *; lia.
Qed.

(** A rounded value is a double: rounding it again changes nothing. *)
Lemma round53_idempotent a : 0 <= a -> round53 (round53 a) = round53 a.
Proof.
  intros Ha. destruct (Z.le_gt_cases a (2 ^ 53)) as [Hs|Hb].
  { rewrite (round53_small a) by done.
    by apply round53_small. }
  pose proof (round53_big a Hb) as Hbig.
  assert (Hlog : 53 <= Z.log2 a).
  { change 53 with (Z.log2 (2 ^ 53)). apply Z.log2_le_mono. lia. }
  set (k := Z.log2 a - 52). assert (Hk : 1 <= k) by lia.
  pose proof (Z.log2_spec a ltac:(lia)) as [Hlo Hhi].
  replace (Z.log2 a) with (52 + k) in Hlo by lia.
  replace (Z.succ (Z.log2 a)) with (53 + k) in Hhi by lia.
  rewrite Z.pow_add_r in Hlo, Hhi by lia.
  assert (H2k : 0 < 2 ^ k) by (apply Z.pow_pos_nonneg; lia).
  assert (Hq : 2 ^ 52 <= a / 2 ^ k < 2 ^ 53).
  { split; [apply Z.div_le_lower_bound; lia|].
    apply Z.div_lt_upper_bound; lia. }
  set (q' := if (a mod 2 ^ k <? 2 ^ (k - 1)) ||
                ((a mod 2 ^ k =? 2 ^ (k - 1)) && Z.even (a / 2 ^ k))
             then a / 2 ^ k else a / 2 ^ k + 1).
  assert (Hq' : 2 ^ 52 <= q' <= 2 ^ 53) by (subst q'; case_match; lia).
  assert (Hr : round53 a = q' * 2 ^ k).
  { unfold round53. by destruct (Z.leb_spec a (2 ^ 53)); [lia|]. }
  rewrite Hr in *. clearbody q'. unfold round53.
  destruct (Z.leb_spec (q' * 2 ^ k) (2 ^ 53)); [reflexivity|].
  assert (Hh : forall j, 1 <= j -> 0 < 2 ^ (j - 1))
    by (intros; apply Z.pow_pos_nonneg; lia).
  destruct (Z.eq_dec q' (2 ^ 53)) as [->|Hne].
  - assert (Hl : Z.log2 (2 ^ 53 * 2 ^ k) = 53 + k).
    { rewrite <- Z.pow_add_r by lia. apply Z.log2_pow2. lia. }
    rewrite Hl. replace (53 + k - 52) with (k + 1) by lia.
    assert (Hr' : 2 ^ 53 * 2 ^ k = 2 ^ 52 * 2 ^ (k + 1)).
    { rewrite <- !Z.pow_add_r by lia. f_equal. lia. }
    rewrite Hr', Z.div_mul, Z.mod_mul by (apply Z.pow_nonzero; lia).
    replace (k + 1 - 1) with k by lia.
    destruct (Z.ltb_spec 0 (2 ^ k)); [reflexivity|lia].
  - assert (Hl : Z.log2 (q' * 2 ^ k) = 52 + k).
    { rewrite Z.log2_mul_pow2 by lia.
      rewrite (Z.log2_unique q' 52); [lia|lia|]. change (2 ^ (52 + 1)) with (2 ^ 53).
      lia. }
    rewrite Hl. replace (52 + k - 52) with k by lia.
    rewrite Z.div_mul, Z.mod_mul by lia.
    specialize (Hh k Hk).
    destruct (Z.ltb_spec 0 (2 ^ (k - 1))); [reflexivity|lia].
Qed.

Lemma fl_idempotent z : fl (fl z) = fl z.
Proof.
  destruct (Z.le_gt_cases (Z.abs z) (2 ^ 53)) as [Hs|Hb].
  - rewrite (fl_small z) by done. by apply fl_small.
  - unfold fl. pose proof (round53_big _ Hb) as Hbig.
    assert (Hpos : 0 < round53 (Z.abs z)) by lia.
    destruct z as [|p|p]; [simpl in Hb; lia| |].
    + cbn [Z.sgn]. rewrite !Z.mul_1_l.
      rewrite (Z.abs_eq (round53 _)), Z.sgn_pos by lia.
      rewrite round53_idempotent by lia. lia.
    + cbn [Z.sgn]. rewrite Z.sgn_neg by lia.
      replace (Z.abs (-1 * round53 (Z.abs (Z.neg p))))
        with (round53 (Z.abs (Z.neg p))) by lia.
      rewrite round53_idempotent by lia. reflexivity.
Qed.

(** Rounding never moves a sum into or out of the range of time values. *)
Lemma TimeClip_fl z : Time.TimeClip (fl z) = Time.TimeClip z.
Proof.
  destruct (Z.le_gt_cases (Z.abs z) (2 ^ 53)) as [H|H].
  - by rewrite fl_small.
  - pose proof (fl_big z ltac:(lia)) as Hb.
    unfold Time.TimeClip, Time.maxTime.
    destruct (Z.leb_spec (Z.abs (fl z)) 8640000000000000); [lia|].
    destruct (Z.leb_spec (Z.abs z) 8640000000000000); [lia|]. reflexivity.
Qed.

End NumFacts.

Lemma TimeClip_Some x t :
  Time.TimeClip x = Some t -> t = x /\ Z.abs x <= Time.maxTime.
Proof.
  unfold Time.TimeClip. destruct (Z.leb_spec (Z.abs x) Time.maxTime);
    [|discriminate]. intros [= <-]. auto.
Qed.

Lemma TimeClip_valid t :
  Z.abs t <= Time.maxTime -> Time.TimeClip t = Some t.
Proof.
  intros H. unfold Time.TimeClip.
  by destruct (Z.leb_spec (Z.abs t) Time.maxTime); [|lia].
Qed.

Lemma newDate_Some n t : newDate n = Some t -> Z.abs t <= Time.maxTime.
Proof.
  destruct n as [x|]; [|discriminate]. intros H.
  apply TimeClip_Some in H as [-> H]. exact H.
Qed.

(** ** The calendar *)

Module TimeFacts.
Import Time.

Ltac zify_div :=
  unfold msPerDay, msPerHour, msPerMinute, msPerSecond, maxTime in *;
  Z.div_mod_to_equations.

Lemma DayFromYear_succ y : DayFromYear (y + 1) = DayFromYear y + DaysInYear y.
Proof.
  unfold DayFromYear, DaysInYear.
  destruct (Z.eqb_spec (y mod 4) 0); destruct (Z.eqb_spec (y mod 100) 0);
    destruct (Z.eqb_spec (y mod 400) 0); simpl; Z.div_mod_to_equations; lia.
Qed.

Lemma DaysInYear_cases y : DaysInYear y = 365 \/ DaysInYear y = 366.
Proof. unfold DaysInYear. repeat case_match; auto. Qed.

Lemma DayFromYear_lt y1 y2 : y1 < y2 -> DayFromYear y1 < DayFromYear y2.
Proof. unfold DayFromYear. intros H. Z.div_mod_to_equations. lia. Qed.

(** [YearFromTime t] is the year whose days hold [Day t]. *)
Lemma YearFromTime_spec t :
  DayFromYear (YearFromTime t) <= Day t < DayFromYear (YearFromTime t + 1).
Proof.
  unfold YearFromTime. set (d := Day t). clearbody d. clear t.
  set (y0 := 1970 + 400 * d / 146097).
  assert (Hy0 : 146097 * (y0 - 1970) <= 400 * d
                < 146097 * (y0 - 1970) + 146097).
  { subst y0. Z.div_mod_to_equations. lia. }
  clearbody y0.
  destruct (Z.ltb_spec d (DayFromYear y0)) as [H1|H1].
  - replace (y0 - 1 + 1) with y0 by lia. split; [|lia].
    revert H1. unfold DayFromYear. Z.div_mod_to_equations. lia.
  - destruct (Z.leb_spec (DayFromYear (y0 + 1)) d) as [H2|H2].
    + split; [lia|].
      revert H2. unfold DayFromYear. Z.div_mod_to_equations. lia.
    + lia.
Qed.

(** It is the largest year that has begun by [t], as ECMAScript defines
    it. *)
Lemma YearFromTime_largest t y :
  TimeFromYear y <= t <-> y <= YearFromTime t.
Proof.
  pose proof (YearFromTime_spec t) as [Hlo Hhi].
  unfold TimeFromYear. split; intros H.
  - destruct (Z.le_gt_cases y (YearFromTime t)) as [|Hgt]; [done|].
    assert (DayFromYear (YearFromTime t + 1) <= DayFromYear y).
    { destruct (Z.eq_dec y (YearFromTime t + 1)) as [->|]; [lia|].
      apply Z.lt_le_incl, DayFromYear_lt. lia. }
    revert Hhi. unfold Day. zify_div. lia.
  - assert (DayFromYear y <= DayFromYear (YearFromTime t)).
    { destruct (Z.eq_dec y (YearFromTime t)) as [->|]; [lia|].
      apply Z.lt_le_incl, DayFromYear_lt. lia. }
    revert Hlo. unfold Day. zify_div. lia.
Qed.

Lemma InLeapYear_eq t : DaysInYear (YearFromTime t) = 365 + InLeapYear t.
Proof.
  unfold InLeapYear. destruct (DaysInYear_cases (YearFromTime t)) as [H|H];
    rewrite H; reflexivity.
Qed.

Lemma InLeapYear_range t : InLeapYear t = 0 \/ InLeapYear t = 1.
Proof. unfold InLeapYear. case_match; auto. Qed.

Lemma DayWithinYear_range t : 0 <= DayWithinYear t < 365 + InLeapYear t.
Proof.
  unfold DayWithinYear. pose proof (YearFromTime_spec t) as H.
  rewrite DayFromYear_succ, InLeapYear_eq in H. lia.
Qed.

Lemma MonthFromTime_range t : 0 <= MonthFromTime t <= 11.
Proof. unfold MonthFromTime. repeat case_match; lia. Qed.

Lemma DateFromTime_range t : 1 <= DateFromTime t <= 31.
Proof.
  unfold DateFromTime, MonthFromTime.
  pose proof (DayWithinYear_range t). pose proof (InLeapYear_range t).
  repeat (match goal with
          | |- context [?a <? ?b] => destruct (Z.ltb_spec a b)
          end); simpl; lia.
Qed.

Lemma time_fields_range t :
  0 <= HourFromTime t <= 23 /\ 0 <= MinFromTime t <= 59 /\
  0 <= SecFromTime t <= 59 /\ 0 <= msFromTime t <= 999.
Proof.
  unfold HourFromTime, MinFromTime, SecFromTime, msFromTime. zify_div. lia.
Qed.

Lemma YearFromTime_range t :
  Z.abs t <= maxTime -> -271821 <= YearFromTime t <= 275760.
Proof.
  intros Ht. pose proof (YearFromTime_spec t) as H.
  rewrite DayFromYear_succ in H.
  pose proof (DaysInYear_cases (YearFromTime t)) as Hd.
  assert (-100000000 <= Day t <= 100000000) by (unfold Day; zify_div; lia).
  revert H Hd. generalize (YearFromTime t). intros y. unfold DayFromYear.
  intros. Z.div_mod_to_equations. lia.
Qed.

(** The fields of a time value make it up again. *)
Lemma MakeDay_fields t :
  MakeDay (YearFromTime t) (MonthFromTime t) (DateFromTime t) = Day t.
Proof.
  unfold MakeDay. pose proof (MonthFromTime_range t) as Hm.
  rewrite Z.div_small, Z.mod_small, Z.add_0_r by lia.
  fold (InLeapYear t). unfold DateFromTime, DayWithinYear. lia.
Qed.

Lemma MakeTime_fields t :
  MakeTime (HourFromTime t) (MinFromTime t) (SecFromTime t) (msFromTime t)
  = TimeWithinDay t.
Proof.
  unfold MakeTime, HourFromTime, MinFromTime, SecFromTime, msFromTime,
    TimeWithinDay. zify_div. lia.
Qed.

Lemma MakeDate_fields t :
  MakeDate (MakeDay (YearFromTime t) (MonthFromTime t) (DateFromTime t))
    (MakeTime (HourFromTime t) (MinFromTime t) (SecFromTime t) (msFromTime t))
  = t.
Proof.
  rewrite MakeDay_fields, MakeTime_fields. unfold MakeDate, Day, TimeWithinDay.
  zify_div. lia.
Qed.

(** A date that runs past its month runs on by whole days. *)
Lemma MakeDay_shift year month date n :
  MakeDay year month (date + n) = MakeDay year month date + n.
Proof. unfold MakeDay. lia. Qed.

End TimeFacts.

(** ** Strings *)

Lemma append_nil_l (s : string) : EmptyString +:+ s = s.
Proof. reflexivity. Qed.

Lemma append_cons (c : ascii) (a b : string) :
  String c a +:+ b = String c (a +:+ b).
Proof. reflexivity. Qed.

Ltac push_append := rewrite ?append_cons, ?append_nil_l.

Lemma append_assoc (a b c : string) : (a +:+ b) +:+ c = a +:+ (b +:+ c).
Proof.
  induction a as [|x a IH]; push_append; [reflexivity | by f_equal].
Qed.

Lemma includes_elem_of (arr : list string) (x : string) :
  includes arr x = bool_decide (x ∈ arr).
Proof.
  unfold includes. induction arr as [|y arr IH]; cbn [existsb].
  - symmetry. apply bool_decide_eq_false_2, not_elem_of_nil.
  - rewrite IH. destruct (String.eqb_spec x y) as [->|Hne]; cbn [orb].
    + symmetry. apply bool_decide_eq_true_2, list_elem_of_here.
    + apply bool_decide_ext. rewrite elem_of_cons. tauto.
Qed.

Lemma digit_cases d :
  In (digit d) ["0"; "1"; "2"; "3"; "4"; "5"; "6"; "7"; "8"; "9"]%char.
Proof. unfold digit. repeat case_match; simpl; tauto. Qed.

Lemma digit_not_colon d : digit d <> colon.
Proof.
  pose proof (digit_cases d) as H. simpl in H.
  repeat (destruct H as [<-|H]; [discriminate|]). destruct H.
Qed.

Lemma digitValue_digit d : 0 <= d <= 9 -> digitValue (digit d) = Some d.
Proof.
  intros H.
  assert (d = 0 \/ d = 1 \/ d = 2 \/ d = 3 \/ d = 4 \/ d = 5 \/ d = 6 \/
          d = 7 \/ d = 8 \/ d = 9) as Hd by lia.
  repeat (destruct Hd as [->|Hd]; [reflexivity|]). subst d. reflexivity.
Qed.

(** ** [Date.parse] of this host reads back [toISOString] *)

Lemma takeDigits_pad n : forall acc v rest,
  takeDigits n acc (pad n v +:+ rest)
  = Some (acc * 10 ^ Z.of_nat n + v mod 10 ^ Z.of_nat n, rest).
Proof.
  induction n as [|n IH]; intros acc v rest.
  - simpl. rewrite Z.mod_1_r. do 2 f_equal. lia.
  - cbn [pad takeDigits]. push_append. cbn [takeDigits].
    rewrite digitValue_digit
      by (pose proof (Z.mod_pos_bound (v / 10 ^ Z.of_nat n) 10); lia).
    cbn [mbind option_bind]. rewrite IH. do 2 f_equal.
    rewrite Nat2Z.inj_succ, Z.pow_succ_r by lia.
    rewrite (Z.mul_comm 10 (10 ^ _)), Z.rem_mul_r by lia. ring.
Qed.

Lemma takeDigits_pad_small n v rest :
  0 <= v < 10 ^ Z.of_nat n ->
  takeDigits n 0 (pad n v +:+ rest) = Some (v, rest).
Proof. intros H. rewrite takeDigits_pad, Z.mod_small by lia. reflexivity. Qed.

Lemma parseYear_digit d s :
  parseYear (String (digit d) s) = takeDigits 4 0 (String (digit d) s).
Proof.
  pose proof (digit_cases d) as H. simpl in H.
  repeat (destruct H as [<-|H]; [reflexivity|]). destruct H.
Qed.

Lemma parseYear_isoYear y rest :
  -999999 <= y <= 999999 ->
  parseYear (isoYear y +:+ rest) = Some (y, rest).
Proof.
  intros Hy. unfold isoYear.
  destruct (Z.leb_spec 0 y); destruct (Z.leb_spec y 9999); cbn [andb].
  - change (pad 4 y) with (String (digit ((y / 10 ^ 3) mod 10)) (pad 3 y)).
    push_append. rewrite parseYear_digit.
    apply (takeDigits_pad_small 4). simpl; lia.
  - destruct (Z.ltb_spec y 0); [lia|]. rewrite append_assoc. push_append.
    cbn [parseYear]. apply (takeDigits_pad_small 6). simpl; lia.
  - destruct (Z.ltb_spec y 0); [|lia]. rewrite append_assoc. push_append.
    cbn [parseYear]. rewrite (takeDigits_pad_small 6) by (simpl; lia).
    cbn [mbind option_bind]. destruct (Z.eqb_spec (- y) 0); [lia|].
    do 2 f_equal. lia.
  - lia.
Qed.

Lemma expect_cons c s : expect c (String c s) = Some s.
Proof. unfold expect. by rewrite Ascii.eqb_refl. Qed.

Ltac read_field n :=
  rewrite (takeDigits_pad_small n) by (simpl; lia);
  cbn [mbind option_bind]; push_append;
  rewrite ?expect_cons; cbn [mbind option_bind].

Lemma DateParseISO_toISOString t :
  Z.abs t <= Time.maxTime -> DateParseISO (toISOString t) = Some t.
Proof.
  intros Ht. unfold toISOString, DateParseISO.
  pose proof (TimeFacts.YearFromTime_range t Ht) as Hy.
  pose proof (TimeFacts.MonthFromTime_range t) as Hm.
  pose proof (TimeFacts.DateFromTime_range t) as Hd.
  pose proof (TimeFacts.time_fields_range t) as (Hh & Hmi & Hs & Hms).
  rewrite parseYear_isoYear by lia. cbn [mbind option_bind].
  push_append. rewrite expect_cons. cbn [mbind option_bind].
  read_field 2%nat. read_field 2%nat. read_field 2%nat. read_field 2%nat.
  read_field 2%nat. read_field 3%nat.
  replace (Time.MonthFromTime t + 1 - 1) with (Time.MonthFromTime t) by lia.
  rewrite TimeFacts.MakeDate_fields.
  repeat match goal with
  | |- context [?a <=? ?b] => destruct (Z.leb_spec a b); [|lia]
  end.
  cbn. by apply TimeClip_valid.
Qed.

(** ** Splitting at the separator *)

Lemma split_cons c c' s :
  split (String c (String c' s))
  = if Ascii.eqb c colon && Ascii.eqb c' colon then EmptyString :: split s
    else match split (String c' s) with
         | piece :: pieces => String c piece :: pieces
         | [] => [String c EmptyString]
         end.
Proof. reflexivity. Qed.

Lemma findSeparator_cons c c' s :
  findSeparator (String c (String c' s))
  = if Ascii.eqb c colon && Ascii.eqb c' colon then Some (EmptyString, s)
    else match findSeparator (String c' s) with
         | Some (before, after) => Some (String c before, after)
         | None => None
         end.
Proof. reflexivity. Qed.

Lemma split_nonempty s : split s <> [].
Proof.
  destruct s as [|c [|c' s]]; try discriminate. rewrite split_cons.
  destruct (Ascii.eqb c colon && Ascii.eqb c' colon); [discriminate|].
  by destruct (split (String c' s)).
Qed.

(** The pieces of [split]: the text before the first separator, then the
    pieces of the text after it. *)
Lemma split_findSeparator s :
  split s = match findSeparator s with
            | Some (before, after) => before :: split after
            | None => [s]
            end.
Proof.
  induction s as [|c s IH]; [reflexivity|].
  destruct s as [|c' s]; [reflexivity|].
  rewrite split_cons, findSeparator_cons.
  destruct (Ascii.eqb c colon && Ascii.eqb c' colon); [reflexivity|].
  rewrite IH. destruct (findSeparator (String c' s)) as [[before after]|];
    reflexivity.
Qed.

Lemma parseVirtualId_no_separator s :
  findSeparator s = None ->
  parseVirtualId s = {| originalId := s; instanceDate := None |}.
Proof.
  intros H. unfold parseVirtualId. rewrite split_findSeparator, H. reflexivity.
Qed.

Lemma parseVirtualId_one_separator s before after :
  findSeparator s = Some (before, after) ->
  findSeparator after = None ->
  parseVirtualId s = {| originalId := before; instanceDate := Some after |}.
Proof.
  intros H1 H2. unfold parseVirtualId.
  rewrite split_findSeparator, H1, split_findSeparator, H2. reflexivity.
Qed.

Lemma parseVirtualId_more_separators s before after :
  findSeparator s = Some (before, after) ->
  findSeparator after <> None ->
  parseVirtualId s = {| originalId := s; instanceDate := None |}.
Proof.
  intros H1 H2. unfold parseVirtualId.
  rewrite split_findSeparator, H1, split_findSeparator.
  destruct (findSeparator after) as [[b a]|]; [|done].
  pose proof (split_nonempty a). by destruct (split a).
Qed.

(** The separator written after a text that, followed by one colon, holds
    none, is the first one. *)
Lemma findSeparator_app_colon before : forall after,
  findSeparator (before +:+ ":") = None ->
  findSeparator (before +:+ "::" +:+ after) = Some (before, after).
Proof.
  induction before as [|c before IH]; intros after H; [reflexivity|].
  revert H. push_append. destruct before as [|c' before].
  - push_append. rewrite !findSeparator_cons.
    change (Ascii.eqb ":" colon) with true. rewrite andb_true_r.
    destruct (Ascii.eqb c colon); [discriminate|]. reflexivity.
  - push_append. rewrite !findSeparator_cons.
    destruct (Ascii.eqb c colon && Ascii.eqb c' colon); [discriminate|].
    intros H. specialize (IH after). revert IH H. push_append.
    intros IH H. rewrite IH; [reflexivity|].
    by destruct (findSeparator (String c' (before +:+ ":"))) as [[??]|].
Qed.

Lemma colonFree_pad n v : colonFree (pad n v).
Proof. induction n; simpl; auto using digit_not_colon. Qed.

Lemma colonFree_isoYear y : colonFree (isoYear y).
Proof.
  unfold isoYear. repeat case_match; push_append;
    first [ apply colonFree_pad
          | split; [discriminate | apply colonFree_pad] ].
Qed.

Lemma findSeparator_None_cons c s :
  c <> colon -> findSeparator s = None -> findSeparator (String c s) = None.
Proof.
  intros Hc Hs. destruct s as [|c' s]; [reflexivity|].
  rewrite findSeparator_cons, Hs.
  destruct (Ascii.eqb_spec c colon); [done|reflexivity].
Qed.

Lemma findSeparator_None_colon c' s :
  c' <> colon -> findSeparator (String c' s) = None ->
  findSeparator (String colon (String c' s)) = None.
Proof.
  intros Hc Hs. rewrite findSeparator_cons, Hs.
  destruct (Ascii.eqb_spec c' colon); [done|]. by rewrite andb_false_r.
Qed.

Lemma findSeparator_None_app a s :
  colonFree a -> findSeparator s = None -> findSeparator (a +:+ s) = None.
Proof.
  induction a as [|c a IH]; intros Ha Hs; [done|]. destruct Ha as [Hc Ha].
  push_append. apply findSeparator_None_cons; auto.
Qed.

(** A timestamp holds no separator. *)
Lemma findSeparator_toISOString t : findSeparator (toISOString t) = None.
Proof.
  unfold toISOString. cbn [pad]. push_append.
  apply findSeparator_None_app; [apply colonFree_isoYear|].
  repeat first
    [ apply findSeparator_None_colon; [apply digit_not_colon|]
    | apply findSeparator_None_cons;
        [first [apply digit_not_colon | discriminate]|] ].
  reflexivity.
Qed.

(** ** Identifiers that the codec can carry *)

Lemma findSeparator_before_colon a :
  findSeparator (a +:+ ":") = None -> findSeparator a = None.
Proof.
  induction a as [|c a IH]; [done|].
  push_append. destruct a as [|c' a]; [done|].
  revert IH. push_append. rewrite !findSeparator_cons. intros IH H.
  destruct (Ascii.eqb c colon && Ascii.eqb c' colon); [discriminate|].
  destruct (findSeparator (String c' (a +:+ ":"))) as [[??]|]; [discriminate|].
  by rewrite IH.
Qed.

Lemma parseVirtualId_plain taskId :
  codecSafe taskId ->
  parseVirtualId taskId = {| originalId := taskId; instanceDate := None |}.
Proof.
  intros H. by apply parseVirtualId_no_separator, findSeparator_before_colon.
Qed.

Lemma parseVirtualId_virtualIdOf taskId t :
  codecSafe taskId ->
  parseVirtualId (virtualIdOf taskId (toISOString t))
  = {| originalId := taskId; instanceDate := Some (toISOString t) |}.
Proof.
  intros H. unfold virtualIdOf.
  apply parseVirtualId_one_separator;
    [by apply findSeparator_app_colon | apply findSeparator_toISOString].
Qed.

(** ** The expansion *)

Lemma In_takeWhile {A : Type} (p : A -> bool) (l : list A) (x : A) :
  In x (takeWhile p l) -> In x l.
Proof.
  induction l as [|y l IH]; [done|]. cbn [takeWhile].
  destruct (p y); [|done]. intros [->|H]; [by left | right; auto].
Qed.

Lemma length_takeWhile {A : Type} (p : A -> bool) (l : list A) :
  (length (takeWhile p l) <= length l)%nat.
Proof.
  induction l as [|y l IH]; [done|]. cbn [takeWhile].
  destruct (p y); cbn [length]; lia.
Qed.

Section ExpansionFacts.

Variable DateParse : string -> number.
Variable LocalTZA : Z -> bool -> Z.

(** The test of the [while] loop is the walk not stopping. *)
Lemma loopCondition_walkStops r windowEnd s :
  loopCondition windowEnd (untilDateOf DateParse (until r)) s
  = negb (walkStops DateParse r windowEnd s).
Proof.
  unfold loopCondition, walkStops, untilDateOf.
  destruct s as [sk|]; [|reflexivity].
  destruct windowEnd as [w|]; [|reflexivity].
  cbn [num_lt]. rewrite negb_orb, <- Z.ltb_antisym. f_equal.
  destruct (until r) as [text|]; [|reflexivity]. cbn [truthy].
  destruct (String.eqb text EmptyString); [reflexivity|]. cbn [negb].
  destruct (Date_ofString DateParse text) as [u|]; [|reflexivity].
  cbn [num_le]. by rewrite Z.leb_antisym.
Qed.

(** The step of the loop is the step by frequency and interval. *)
Lemma advance_nextStart r s :
  frequency r <> NONE ->
  advance LocalTZA (frequency r) (orElse (interval r) (Some 1)) s
  = nextStart LocalTZA r s.
Proof.
  intros Hf. unfold nextStart. destruct s as [sk|]; [|reflexivity].
  destruct (orElse (interval r) (Some 1)) as [n|];
    [|by destruct (frequency r)].
  destruct (frequency r); [done|..];
    cbn [advance num_add num_mul mbind option_bind stepFields calendarFields
         instantAt];
    unfold setDate, setMonth, setFullYear, getDate, getMonth, getFullYear,
      LocalTime, UTC; try reflexivity.
  unfold Num.mul. by rewrite (Z.mul_comm 7 n).
Qed.

(** The end of an occurrence is its start plus the duration that the loop
    is handed. *)
Lemma occurrenceEnd_taskDurationOf task s :
  newDate (num_add s (taskDurationOf DateParse task))
  = occurrenceEnd DateParse task s.
Proof. reflexivity. Qed.

Lemma instanceOf_occurrenceAt task s e :
  occurrenceEnd DateParse task (Some s) = Some e ->
  occurrenceAt DateParse task (Some s)
  = Some (instanceOf task (toISOString s) (toISOString e)).
Proof.
  intros He. unfold occurrenceAt. rewrite He. unfold instanceOf, virtualIdOf.
  do 2 f_equal. destruct (completedInstances task) as [arr|]; simpl.
  - by rewrite includes_elem_of, orb_false_r.
  - reflexivity.
Qed.

(** The loop, entered at the candidate [k] with [fuel] iterations left. *)
Lemma whileLoop_spec task r windowStart windowEnd fuel :
  frequency r <> NONE -> forall k,
  whileLoop LocalTZA task windowStart windowEnd (frequency r)
    (orElse (interval r) (Some 1)) (untilDateOf DateParse (until r))
    (taskDurationOf DateParse task) fuel
    (candidateStart DateParse LocalTZA task r k)
  = Some (omap (occurrenceAt DateParse task)
      (List.filter
         (fun s => overlapsWindow s (occurrenceEnd DateParse task s)
                     windowStart windowEnd)
         (takeWhile (fun s => negb (walkStops DateParse r windowEnd s))
            (map (candidateStart DateParse LocalTZA task r) (seq k fuel))))).
Proof.
  intros Hf. induction fuel as [|fuel IH]; intros k; [reflexivity|].
  cbn [whileLoop seq map takeWhile].
  set (s := candidateStart DateParse LocalTZA task r k).
  rewrite loopCondition_walkStops.
  destruct (negb (walkStops DateParse r windowEnd s)) eqn:Hgo; [|reflexivity].
  rewrite (advance_nextStart r s Hf).
  change (nextStart LocalTZA r s)
    with (candidateStart DateParse LocalTZA task r (S k)).
  rewrite IH. cbn [List.filter].
  rewrite occurrenceEnd_taskDurationOf.
  fold (overlapsWindow s (occurrenceEnd DateParse task s)
          windowStart windowEnd).
  destruct (overlapsWindow s (occurrenceEnd DateParse task s)
              windowStart windowEnd) eqn:Hov; [|reflexivity].
  unfold overlapsWindow in Hov. apply andb_true_iff in Hov as [Hlt Hgt].
  clearbody s.
  apply num_lt_true in Hlt as (s' & ? & -> & _ & _).
  apply num_gt_true in Hgt as (e' & ? & He & _ & _). rewrite He.
  cbn [omap list_omap]. rewrite (instanceOf_occurrenceAt _ _ _ He).
  reflexivity.
Qed.

Lemma expandTask_expandTaskSpec task windowStart windowEnd :
  expandTask DateParse LocalTZA task windowStart windowEnd
  = Some (expandTaskSpec DateParse LocalTZA task windowStart windowEnd).
Proof.
  unfold expandTask, expandTaskSpec, recurrenceRule, overlapsWindow.
  destruct (recurrence task) as [r|]; [|by case_match].
  destruct (isNONE (frequency r)) eqn:Hf; [by case_match|].
  assert (frequency r <> NONE) as Hf' by (by intros Hnone; rewrite Hnone in Hf).
  apply (whileLoop_spec task r windowStart windowEnd MAX_ITERATIONS Hf' 0%nat).
Qed.

Lemma generateRecurringTasks_expansionSpec tasks windowStart windowEnd :
  generateRecurringTasks DateParse LocalTZA tasks windowStart windowEnd
  = Some (expansionSpec DateParse LocalTZA tasks windowStart windowEnd).
Proof.
  induction tasks as [|task tasks IH]; [reflexivity|].
  cbn [generateRecurringTasks].
  rewrite expandTask_expandTaskSpec, IH. reflexivity.
Qed.

(** Every start the walk visits is a time value. *)
Lemma nextStart_valid r c t :
  nextStart LocalTZA r c = Some t -> Z.abs t <= Time.maxTime.
Proof.
  unfold nextStart. destruct c as [sk|]; [|discriminate].
  destruct (orElse (interval r) (Some 1)) as [n|]; [|discriminate].
  unfold instantAt.
  destruct (stepFields (frequency r) n (calendarFields LocalTZA sk))
    as [[[y m] d] ms].
  intros H. by apply TimeClip_Some in H as [-> H].
Qed.

Lemma candidateStart_valid task r k t :
  candidateStart DateParse LocalTZA task r k = Some t ->
  Z.abs t <= Time.maxTime.
Proof.
  destruct k as [|k]; cbn [candidateStart].
  - apply newDate_Some.
  - apply nextStart_valid.
Qed.

(** The end of an occurrence is its start plus the difference of the two
    instants of the series, rounded as a Number is. *)
Lemma occurrenceEnd_Some task s e :
  occurrenceEnd DateParse task (Some s) = Some e ->
  exists seriesStart seriesEnd,
    Date_ofString DateParse (start task) = Some seriesStart /\
    Date_ofString DateParse (end_ task) = Some seriesEnd /\
    e = s + Num.sub seriesEnd seriesStart /\
    Z.abs e <= Time.maxTime.
Proof.
  unfold occurrenceEnd.
  destruct (Date_ofString DateParse (end_ task)) as [seriesEnd|];
    [|discriminate].
  destruct (Date_ofString DateParse (start task)) as [seriesStart|];
    [|discriminate].
  cbn [num_sub num_add newDate]. unfold Num.add. rewrite NumFacts.TimeClip_fl.
  intros H. apply TimeClip_Some in H as [-> H]. eauto 6.
Qed.

(** Where an element of the expansion of one task comes from. *)
Lemma expandTaskSpec_inv task windowStart windowEnd o :
  In o (expandTaskSpec DateParse LocalTZA task windowStart windowEnd) ->
  (recurrenceRule task = None /\ o = task /\
   overlapsWindow (Date_ofString DateParse (start task))
     (Date_ofString DateParse (end_ task)) windowStart windowEnd = true) \/
  (exists r k s e,
     recurrenceRule task = Some r /\ (k < 1000)%nat /\
     candidateStart DateParse LocalTZA task r k = Some s /\
     occurrenceEnd DateParse task (Some s) = Some e /\
     overlapsWindow (Some s) (Some e) windowStart windowEnd = true /\
     o = instanceOf task (toISOString s) (toISOString e)).
Proof.
  intros Ho.
  unfold expandTaskSpec in Ho. destruct (recurrenceRule task) as [r|].
  - right. apply list_elem_of_In, list_elem_of_omap in Ho as (c & Hc & Hoc).
    apply list_elem_of_In, filter_In in Hc as [Hc Hov].
    apply In_takeWhile, in_map_iff in Hc as (k & <- & Hk).
    apply in_seq in Hk.
    unfold overlapsWindow in Hov. pose proof Hov as Hov'.
    apply andb_true_iff in Hov' as [Hlt Hgt].
    apply num_lt_true in Hlt as (s & ? & Hs & _ & _).
    apply num_gt_true in Hgt as (e & ? & He & _ & _).
    rewrite Hs in *.
    exists r, k, s, e. repeat split; try done; try lia.
    + by rewrite He in Hov.
    + rewrite (instanceOf_occurrenceAt _ _ _ He) in Hoc. congruence.
  - left. destruct (overlapsWindow _ _ _ _) eqn:Hov.
    + destruct Ho as [<-|[]]. auto.
    + destruct Ho.
Qed.

(** Where an element of the expansion comes from. *)
Lemma expansionSpec_inv tasks windowStart windowEnd o :
  o ∈ expansionSpec DateParse LocalTZA tasks windowStart windowEnd ->
  exists task, task ∈ tasks /\
    ((recurrenceRule task = None /\ o = task /\
      overlapsWindow (Date_ofString DateParse (start task))
        (Date_ofString DateParse (end_ task)) windowStart windowEnd = true) \/
     (exists r k s e,
        recurrenceRule task = Some r /\ (k < 1000)%nat /\
        candidateStart DateParse LocalTZA task r k = Some s /\
        occurrenceEnd DateParse task (Some s) = Some e /\
        overlapsWindow (Some s) (Some e) windowStart windowEnd = true /\
        o = instanceOf task (toISOString s) (toISOString e))).
Proof.
  unfold expansionSpec. rewrite list_elem_of_In, in_flat_map.
  intros (task & Htask & Ho). exists task.
  split; [by apply list_elem_of_In|]. by apply expandTaskSpec_inv.
Qed.

(** What one task adds to the expansion decodes to its identifier, when
    the codec can carry that. *)
Lemma seriesOf_emitted task windowStart windowEnd o :
  codecSafe (id task) ->
  o ∈ expandTaskSpec DateParse LocalTZA task windowStart windowEnd ->
  seriesOf o = id task.
Proof.
  intros Hsafe Ho. apply list_elem_of_In, expandTaskSpec_inv in Ho.
  unfold seriesOf.
  destruct Ho as [(_ & -> & _)|(r & k & s & e & _ & _ & _ & _ & _ & ->)].
  - by rewrite parseVirtualId_plain.
  - cbn [instanceOf id]. by rewrite parseVirtualId_virtualIdOf.
Qed.

(** The expansion of a list of one task. *)
Lemma generateRecurringTasks_one task windowStart windowEnd :
  generateRecurringTasks DateParse LocalTZA [task] windowStart windowEnd
  = Some (expandTaskSpec DateParse LocalTZA task windowStart windowEnd).
Proof.
  cbn [generateRecurringTasks]. rewrite expandTask_expandTaskSpec.
  cbn [mbind option_bind]. by rewrite app_nil_r.
Qed.


Lemma length_omap_le {A B : Type} (f : A -> option B) (l : list A) :
  (length (omap f l) <= length l)%nat.
Proof.
  induction l as [|x l IH]; [done|]. cbn [omap list_omap length].
  destruct (f x); cbn [length]; lia.
Qed.

(** One series gives 1000 occurrences at most. *)
Lemma expandTaskSpec_bounded task r windowStart windowEnd :
  recurrenceRule task = Some r ->
  (length (expandTaskSpec DateParse LocalTZA task windowStart windowEnd)
   <= 1000)%nat.
Proof.
  intros Hrule. unfold expandTaskSpec. rewrite Hrule.
  etrans; [apply length_omap_le|].
  etrans; [apply filter_length_le|].
  etrans; [apply length_takeWhile|].
  by rewrite length_map, length_seq.
Qed.

End ExpansionFacts.

(** ** The spans of the occurrences emitted *)

Section SpanFacts.

Variable DateParse : string -> number.
Variable LocalTZA : Z -> bool -> Z.

(** What ECMAScript asks of every host: [Date.parse] reads back what
    [toISOString] writes. *)
Hypothesis DateParse_toISOString :
  forall t, Z.abs t <= Time.maxTime -> DateParse (toISOString t) = Some t.

Lemma Date_ofString_toISOString t :
  Z.abs t <= Time.maxTime -> Date_ofString DateParse (toISOString t) = Some t.
Proof.
  intros H. unfold Date_ofString. rewrite DateParse_toISOString by done.
  by apply TimeClip_valid.
Qed.

(** An occurrence emitted for a recurring series: its identifier and its
    start come from one instant, its two instants meet the window by the
    half-open rule, and the exact difference of its end and its start is
    the difference of the end and the start of the series as a Number. *)
Lemma occurrence_span task windowStart windowEnd o :
  recurrenceRule task <> None ->
  o ∈ expandTaskSpec DateParse LocalTZA task windowStart windowEnd ->
  exists s e seriesStart seriesEnd,
    id o = virtualIdOf (id task) (toISOString s) /\
    start o = toISOString s /\
    Date_ofString DateParse (start o) = Some s /\
    Date_ofString DateParse (end_ o) = Some e /\
    Date_ofString DateParse (start task) = Some seriesStart /\
    Date_ofString DateParse (end_ task) = Some seriesEnd /\
    num_lt (Some s) windowEnd = true /\ num_gt (Some e) windowStart = true /\
    e - s = Num.sub seriesEnd seriesStart.
Proof.
  intros Hrec Ho. apply list_elem_of_In, expandTaskSpec_inv in Ho as [H|H];
    [by destruct H|].
  destruct H as (r & k & s & e & Hrule & Hk & Hs & He & Hov & ->).
  apply candidateStart_valid in Hs.
  apply occurrenceEnd_Some in He
    as (seriesStart & seriesEnd & Hstart & Hend & -> & He).
  unfold overlapsWindow in Hov. apply andb_true_iff in Hov as [Hlt Hgt].
  exists s, (s + Num.sub seriesEnd seriesStart), seriesStart, seriesEnd.
  cbn [instanceOf id start end_].
  rewrite !Date_ofString_toISOString by done.
  split_and!; try done. lia.
Qed.

(** Every element of the expansion has its two instants, and they meet
    the window by the half-open rule. *)
Lemma emitted_span tasks windowStart windowEnd o :
  o ∈ expansionSpec DateParse LocalTZA tasks windowStart windowEnd ->
  exists s e,
    Date_ofString DateParse (start o) = Some s /\
    Date_ofString DateParse (end_ o) = Some e /\
    num_lt (Some s) windowEnd = true /\ num_gt (Some e) windowStart = true.
Proof.
  intros Ho. apply expansionSpec_inv in Ho as (task & Htask & [H|H]).
  - destruct H as (Hrule & -> & Hov). unfold overlapsWindow in Hov.
    apply andb_true_iff in Hov as [Hlt Hgt].
    pose proof Hlt as Hlt'. pose proof Hgt as Hgt'.
    apply num_lt_true in Hlt' as (s & ? & Hs & _ & _).
    apply num_gt_true in Hgt' as (e & ? & He & _ & _).
    exists s, e. rewrite <- Hs, <- He. repeat split; done.
  - destruct H as (r & k & s & e & Hrule & Hk & Hs & He & Hov & ->).
    apply candidateStart_valid in Hs.
    apply occurrenceEnd_Some in He as (? & ? & _ & _ & _ & He).
    unfold overlapsWindow in Hov. apply andb_true_iff in Hov as [Hlt Hgt].
    exists s, e. cbn [instanceOf start end_].
    rewrite !Date_ofString_toISOString by done. repeat split; done.
Qed.

End SpanFacts.

(** ** Conflicts *)

Lemma checkConflict_true_iff DateParse (pool : list Task) (target : Task) :
  checkConflict DateParse pool target = true <->
  exists t, t ∈ pool /\
    seriesOf t <> seriesOf target /\
    completed target = false /\ completed t = false /\
    exists s1 e1 s2 e2,
      Date_ofString DateParse (start target) = Some s1 /\
      Date_ofString DateParse (end_ target) = Some e1 /\
      Date_ofString DateParse (start t) = Some s2 /\
      Date_ofString DateParse (end_ t) = Some e2 /\
      s1 < e2 /\ e1 > s2.
Proof.
  unfold checkConflict. rewrite existsb_exists. fold (seriesOf target).
  split.
  - intros (t & Hin & Ht). exists t. fold (seriesOf t) in Ht.
    split; [by apply list_elem_of_In|].
    destruct (String.eqb_spec (seriesOf target) (seriesOf t)) as [|Hne];
      [discriminate|].
    destruct (completed t); [discriminate|].
    destruct (completed target); [discriminate|]. cbn [orb] in Ht.
    apply andb_true_iff in Ht as [H1 H2].
    apply num_lt_true in H1 as (s1 & e2 & Hs1 & He2 & H1).
    apply num_gt_true in H2 as (e1 & s2 & He1 & Hs2 & H2).
    split; [congruence|]. do 2 (split; [reflexivity|]).
    exists s1, e1, s2, e2. auto 10.
  - intros (t & Hin & Hne & Hc1 & Hc2 & s1 & e1 & s2 & e2
            & Hs1 & He1 & Hs2 & He2 & H1 & H2).
    exists t. split; [by apply list_elem_of_In|]. fold (seriesOf t).
    destruct (String.eqb_spec (seriesOf target) (seriesOf t)); [congruence|].
    rewrite Hc1, Hc2. cbn [orb]. apply andb_true_iff. split.
    + apply num_lt_true. eauto 6.
    + apply num_gt_true. eauto 6.
Qed.

Lemma toISOString_nonempty t : toISOString t <> EmptyString.
Proof. unfold toISOString. by destruct (isoYear (Time.YearFromTime t)). Qed.

(** ** Toggling completion *)

Lemma truthy_Some d : d <> EmptyString -> truthy (Some d) = true.
Proof. intros H. simpl. by destruct (String.eqb_spec d EmptyString). Qed.

Lemma elem_of_filter_neq (arr : list string) d d' :
  d' ∈ List.filter (fun x => negb (String.eqb x d)) arr <-> d' ∈ arr /\ d' <> d.
Proof.
  rewrite !list_elem_of_In, filter_In.
  destruct (String.eqb_spec d' d); simpl; intuition congruence.
Qed.

(** The array after a toggle of [d]: [d] changes sides, every other
    instant stays where it was. *)
Lemma toggled_instances (arr : list string) (d : string) :
  let arr' := if includes arr d
              then List.filter (fun x => negb (String.eqb x d)) arr
              else arr ++ [d] in
  (forall d', d' <> d -> (d' ∈ arr' <-> d' ∈ arr)) /\ (d ∈ arr' <-> d ∉ arr).
Proof.
  rewrite includes_elem_of. destruct (decide (d ∈ arr)) as [Hin|Hin].
  - rewrite bool_decide_eq_true_2 by done. cbv zeta. split.
    + intros d' Hd'. pose proof (elem_of_filter_neq arr d d'). tauto.
    + pose proof (elem_of_filter_neq arr d d). tauto.
  - rewrite bool_decide_eq_false_2 by done. cbv zeta. split.
    + intros d' Hd'. rewrite elem_of_app, list_elem_of_singleton. tauto.
    + rewrite elem_of_app, list_elem_of_singleton. tauto.
Qed.

Lemma toggleOne_instance v t d :
  instanceDate v = Some d -> d <> EmptyString -> id t = originalId v ->
  sameButInstances (toggleOne v t) t /\
  (forall d', d' <> d ->
     (d' ∈ instancesOf (toggleOne v t) <-> d' ∈ instancesOf t)) /\
  (d ∈ instancesOf (toggleOne v t) <-> d ∉ instancesOf t).
Proof.
  intros Hd Hne Hid. unfold toggleOne.
  rewrite Hid, String.eqb_refl, Hd, truthy_Some by done. cbn [negb orElse].
  fold (instancesOf t).
  split; [by repeat split|]. apply (toggled_instances (instancesOf t) d).
Qed.

Lemma toggleOne_other v t : id t <> originalId v -> toggleOne v t = t.
Proof.
  intros H. unfold toggleOne.
  by destruct (String.eqb_spec (id t) (originalId v)).
Qed.

Lemma toggleOne_plain v t :
  truthy (instanceDate v) = false -> id t = originalId v ->
  toggleOne v t = setCompleted t (negb (completed t)).
Proof.
  intros Htr Hid. unfold toggleOne. by rewrite Hid, String.eqb_refl, Htr.
Qed.

Lemma id_toggleOne v t : id (toggleOne v t) = id t.
Proof. unfold toggleOne. by repeat case_match. Qed.

Lemma toggleOne_twice v t : sameTask (toggleOne v (toggleOne v t)) t.
Proof.
  destruct (decide (id t = originalId v)) as [Hid|Hid];
    [|by rewrite !toggleOne_other by (rewrite ?id_toggleOne; done)].
  destruct (truthy (instanceDate v)) eqn:Htr.
  - destruct (instanceDate v) as [d|] eqn:Hd; [|discriminate].
    assert (Hne : d <> EmptyString).
    { intros ->. discriminate Htr. }
    destruct (toggleOne_instance v t d Hd Hne Hid) as (Hs1 & Ho1 & Hd1).
    destruct (toggleOne_instance v (toggleOne v t) d Hd Hne)
      as (Hs2 & Ho2 & Hd2); [by rewrite id_toggleOne|].
    split.
    + unfold sameButInstances in *. intuition congruence.
    + unfold instanceSet. apply set_eq. intros d'.
      rewrite !elem_of_list_to_set.
      destruct (decide (d' = d)) as [->|Hd'].
      * rewrite Hd2, Hd1. destruct (decide (d ∈ instancesOf t)); tauto.
      * by rewrite Ho2, Ho1.
  - rewrite (toggleOne_plain v (toggleOne v t)), (toggleOne_plain v t)
      by (rewrite ?id_toggleOne; done).
    unfold sameTask, sameButInstances, instanceSet, instancesOf.
    cbn [setCompleted id title description start end_ priority reminderMinutes
         completed recurrence completedInstances].
    rewrite negb_involutive. by repeat split.
Qed.

(** The frame of a toggle at a composite id. *)
Lemma handleToggleComplete_frame (task : Task) (prev : list Task)
    (series d : string) :
  parseVirtualId (id task)
    = {| originalId := series; instanceDate := Some d |} ->
  d <> EmptyString ->
  length (handleToggleComplete task prev) = length prev /\
  forall (i : nat) (t : Task), prev !! i = Some t ->
    exists t', handleToggleComplete task prev !! i = Some t' /\
      (id t <> series -> t' = t) /\
      (id t = series ->
         sameButInstances t' t /\
         (forall d', d' <> d -> (d' ∈ instancesOf t' <-> d' ∈ instancesOf t)) /\
         (d ∈ instancesOf t' <-> d ∉ instancesOf t)).
Proof.
  intros Hv Hd. unfold handleToggleComplete. rewrite Hv.
  split; [apply length_map|]. intros i t Hi.
  exists (toggleOne {| originalId := series; instanceDate := Some d |} t).
  split; [by rewrite list_lookup_fmap, Hi|]. split.
  - intros Hne. by apply toggleOne_other.
  - intros Hid. by apply toggleOne_instance.
Qed.

(** The same for the id that the expansion gives the occurrence at [t] of
    the series [series]. *)
Lemma handleToggleComplete_occurrence (task : Task) (prev : list Task)
    (series : string) (t : Z) :
  id task = virtualIdOf series (toISOString t) ->
  findSeparator (series +:+ ":") = None ->
  forall (i : nat) (x : Task), prev !! i = Some x ->
    exists x', handleToggleComplete task prev !! i = Some x' /\
      (id x <> series -> x' = x) /\
      (id x = series ->
         sameButInstances x' x /\
         (toISOString t ∈ instancesOf x' <-> toISOString t ∉ instancesOf x)).
Proof.
  intros Hid Hseries i x Hi.
  destruct (handleToggleComplete_frame task prev series (toISOString t))
    as [_ H].
  - rewrite Hid. unfold virtualIdOf.
    apply parseVirtualId_one_separator;
      [by apply findSeparator_app_colon | apply findSeparator_toISOString].
  - apply toISOString_nonempty.
  - destruct (H i x Hi) as (x' & Hx' & Hne & Heq). exists x'.
    split_and!; [done..|]. intros Hx. by destruct (Heq Hx) as (? & _ & ?).
Qed.

(** ** The batch import *)

Lemma formatTasks_imap randomUUID newTasks : forall calls,
  formatTasks randomUUID calls newTasks
  = ((calls + length newTasks)%nat,
     imap (fun i t => formatTask (randomUUID (calls + i)%nat) t) newTasks).
Proof.
  induction newTasks as [|t rest IH]; intros calls.
  - cbn. by rewrite Nat.add_0_r.
  - cbn [formatTasks]. rewrite IH. cbn [length imap].
    rewrite Nat.add_0_r. f_equal; [lia|]. f_equal.
    apply imap_ext. intros i x _. cbn. do 2 f_equal. lia.
Qed.

(** The form never saves a Number below 1 as the interval: it saves the
    larger of 1 and the Number of the field, and [NaN] when the field
    holds no Number. *)
Lemma submittedRecurrence_interval DateParse freq x text r :
  submittedRecurrence DateParse freq x text = Some (Some r) ->
  interval r = Some (Math_max1 x) /\
  match x with
  | Some (Some n) => Math_max1 x = Some (Z.max 1 n)
  | Some None | None => Math_max1 x = None
  end.
Proof.
  unfold submittedRecurrence. destruct (isNONE freq); [discriminate|].
  destruct (if truthy (Some text) then _ else _) as [untilIso|];
    [|discriminate].
  cbn [mbind option_bind]. intros [= <-].
  cbn [interval]. split; [reflexivity|]. by destruct x as [[n|]|].
Qed.

(** ** The reminder scanner *)

Lemma elem_of_notified (fired : list Task) : forall (notified : gset string) x,
  x ∈ foldl (fun prev task => prev ∪ {[ id task ]}) notified fired <->
  x ∈ notified \/ x ∈ map id fired.
Proof.
  induction fired as [|t fired IH]; intros notified x; cbn [foldl map].
  - rewrite elem_of_nil. tauto.
  - rewrite IH, elem_of_union, elem_of_singleton, elem_of_cons. tauto.
Qed.

(** Keeping some of a list of tasks keeps their ids distinct. *)
Lemma NoDup_ids_filter (keep : Task -> bool) (tasks : list Task) :
  NoDup (id <$> tasks) -> NoDup (id <$> List.filter keep tasks).
Proof.
  induction tasks as [|x l IH]; [done|]. cbn [fmap list_fmap List.filter].
  rewrite NoDup_cons. intros [Hx Hl]. destruct (keep x); [|auto].
  cbn [fmap list_fmap]. apply NoDup_cons. split; [|auto].
  intros Hin. apply Hx. apply list_elem_of_In, in_map_iff in Hin
    as (y & Hy & Hin). apply filter_In in Hin as [Hin _].
  apply list_elem_of_In, in_map_iff. eauto.
Qed.

(** Keeping a first part of a list of tasks keeps their ids distinct. *)
Lemma NoDup_ids_take (n : nat) (tasks : list Task) :
  NoDup (id <$> tasks) -> NoDup (id <$> take n tasks).
Proof.
  intros Hnd. eapply sublist_NoDup; [exact Hnd|].
  apply fmap_sublist, sublist_take.
Qed.

Section ReminderFacts.

Variable DateParse : string -> number.
Variable LocalTZA : Z -> bool -> Z.
Variable Notification : option NotificationAPI.

(** The [forEach] of a tick in closed form: where the notification
    returns, every task that passes the tests is fired; where it throws,
    the first one is, and the exception ends the tick. *)
Lemma forEachReminder_filter notified now expanded :
  forEachReminder DateParse Notification notified now expanded
  = let due :=
      List.filter (fun task =>
        negb (completed task || bool_decide (id task ∈ notified)) &&
        reminderDue DateParse now task) expanded in
    if nativeNotification Notification then (due, false)
    else (take 1 due, match due with [] => false | _ :: _ => true end).
Proof.
  cbv zeta. induction expanded as [|task rest IH]; cbn [forEachReminder].
  - by destruct (nativeNotification Notification).
  - cbn [List.filter].
    destruct (completed task || bool_decide (id task ∈ notified));
      cbn [negb andb]; [exact IH|].
    destruct (reminderDue DateParse now task); [|exact IH].
    rewrite IH. by destruct (nativeNotification Notification).
Qed.

(** What a tick fires, from the expansion of its day. *)
Lemma checkReminders_Some tasks notified now tick :
  checkReminders DateParse LocalTZA Notification tasks notified now
    = Some tick ->
  exists expanded,
    generateRecurringTasks DateParse LocalTZA tasks
      (setHours LocalTZA now 0 0 0 0) (setHours LocalTZA now 23 59 59 999)
      = Some expanded /\
    (let due :=
       List.filter (fun task =>
         negb (completed task || bool_decide (id task ∈ notified)) &&
         reminderDue DateParse now task) expanded in
     reminders tick
       = (if nativeNotification Notification then due else take 1 due) /\
     thrown tick
       = negb (nativeNotification Notification) &&
         match due with [] => false | _ :: _ => true end) /\
    notifiedAfter tick
      = foldl (fun prev task => prev ∪ {[ id task ]}) notified (reminders tick).
Proof.
  unfold checkReminders.
  destruct (generateRecurringTasks _ _ _ _ _) as [expanded|]; [|discriminate].
  cbn [mbind option_bind]. rewrite forEachReminder_filter. cbv zeta.
  destruct (nativeNotification Notification); intros [= <-]; eauto.
Qed.

(** What a tick fires is among the tasks of the day that pass the
    tests. *)
Lemma reminders_due tasks notified now tick :
  checkReminders DateParse LocalTZA Notification tasks notified now
    = Some tick ->
  exists expanded,
    generateRecurringTasks DateParse LocalTZA tasks
      (setHours LocalTZA now 0 0 0 0) (setHours LocalTZA now 23 59 59 999)
      = Some expanded /\
    reminders tick `sublist_of`
      List.filter (fun task =>
        negb (completed task || bool_decide (id task ∈ notified)) &&
        reminderDue DateParse now task) expanded.
Proof.
  intros (expanded & Hexp & [Hrem _] & _)%checkReminders_Some.
  exists expanded. split; [done|]. rewrite Hrem.
  destruct (nativeNotification Notification); [done | apply sublist_take].
Qed.

(** The expansion of no tick throws. *)
Lemma checkReminders_total tasks notified now :
  exists tick,
    checkReminders DateParse LocalTZA Notification tasks notified now
      = Some tick.
Proof.
  unfold checkReminders. rewrite generateRecurringTasks_expansionSpec.
  cbn [mbind option_bind]. destruct (forEachReminder _ _ _ _ _). eauto.
Qed.

(** The conditions under which a reminder is fired, and its mark. *)
Lemma checkReminders_fired tasks notified now tick o :
  checkReminders DateParse LocalTZA Notification tasks notified now
    = Some tick ->
  o ∈ reminders tick ->
  completed o = false /\ (id o ∉ notified) /\
  (exists startTime,
     Date_ofString DateParse (start o) = Some startTime /\
     now >= Num.sub startTime (Num.mul (Num.mul (reminderMinutes o) 60) 1000) /\
     now < Num.add startTime 60000) /\
  id o ∈ notifiedAfter tick.
Proof.
  intros Htick Ho.
  pose proof Htick as (expanded & _ & _ & Hafter)%checkReminders_Some.
  apply reminders_due in Htick as (expanded' & _ & Hsub).
  pose proof (elem_of_sublist _ _ _ Ho Hsub) as Hdue.
  apply list_elem_of_In, filter_In in Hdue as [_ Hdue].
  apply andb_true_iff in Hdue as [Hnot Hdue]. apply negb_true_iff in Hnot.
  apply orb_false_iff in Hnot as [Hc Hn].
  split_and!.
  - done.
  - by apply bool_decide_eq_false in Hn.
  - unfold reminderDue in Hdue.
    apply andb_true_iff in Hdue as [Hge Hlt].
    apply num_lt_true in Hlt as (n & hi & [= <-] & Hhi & Hlt).
    apply num_ge_true in Hge as (n & lo & [= <-] & Hlo & Hge).
    destruct (Date_ofString DateParse (start o)) as [startTime|];
      [|discriminate]. cbn in Hhi, Hlo.
    injection Hhi as <-. injection Hlo as <-. eauto.
  - rewrite Hafter, elem_of_notified. right.
    apply list_elem_of_In, in_map. by apply list_elem_of_In.
Qed.

(** Over a run in which no expansion lists an identifier twice, no
    identifier is reminded of twice, and none that was notified before. *)
Lemma scanner_NoDup ticks : forall notified events,
  Forall (fun tick : list Task * Z =>
    forall expanded,
      generateRecurringTasks DateParse LocalTZA tick.1
        (setHours LocalTZA tick.2 0 0 0 0)
        (setHours LocalTZA tick.2 23 59 59 999) = Some expanded ->
      NoDup (map id expanded)) ticks ->
  scanner DateParse LocalTZA Notification ticks notified = Some events ->
  NoDup (map id events) /\ forall o, o ∈ events -> id o ∉ notified.
Proof.
  induction ticks as [|[tasks now] later IH]; intros notified events Hdistinct.
  - intros [= <-]. split; [constructor | intros o Ho; by apply elem_of_nil in Ho].
  - apply Forall_cons in Hdistinct as [Hhere Hlater]. cbn [scanner].
    destruct (checkReminders DateParse LocalTZA Notification tasks notified now)
      as [tick|] eqn:Htick; [|discriminate]. cbn [mbind option_bind].
    destruct (scanner DateParse LocalTZA Notification later (notifiedAfter tick))
      as [rest|] eqn:Hrest; [|discriminate]. cbn [mbind option_bind].
    intros [= <-]. destruct (IH _ _ Hlater Hrest) as [Hnd Hnew].
    pose proof (fun o => checkReminders_fired _ _ _ _ o Htick) as Hfired.
    apply checkReminders_Some in Htick
      as (expanded & Hexp & [Hrem _] & Hafter).
    split.
    + rewrite map_app. apply NoDup_app. split_and!; [| |done].
      * rewrite Hrem. specialize (Hhere _ Hexp).
        destruct (nativeNotification Notification);
          [|apply NoDup_ids_take]; by apply NoDup_ids_filter.
      * intros x Hx Hx'.
        apply list_elem_of_In, in_map_iff in Hx' as (o' & <- & Ho').
        apply (Hnew o'); [by apply list_elem_of_In|].
        rewrite Hafter, elem_of_notified. by right.
    + intros o Ho. apply elem_of_app in Ho as [Ho|Ho].
      * by apply Hfired.
      * intros Hin. apply (Hnew o Ho).
        rewrite Hafter, elem_of_notified. by left.
Qed.

End ReminderFacts.

(** ** The steps in a host whose local time is UTC *)

Lemma setDate_UTC t dt :
  setDate LocalTZA_UTC t dt
  = Time.TimeClip (t + (dt - Time.DateFromTime t) * Time.msPerDay).
Proof.
  unfold setDate, LocalTime, UTC, LocalTZA_UTC. rewrite Z.add_0_r, Z.sub_0_r.
  f_equal.
  replace dt with (Time.DateFromTime t + (dt - Time.DateFromTime t)) at 1 by lia.
  rewrite TimeFacts.MakeDay_shift, TimeFacts.MakeDay_fields.
  unfold Time.MakeDate, Time.Day, Time.TimeWithinDay.
  TimeFacts.zify_div. lia.
Qed.

(** A daily step moves the start by [interval] days, forwards, not at all
    when the interval is 0, backwards when it is negative. *)
Lemma advance_daily_UTC t n :
  Z.abs n <= 2 ^ 52 ->
  advance LocalTZA_UTC DAILY (Some n) (Some t)
  = Time.TimeClip (t + n * Time.msPerDay).
Proof.
  intros Hn. cbn [advance num_add mbind option_bind]. rewrite setDate_UTC.
  unfold getDate, LocalTime, LocalTZA_UTC, Num.add. rewrite Z.add_0_r.
  pose proof (TimeFacts.DateFromTime_range t).
  rewrite NumFacts.fl_small by lia. do 2 f_equal. lia.
Qed.

Lemma advance_daily_zero t :
  Z.abs t <= Time.maxTime ->
  advance LocalTZA_UTC DAILY (Some 0) (Some t) = Some t.
Proof.
  intros Ht. rewrite advance_daily_UTC by (simpl; lia).
  rewrite Z.mul_0_l, Z.add_0_r. by apply TimeClip_valid.
Qed.

(** ** The examples of the specification, in the UTC host *)

Example daily_until :
  (fun o => (id o, completed o)) <$>
    default [] (generateRecurringTasks DateParseISO LocalTZA_UTC [untilJan3]
                  (Some (day 0)) (Some (day 5)))
  = [("u::2024-01-01T09:00:00.000Z", false);
     ("u::2024-01-02T09:00:00.000Z", true);
     ("u::2024-01-03T09:00:00.000Z", false)].
Proof. vm_compute. reflexivity. Qed.

Example nonrecurring_overlap :
  let task := span "t" "2024-01-01T10:00:00.000Z" "2024-01-01T11:00:00.000Z" false in
  generateRecurringTasks DateParseISO LocalTZA_UTC [task]
    (Some (jan1 + hours 9)) (Some (jan1 + hours 10 + 30 * Time.msPerMinute))
  = Some [task] /\
  generateRecurringTasks DateParseISO LocalTZA_UTC [task]
    (Some (jan1 + hours 11)) (Some (jan1 + hours 12))
  = Some [].
Proof. split; vm_compute; reflexivity. Qed.

Example monthly_from_jan31 :
  start <$>
    default [] (generateRecurringTasks DateParseISO LocalTZA_UTC
      [{| id := "m31"; title := ""; description := "";
          start := "2023-01-31T09:00:00.000Z"; end_ := "2023-01-31T10:00:00.000Z";
          priority := LOW; reminderMinutes := 15; completed := false;
          recurrence := Some {| frequency := MONTHLY; interval := Some (Some 1);
                                until := None |};
          completedInstances := None |}]
      (DateParseISO "2023-01-01T00:00:00.000Z")
      (DateParseISO "2023-05-01T00:00:00.000Z"))
  = ["2023-01-31T09:00:00.000Z"; "2023-03-03T09:00:00.000Z";
     "2023-04-03T09:00:00.000Z"].
Proof. vm_compute. reflexivity. Qed.

Example conflicts :
  let a := span "a" "2024-01-01T10:00:00.000Z" "2024-01-01T11:00:00.000Z" false in
  let b := span "b" "2024-01-01T10:30:00.000Z" "2024-01-01T11:30:00.000Z" false in
  let c := span "c" "2024-01-01T11:00:00.000Z" "2024-01-01T12:00:00.000Z" false in
  let b' := span "b" "2024-01-01T10:30:00.000Z" "2024-01-01T11:30:00.000Z" true in
  let a1 := span "a::2024-01-01T10:30:00.000Z"
              "2024-01-01T10:30:00.000Z" "2024-01-01T11:30:00.000Z" false in
  checkConflict DateParseISO [a; b] a = true /\
  checkConflict DateParseISO [a; c] a = false /\
  checkConflict DateParseISO [a; b'] a = false /\
  checkConflict DateParseISO [a; a1] a = false.
Proof. repeat split. Qed.

Example yearly_cap :
  length <$> generateRecurringTasks DateParseISO LocalTZA_UTC
    [{| id := "y"; title := ""; description := "";
        start := "2024-01-01T09:00:00.000Z"; end_ := "2024-01-01T10:00:00.000Z";
        priority := LOW; reminderMinutes := 15; completed := false;
        recurrence := Some {| frequency := YEARLY; interval := Some (Some 1);
                              until := None |};
        completedInstances := None |}]
    (Some jan1) (DateParseISO "+012024-01-01T00:00:00.000Z")
  = Some 1000%nat.
Proof. vm_compute. reflexivity. Qed.

(** * The claims *)

(** C1.  For every task list and every window, [generateRecurringTasks]
    returns, without throwing, the expansion that [expansionSpec] spells
    out: a non-recurring task is included iff [task.start < windowEnd] and
    [task.end > windowStart]; for a recurring task the candidate starts
    [s0 = task.start], [s(k+1) = step(sk)] are walked, the step adding the
    interval to the day of the month (Daily), seven times the interval to
    it (Weekly), the interval to the month (Monthly) or to the year
    (Yearly) of the local calendar fields of [sk] ([nextStart]), until one
    of them is [>= windowEnd], or [until] is set and it is [> until], or
    1000 have been visited; and exactly the visited occurrences that
    overlap the window are emitted, in the order visited, the span of
    each from its start to [start + (series.end - series.start)]
    ([occurrenceEnd]), each with [id = seriesId + "::" + ISO(start)] and
    [completed] the membership of [ISO(start)] in [completedInstances]. *)
Theorem C1_expansion (DateParse : string -> number) (LocalTZA : Z -> bool -> Z)
    (tasks : list Task) (windowStart windowEnd : number) :
  generateRecurringTasks DateParse LocalTZA tasks windowStart windowEnd
  = Some (expansionSpec DateParse LocalTZA tasks windowStart windowEnd).
Proof. apply generateRecurringTasks_expansionSpec. Qed.

(** C2, as the specification states it, fails: the series whose
    identifier holds the separator has occurrences of 25 hours, the first
    two overlap, and each is reported in conflict with the other, because
    an identifier with two separators decodes to itself. *)
Lemma C2_counterexample :
  generateRecurringTasks DateParseISO LocalTZA_UTC [longShift]
    (Some (day 0)) (Some (day 2)) = Some [firstShift; secondShift] /\
  seriesOf firstShift <> seriesOf secondShift /\
  checkConflict DateParseISO [firstShift; secondShift] firstShift = true /\
  checkConflict DateParseISO [firstShift; secondShift] secondShift = true.
Proof. split_and!; [vm_compute; reflexivity | discriminate | done..]. Qed.

(** C2, amended.  [checkConflict] answers true iff some member of the
    pool decodes to another series id than the target, neither of the two
    is completed, and their spans overlap strictly: [target.start < t.end]
    and [target.end > t.start].  What the expansion emits for one series
    whose identifier holds no separator and does not end in a colon
    decodes to that identifier, so that the occurrences of such a series
    never conflict with one another. *)
Theorem C2_checkConflict (DateParse : string -> number)
    (LocalTZA : Z -> bool -> Z) :
  (forall (target : Task) (pool : list Task),
     checkConflict DateParse pool target = true <->
     exists t, t ∈ pool /\
       seriesOf t <> seriesOf target /\
       completed target = false /\ completed t = false /\
       exists s1 e1 s2 e2,
         Date_ofString DateParse (start target) = Some s1 /\
         Date_ofString DateParse (end_ target) = Some e1 /\
         Date_ofString DateParse (start t) = Some s2 /\
         Date_ofString DateParse (end_ t) = Some e2 /\
         s1 < e2 /\ e1 > s2) /\
  (forall (series : Task) (windowStart windowEnd : number)
          (emitted pool : list Task) (target : Task),
     codecSafe (id series) ->
     generateRecurringTasks DateParse LocalTZA [series] windowStart windowEnd
       = Some emitted ->
     target ∈ emitted ->
     (forall t, t ∈ pool -> t ∈ emitted) ->
     seriesOf target = id series /\
     checkConflict DateParse pool target = false).
Proof.
  split; [intros target pool; apply checkConflict_true_iff|].
  intros series windowStart windowEnd emitted pool target Hsafe Hexp Htarget
    Hpool.
  rewrite generateRecurringTasks_one in Hexp. injection Hexp as <-.
  pose proof (seriesOf_emitted _ _ _ _ _ _ Hsafe Htarget) as Hseries.
  split; [done|]. apply not_true_is_false. intros H.
  apply checkConflict_true_iff in H as (t & Hin & Hne & _).
  apply Hne. rewrite Hseries. eapply seriesOf_emitted; eauto.
Qed.

(** Spans that only touch do not conflict. *)
Lemma checkConflict_touching DateParse (target t : Task) (s1 e1 s2 e2 : Z) :
  Date_ofString DateParse (start target) = Some s1 ->
  Date_ofString DateParse (end_ target) = Some e1 ->
  Date_ofString DateParse (start t) = Some s2 ->
  Date_ofString DateParse (end_ t) = Some e2 ->
  e1 = s2 \/ e2 = s1 ->
  checkConflict DateParse [t] target = false.
Proof.
  intros Hs1 He1 Hs2 He2 Htouch. apply not_true_is_false. intros H.
  apply checkConflict_true_iff in H
    as (t' & Hin & _ & _ & _ & s1' & e1' & s2' & e2' & H1 & H2 & H3 & H4 & Hlt).
  apply list_elem_of_singleton in Hin as ->.
  assert (s1' = s1 /\ e1' = e1 /\ s2' = s2 /\ e2' = e2) by
    (repeat split; congruence).
  lia.
Qed.

(** C3, as the specification states it, fails twice: a text with two
    separators is not split at the first one but kept whole, and an
    identifier that ends in a colon, which does not contain the separator,
    does not come back from its encoding. *)
Lemma C3_counterexample :
  parseVirtualId "a::b::c"
    = {| originalId := "a::b::c"; instanceDate := None |} /\
  decodeAtFirstSeparator "a::b::c"
    = {| originalId := "a"; instanceDate := Some "b::c" |} /\
  findSeparator "a:" = None /\
  parseVirtualId (virtualIdOf "a:" (toISOString 0))
    = {| originalId := "a"; instanceDate := Some ":1970-01-01T00:00:00.000Z" |}.
Proof. repeat split. Qed.

(** C3, amended.  An occurrence is encoded as the series id, the separator
    and the ISO timestamp of its start.  [parseVirtualId] never fails; it
    returns the whole input as the series id, with no instant, when the
    input holds no separator and also when it holds more than one; when
    it holds exactly one it returns the text before it and the text after
    it.  Decoding the encoding of [(id, t)] gives back [id] and the
    timestamp of [t] for every [id] that holds no separator and does not
    end in a colon. *)
Theorem C3_codec :
  (forall taskId startIso,
     virtualIdOf taskId startIso = taskId +:+ "::" +:+ startIso) /\
  (forall s, findSeparator s = None ->
     parseVirtualId s = {| originalId := s; instanceDate := None |}) /\
  (forall s before after,
     findSeparator s = Some (before, after) -> findSeparator after = None ->
     parseVirtualId s
       = {| originalId := before; instanceDate := Some after |}) /\
  (forall s before after,
     findSeparator s = Some (before, after) -> findSeparator after <> None ->
     parseVirtualId s = {| originalId := s; instanceDate := None |}) /\
  (forall taskId t,
     findSeparator (taskId +:+ ":") = None ->
     parseVirtualId (virtualIdOf taskId (toISOString t))
       = {| originalId := taskId; instanceDate := Some (toISOString t) |}).
Proof.
  split_and!.
  - reflexivity.
  - apply parseVirtualId_no_separator.
  - apply parseVirtualId_one_separator.
  - apply parseVirtualId_more_separators.
  - intros taskId t H. unfold virtualIdOf.
    apply parseVirtualId_one_separator;
      [by apply findSeparator_app_colon | apply findSeparator_toISOString].
Qed.

Lemma C3_codec_witness :
  findSeparator ("abc" +:+ ":") = None /\
  parseVirtualId (virtualIdOf "abc" (toISOString 1704099600000))
    = {| originalId := "abc";
         instanceDate := Some "2024-01-01T09:00:00.000Z" |}.
Proof.
  split; [reflexivity|].
  apply (proj2 (proj2 (proj2 (proj2 C3_codec))) "abc" 1704099600000).
  reflexivity.
Defined.

(** C4, as the specification states it, fails: the window from 12:00 back
    to 06:00 of 2024-01-01 has [windowStart > windowEnd], and the task that
    lasts from 00:00 to 23:00 of that day is emitted. *)
Lemma C4_counterexample :
  jan1 + hours 12 > jan1 + hours 6 /\
  generateRecurringTasks DateParseISO LocalTZA_UTC [meeting]
    (Some (jan1 + hours 12)) (Some (jan1 + hours 6))
  = Some [meeting].
Proof. split; [reflexivity | vm_compute; reflexivity]. Qed.

Section ReadBack.

Variable DateParse : string -> number.
Variable LocalTZA : Z -> bool -> Z.
Hypothesis DateParse_toISOString :
  forall t, Z.abs t <= Time.maxTime -> DateParse (toISOString t) = Some t.

(** C4, amended.  For every task list and every window with
    [windowStart > windowEnd] the expansion never fails, and it emits an
    occurrence only if [start < windowEnd] and [end > windowStart]: only an
    occurrence whose span covers the whole stretch from [windowEnd] to
    [windowStart] is emitted. *)
Theorem C4_inverted_window (tasks : list Task) (windowStart windowEnd : Z) :
  windowStart > windowEnd ->
  exists result,
    generateRecurringTasks DateParse LocalTZA tasks
      (Some windowStart) (Some windowEnd) = Some result /\
    forall o, o ∈ result ->
      exists s e,
        Date_ofString DateParse (start o) = Some s /\
        Date_ofString DateParse (end_ o) = Some e /\
        s < windowEnd /\ windowEnd < windowStart /\ windowStart < e.
Proof.
  intros Hw. eexists. split; [apply generateRecurringTasks_expansionSpec|].
  intros o Ho. apply (emitted_span _ _ DateParse_toISOString) in Ho
    as (s & e & Hs & He & Hlt & Hgt).
  exists s, e. cbn in Hlt, Hgt.
  apply Z.ltb_lt in Hlt, Hgt. repeat split; try done; lia.
Qed.

(** C6.  The expansion is made of what each task of the list adds, in
    the order of the list; and every occurrence that a recurring series
    adds spans the duration of that series, whatever the steps that led
    to it: the exact difference of its end and its start is the
    [series.end - series.start] of that series as a Number, so that
    [occurrence.end - occurrence.start] and [series.end - series.start]
    are the same Number; and they are the same integer whenever the
    series lasts at most [2 ^ 53] milliseconds, an integer beyond that not
    always being a Number. *)
Theorem C6_duration (tasks : list Task) (windowStart windowEnd : number) :
  exists parts : list (list Task),
    generateRecurringTasks DateParse LocalTZA tasks windowStart windowEnd
      = Some (concat parts) /\
    Forall2 (fun series part =>
      expandTask DateParse LocalTZA series windowStart windowEnd = Some part /\
      (recurrenceRule series <> None ->
       forall o, o ∈ part ->
         exists s e seriesStart seriesEnd,
           id o = virtualIdOf (id series) (start o) /\
           Date_ofString DateParse (start o) = Some s /\
           Date_ofString DateParse (end_ o) = Some e /\
           Date_ofString DateParse (start series) = Some seriesStart /\
           Date_ofString DateParse (end_ series) = Some seriesEnd /\
           e - s = Num.sub seriesEnd seriesStart /\
           Num.sub e s = Num.sub seriesEnd seriesStart /\
           (Z.abs (seriesEnd - seriesStart) <= 2 ^ 53 ->
            e - s = seriesEnd - seriesStart))) tasks parts.
Proof.
  exists (map (fun series =>
            expandTaskSpec DateParse LocalTZA series windowStart windowEnd)
          tasks).
  split.
  - rewrite generateRecurringTasks_expansionSpec. unfold expansionSpec.
    by rewrite flat_map_concat_map.
  - induction tasks as [|series tasks IH]; cbn [map]; constructor; [|done].
    split; [apply expandTask_expandTaskSpec|].
    intros Hrec o Ho.
    destruct (occurrence_span _ _ DateParse_toISOString _ _ _ _ Hrec Ho)
      as (s & e & seriesStart & seriesEnd & Hid & Hstart & Hs & He & Hss
          & Hse & _ & _ & Hdiff).
    exists s, e, seriesStart, seriesEnd.
    split_and!; try done.
    + by rewrite Hstart.
    + unfold Num.sub at 1. rewrite Hdiff. apply NumFacts.fl_idempotent.
    + intros Hsmall. rewrite Hdiff. unfold Num.sub.
      by apply NumFacts.fl_small.
Qed.

End ReadBack.

Lemma C4_inverted_window_witness :
  (forall t, Z.abs t <= Time.maxTime -> DateParseISO (toISOString t) = Some t) /\
  jan1 + hours 12 > jan1 + hours 6 /\
  exists result,
    generateRecurringTasks DateParseISO LocalTZA_UTC [meeting]
      (Some (jan1 + hours 12)) (Some (jan1 + hours 6)) = Some result /\
    forall o, o ∈ result ->
      exists s e,
        Date_ofString DateParseISO (start o) = Some s /\
        Date_ofString DateParseISO (end_ o) = Some e /\
        s < jan1 + hours 6 /\ jan1 + hours 6 < jan1 + hours 12 /\
        jan1 + hours 12 < e.
Proof.
  split; [exact DateParseISO_toISOString|]. split; [reflexivity|].
  apply (C4_inverted_window DateParseISO LocalTZA_UTC
           DateParseISO_toISOString [meeting]).
  reflexivity.
Defined.

Lemma C6_duration_witness :
  (forall t, Z.abs t <= Time.maxTime -> DateParseISO (toISOString t) = Some t) /\
  exists parts : list (list Task),
    generateRecurringTasks DateParseISO LocalTZA_UTC [standup None; meeting]
      (Some jan1) (Some (jan1 + hours 72)) = Some (concat parts) /\
    Forall2 (fun series part =>
      expandTask DateParseISO LocalTZA_UTC series
        (Some jan1) (Some (jan1 + hours 72)) = Some part /\
      (recurrenceRule series <> None ->
       forall o, o ∈ part ->
         exists s e seriesStart seriesEnd,
           id o = virtualIdOf (id series) (start o) /\
           Date_ofString DateParseISO (start o) = Some s /\
           Date_ofString DateParseISO (end_ o) = Some e /\
           Date_ofString DateParseISO (start series) = Some seriesStart /\
           Date_ofString DateParseISO (end_ series) = Some seriesEnd /\
           e - s = Num.sub seriesEnd seriesStart /\
           Num.sub e s = Num.sub seriesEnd seriesStart /\
           (Z.abs (seriesEnd - seriesStart) <= 2 ^ 53 ->
            e - s = seriesEnd - seriesStart))) [standup None; meeting] parts.
Proof.
  split; [exact DateParseISO_toISOString|].
  apply (C6_duration DateParseISO LocalTZA_UTC DateParseISO_toISOString).
Defined.

(** C5 fails on the code: the task form saves interval 0 as 1, but a record
    imported with a daily recurrence of interval 0 is admitted with that
    interval, and the expansion uses it as it is: the start never advances
    and the one occurrence is emitted 1000 times, where interval 1 gives it
    once in the day. *)
Theorem C5_interval_zero :
  submittedRecurrence DateParseISO DAILY (Some (Some 0)) ""
    = Some (everyDay (Some 1)) /\
  recurrence <$> (handleBatchImport countingUUID [importedRecord] (0%nat, [])).2
    = [everyDay (Some 0)] /\
  generateRecurringTasks DateParseISO LocalTZA_UTC [standup (Some 0)]
    (Some jan1) (Some (jan1 + hours 24))
  = Some (replicate 1000 (standupOccurrence (Some 0))) /\
  generateRecurringTasks DateParseISO LocalTZA_UTC [standup (Some 1)]
    (Some jan1) (Some (jan1 + hours 24))
  = Some [standupOccurrence (Some 1)].
Proof. split_and!; vm_compute; reflexivity. Qed.

(** C7, as the specification states it, fails: the record that supplies
    [reminderMinutes = 0] and [completed = true] is admitted with
    [reminderMinutes = 15] and [completed = false]. *)
Lemma C7_counterexample :
  exists admitted,
    (handleBatchImport countingUUID [importedRecord] (0%nat, [])).2
      = [admitted] /\
    reminderMinutes admitted = 15 /\ completed admitted = false /\
    ~ keepsSupplied importedRecord admitted.
Proof.
  eexists. split; [vm_compute; reflexivity|]. split_and!; [done..|].
  intros [H _]. specialize (H 0 eq_refl). discriminate H.
Qed.

(** C7, amended.  The batch import appends one task per record, in order.
    The task of the record at position [i] takes as its id the value of
    the [i]-th next call of [crypto.randomUUID], whatever the record holds;
    its [completed] is false, whatever the record holds; its
    [reminderMinutes] is 15 when the record has none and is the record's
    value when that is not 0; the other fields are the record's, with an
    absent description read as the empty text. *)
Theorem C7_batch_import (randomUUID : nat -> string)
    (newTasks : list Any.t) (calls : nat) (prev : list Task) :
  exists formatted,
    handleBatchImport randomUUID newTasks (calls, prev)
      = ((calls + length newTasks)%nat, prev ++ formatted) /\
    length formatted = length newTasks /\
    forall (i : nat) (t : Any.t), newTasks !! i = Some t ->
      exists t', formatted !! i = Some t' /\
        id t' = randomUUID (calls + i)%nat /\
        completed t' = false /\
        (Any.reminderMinutes t = None -> reminderMinutes t' = 15) /\
        (forall n, Any.reminderMinutes t = Some n -> n <> 0 ->
           reminderMinutes t' = n) /\
        title t' = Any.title t /\
        description t' = orElse (Any.description t) EmptyString /\
        start t' = Any.start t /\ end_ t' = Any.end_ t /\
        priority t' = Any.priority t /\
        recurrence t' = Any.recurrence t /\
        completedInstances t' = None.
Proof.
  eexists. unfold handleBatchImport. rewrite formatTasks_imap.
  split; [reflexivity|]. split; [apply length_imap|].
  intros i t Hi. eexists. rewrite list_lookup_imap, Hi.
  split; [reflexivity|]. cbn.
  repeat split.
  - by intros ->.
  - intros n -> Hn. by destruct (Z.eqb_spec n 0).
Qed.

Lemma C7_batch_import_witness :
  exists formatted,
    handleBatchImport countingUUID [importedRecord] (3%nat, [meeting])
      = ((3 + length [importedRecord])%nat, [meeting] ++ formatted) /\
    length formatted = length [importedRecord] /\
    forall (i : nat) (t : Any.t), [importedRecord] !! i = Some t ->
      exists t', formatted !! i = Some t' /\
        id t' = countingUUID (3 + i)%nat /\
        completed t' = false /\
        (Any.reminderMinutes t = None -> reminderMinutes t' = 15) /\
        (forall n, Any.reminderMinutes t = Some n -> n <> 0 ->
           reminderMinutes t' = n) /\
        title t' = Any.title t /\
        description t' = orElse (Any.description t) EmptyString /\
        start t' = Any.start t /\ end_ t' = Any.end_ t /\
        priority t' = Any.priority t /\
        recurrence t' = Any.recurrence t /\
        completedInstances t' = None.
Proof. apply (C7_batch_import countingUUID [importedRecord] 3 [meeting]). Defined.

(** C8, as the specification states it, fails: of the two daily series
    with the identifiers [a] and [a:], the occurrence of the second has an
    identifier that decodes to the first, and toggling it marks the task
    [a] and leaves its own series as it was. *)
Lemma C8_counterexample :
  exists o,
    generateRecurringTasks DateParseISO LocalTZA_UTC [dailySeries "a:"]
      (Some (day 0)) (Some (day 1)) = Some [o] /\
    id o = "a:::2024-01-01T09:00:00.000Z" /\
    handleToggleComplete o [dailySeries "a"; dailySeries "a:"]
    = [setCompletedInstances (dailySeries "a") [":2024-01-01T09:00:00.000Z"];
       dailySeries "a:"].
Proof. eexists. split_and!; vm_compute; reflexivity. Qed.

(** C8, amended.  Toggling an occurrence that the expansion emits for a
    recurring series whose identifier holds no separator and does not end
    in a colon leaves the list as long as it was, leaves every task of
    another id than the series as it was, and in a task with the id of the
    series changes nothing but the membership of that occurrence's start
    instant in [completedInstances]: that instant changes sides, every
    other instant stays, and the [completed] flag and every other field
    are as before. *)
Theorem C8_toggle_frame (DateParse : string -> number)
    (LocalTZA : Z -> bool -> Z) (series : Task)
    (windowStart windowEnd : number) (emitted : list Task) (o : Task)
    (prev : list Task) :
  recurrenceRule series <> None ->
  codecSafe (id series) ->
  generateRecurringTasks DateParse LocalTZA [series] windowStart windowEnd
    = Some emitted ->
  o ∈ emitted ->
  length (handleToggleComplete o prev) = length prev /\
  forall (i : nat) (t : Task), prev !! i = Some t ->
    exists t', handleToggleComplete o prev !! i = Some t' /\
      (id t <> id series -> t' = t) /\
      (id t = id series ->
         sameButInstances t' t /\
         (forall d', d' <> start o ->
            (d' ∈ instancesOf t' <-> d' ∈ instancesOf t)) /\
         (start o ∈ instancesOf t' <-> start o ∉ instancesOf t)).
Proof.
  intros Hrec Hsafe Hexp Ho.
  rewrite generateRecurringTasks_one in Hexp. injection Hexp as <-.
  apply list_elem_of_In, expandTaskSpec_inv in Ho as [H|H]; [by destruct H|].
  destruct H as (r & k & s & e & _ & _ & _ & _ & _ & ->).
  cbn [instanceOf start].
  apply handleToggleComplete_frame; [|apply toISOString_nonempty].
  cbn [instanceOf id]. by apply parseVirtualId_virtualIdOf.
Qed.

Lemma C8_toggle_frame_witness :
  recurrenceRule (standup None) <> None /\
  codecSafe (id (standup None)) /\
  generateRecurringTasks DateParseISO LocalTZA_UTC [standup None]
    (Some (day 0)) (Some (day 1)) = Some [standupOccurrence None] /\
  standupOccurrence None ∈ [standupOccurrence None] /\
  length (handleToggleComplete (standupOccurrence None)
            [standup None; meeting])
    = length [standup None; meeting] /\
  forall (i : nat) (t : Task), [standup None; meeting] !! i = Some t ->
    exists t',
      handleToggleComplete (standupOccurrence None) [standup None; meeting]
        !! i = Some t' /\
      (id t <> id (standup None) -> t' = t) /\
      (id t = id (standup None) ->
         sameButInstances t' t /\
         (forall d', d' <> start (standupOccurrence None) ->
            (d' ∈ instancesOf t' <-> d' ∈ instancesOf t)) /\
         (start (standupOccurrence None) ∈ instancesOf t'
          <-> start (standupOccurrence None) ∉ instancesOf t)).
Proof.
  assert (recurrenceRule (standup None) <> None) as Hrec by discriminate.
  assert (codecSafe (id (standup None))) as Hsafe by reflexivity.
  assert (generateRecurringTasks DateParseISO LocalTZA_UTC [standup None]
            (Some (day 0)) (Some (day 1)) = Some [standupOccurrence None])
    as Hexp by (vm_compute; reflexivity).
  assert (standupOccurrence None ∈ [standupOccurrence None]) as Ho
    by apply list_elem_of_here.
  split_and!; [done..| |];
    apply (C8_toggle_frame DateParseISO LocalTZA_UTC (standup None)
             (Some (day 0)) (Some (day 1)) [standupOccurrence None]
             (standupOccurrence None) [standup None; meeting]
             Hrec Hsafe Hexp Ho).
Defined.

(** C9 fails on the code: with the series whose interval 0 repeats one
    occurrence 1000 times in the expansion of the day, the tick of 08:50
    finds each copy due and none in the set it captured, and, in a host
    that shows notifications, fires 1000 reminders for the one occurrence
    id. *)
Theorem C9_duplicate_reminders :
  scanner DateParseISO LocalTZA_UTC notifying
    [([standup (Some 0)], jan1 + hours 9 - 10 * Time.msPerMinute)] ∅
  = Some (replicate 1000 (standupOccurrence (Some 0))).
Proof. vm_compute. reflexivity. Qed.

(** C10.  Toggling the same occurrence twice gives back the task list, with
    [completedInstances] compared as sets: every task has its fields and
    its [completed] flag as before, and the same instants completed. *)
Theorem C10_toggle_twice (task : Task) (prev : list Task) :
  sameTasks (handleToggleComplete task (handleToggleComplete task prev)) prev.
Proof.
  unfold sameTasks, handleToggleComplete.
  induction prev as [|t prev IH]; cbn [map]; constructor;
    [apply toggleOne_twice | exact IH].
Qed.

(** * Further properties of the code *)

(** ** The steps in a host at a fixed offset *)

Lemma fl_at_least lo x : - 2 ^ 53 <= lo <= 2 ^ 53 -> lo <= x -> lo <= Num.fl x.
Proof.
  intros Hlo Hx. destruct (Z.le_gt_cases (Z.abs x) (2 ^ 53)) as [Hs|Hb].
  - by rewrite NumFacts.fl_small.
  - pose proof (NumFacts.fl_big x Hb) as H. revert H. unfold Num.fl.
    assert (0 < x) as Hpos by lia.
    rewrite (Z.sgn_pos x Hpos), Z.mul_1_l, (Z.abs_eq x) by lia.
    pose proof (NumFacts.round53_big x) as Hr. lia.
Qed.

Lemma monthStart_succ m leap :
  0 <= m < 11 -> 0 <= leap <= 1 ->
  Time.monthStart m leap + 28 <= Time.monthStart (m + 1) leap.
Proof.
  intros Hm Hl.
  assert (m = 0 \/ m = 1 \/ m = 2 \/ m = 3 \/ m = 4 \/ m = 5 \/ m = 6 \/
          m = 7 \/ m = 8 \/ m = 9 \/ m = 10) as Hc by lia.
  repeat (destruct Hc as [->|Hc]); try subst m; simpl; lia.
Qed.

(** The first day of a month comes at least 28 days after the first day
    of the month before. *)
Lemma MakeDay_month_succ year month date :
  Time.MakeDay year month date + 28 <= Time.MakeDay year (month + 1) date.
Proof.
  unfold Time.MakeDay.
  assert (0 <= month mod 12 < 12) as Hr by (apply Z.mod_pos_bound; lia).
  destruct (Z.eq_dec (month mod 12) 11) as [H11|H11].
  - assert ((month + 1) / 12 = month / 12 + 1) as -> by (Z.div_mod_to_equations; lia).
    assert ((month + 1) mod 12 = 0) as -> by (Z.div_mod_to_equations; lia).
    rewrite H11, Z.add_assoc, TimeFacts.DayFromYear_succ.
    destruct (TimeFacts.DaysInYear_cases (year + month / 12)) as [->| ->];
      destruct (TimeFacts.DaysInYear_cases (year + month / 12 + 1)) as [->| ->];
      simpl; lia.
  - assert ((month + 1) / 12 = month / 12) as -> by (Z.div_mod_to_equations; lia).
    assert ((month + 1) mod 12 = month mod 12 + 1) as ->
      by (Z.div_mod_to_equations; lia).
    pose proof (monthStart_succ (month mod 12)
      (if Time.DaysInYear (year + month / 12) =? 366 then 1 else 0)) as H.
    destruct (Time.DaysInYear (year + month / 12) =? 366); lia.
Qed.

Lemma MakeDay_month_lt year month date n :
  1 <= n -> Time.MakeDay year month date < Time.MakeDay year (month + n) date.
Proof.
  intros Hn. replace n with (Z.succ (n - 1)) by lia.
  assert (0 <= n - 1) as Hk by lia. revert Hk. generalize (n - 1). clear n Hn.
  apply natlike_ind.
  - pose proof (MakeDay_month_succ year month date). replace (Z.succ 0) with 1 by lia. lia.
  - intros k Hk IH.
    pose proof (MakeDay_month_succ year (month + Z.succ k) date).
    replace (month + Z.succ (Z.succ k)) with (month + Z.succ k + 1) by lia. lia.
Qed.

Lemma MakeDay_year_lt year year' month date :
  0 <= month <= 11 -> year < year' ->
  Time.MakeDay year month date < Time.MakeDay year' month date.
Proof.
  intros Hm Hy. unfold Time.MakeDay.
  rewrite Z.div_small, Z.mod_small, !Z.add_0_r by lia.
  assert (Time.DayFromYear year + 365 <= Time.DayFromYear year') as Hd.
  { pose proof (TimeFacts.DayFromYear_succ year) as Hs.
    destruct (TimeFacts.DaysInYear_cases year) as [H|H]; rewrite H in Hs;
      (destruct (Z.eq_dec year' (year + 1)) as [->|];
         [lia | pose proof (TimeFacts.DayFromYear_lt (year + 1) year'); lia]). }
  assert (forall l l', 0 <= l <= 1 -> 0 <= l' <= 1 ->
            Time.monthStart month l <= Time.monthStart month l' + 1) as Hl.
  { intros l l' ? ?.
    assert (month = 0 \/ month = 1 \/ month = 2 \/ month = 3 \/ month = 4 \/
            month = 5 \/ month = 6 \/ month = 7 \/ month = 8 \/ month = 9 \/
            month = 10 \/ month = 11) as Hc by lia.
    repeat (destruct Hc as [->|Hc]); try subst month; simpl; lia. }
  specialize (Hl (if Time.DaysInYear year =? 366 then 1 else 0)
                 (if Time.DaysInYear year' =? 366 then 1 else 0)).
  destruct (Time.DaysInYear year =? 366), (Time.DaysInYear year' =? 366); lia.
Qed.

Lemma YearFromTime_bound t :
  Z.abs t <= 2 * Time.maxTime -> Z.abs (Time.YearFromTime t) <= 1000000.
Proof.
  intros Ht. pose proof (TimeFacts.YearFromTime_spec t) as H.
  rewrite TimeFacts.DayFromYear_succ in H.
  pose proof (TimeFacts.DaysInYear_cases (Time.YearFromTime t)) as Hd.
  assert (-200000001 <= Time.Day t <= 200000001)
    by (unfold Time.Day; TimeFacts.zify_div; lia).
  revert H Hd. generalize (Time.YearFromTime t). intros y. unfold Time.DayFromYear.
  intros. Z.div_mod_to_equations. lia.
Qed.

Section FixedOffset.

Variable offset : Z.
Hypothesis offset_range : Z.abs offset <= Time.msPerDay.

Lemma setDate_fixed t dt :
  setDate (LocalTZA_fixed offset) t dt
  = Time.TimeClip
      (t + (dt - getDate (LocalTZA_fixed offset) t) * Time.msPerDay).
Proof.
  unfold setDate, getDate, LocalTime, UTC, LocalTZA_fixed. f_equal.
  set (lt := t + offset).
  replace dt with (Time.DateFromTime lt + (dt - Time.DateFromTime lt)) at 1 by lia.
  rewrite TimeFacts.MakeDay_shift, TimeFacts.MakeDay_fields.
  unfold Time.MakeDate, Time.Day, Time.TimeWithinDay.
  subst lt. TimeFacts.zify_div. lia.
Qed.

Lemma setHours_fixed t h m s ms :
  setHours (LocalTZA_fixed offset) t h m s ms
  = Time.TimeClip
      (Time.Day (t + offset) * Time.msPerDay + Time.MakeTime h m s ms - offset).
Proof.
  unfold setHours, LocalTime, UTC, LocalTZA_fixed, Time.MakeDate. f_equal.
Qed.

(** In such a host the step by frequency and interval of a daily or a
    weekly series moves the start by [interval] or by [7 * interval] whole
    days. *)
Lemma nextStart_days r t n :
  orElse (interval r) (Some 1) = Some n -> Z.abs n <= 2 ^ 49 ->
  (frequency r = DAILY ->
   nextStart (LocalTZA_fixed offset) r (Some t)
   = Time.TimeClip (t + n * Time.msPerDay)) /\
  (frequency r = WEEKLY ->
   nextStart (LocalTZA_fixed offset) r (Some t)
   = Time.TimeClip (t + 7 * n * Time.msPerDay)).
Proof.
  intros Hn Hsmall.
  pose proof (TimeFacts.DateFromTime_range (t + offset)) as Hd.
  assert (2 ^ 49 = 562949953421312) as Hp49 by reflexivity.
  assert (2 ^ 53 = 9007199254740992) as Hp53 by reflexivity.
  split; intros Hf;
    (rewrite <- advance_nextStart by (rewrite Hf; discriminate));
    rewrite Hf, Hn; cbn [advance num_add num_mul mbind option_bind];
    rewrite setDate_fixed; unfold getDate, LocalTime, LocalTZA_fixed,
      Num.add, Num.mul;
    rewrite ?(NumFacts.fl_small (7 * n)) by lia;
    rewrite NumFacts.fl_small by lia; f_equal; lia.
Qed.

(** A step by a positive interval moves the start forwards. *)
Lemma advance_increases f n t t' :
  Z.abs t <= Time.maxTime -> f <> NONE -> 1 <= n ->
  advance (LocalTZA_fixed offset) f (Some n) (Some t) = Some t' -> t < t'.
Proof.
  intros Ht Hf Hn. cbn [advance num_add num_mul mbind option_bind].
  pose proof (TimeFacts.DateFromTime_range (t + offset)) as Hd.
  pose proof (TimeFacts.MonthFromTime_range (t + offset)) as Hm.
  destruct f; [done| | | |].
  - rewrite setDate_fixed. intros [-> _]%TimeClip_Some.
    unfold getDate, LocalTime, LocalTZA_fixed, Num.add in *.
    pose proof (fl_at_least (Time.DateFromTime (t + offset) + 1)
                  (Time.DateFromTime (t + offset) + n)).
    unfold Time.msPerDay. lia.
  - rewrite setDate_fixed. intros [-> _]%TimeClip_Some.
    unfold getDate, LocalTime, LocalTZA_fixed, Num.add, Num.mul in *.
    pose proof (fl_at_least 7 (7 * n)).
    pose proof (fl_at_least (Time.DateFromTime (t + offset) + 1)
                  (Time.DateFromTime (t + offset) + Num.fl (7 * n))).
    unfold Time.msPerDay. lia.
  - unfold setMonth, getMonth, LocalTime, UTC, LocalTZA_fixed, Num.add.
    intros [-> _]%TimeClip_Some.
    pose proof (fl_at_least (Time.MonthFromTime (t + offset) + 1)
                  (Time.MonthFromTime (t + offset) + n)) as Hfl.
    set (m' := Num.fl (Time.MonthFromTime (t + offset) + n)) in *.
    pose proof (MakeDay_month_lt (Time.YearFromTime (t + offset))
                  (Time.MonthFromTime (t + offset))
                  (Time.DateFromTime (t + offset))
                  (m' - Time.MonthFromTime (t + offset))) as Hlt.
    replace (Time.MonthFromTime (t + offset) +
             (m' - Time.MonthFromTime (t + offset))) with m' in Hlt by lia.
    rewrite TimeFacts.MakeDay_fields in Hlt.
    unfold Time.MakeDate, Time.Day, Time.TimeWithinDay in *.
    TimeFacts.zify_div. lia.
  - unfold setFullYear, getFullYear, LocalTime, UTC, LocalTZA_fixed, Num.add.
    intros [-> _]%TimeClip_Some.
    pose proof (YearFromTime_bound (t + offset)) as Hy.
    pose proof (fl_at_least (Time.YearFromTime (t + offset) + 1)
                  (Time.YearFromTime (t + offset) + n)) as Hfl.
    set (y' := Num.fl (Time.YearFromTime (t + offset) + n)) in *.
    pose proof (MakeDay_year_lt (Time.YearFromTime (t + offset)) y'
                  (Time.MonthFromTime (t + offset))
                  (Time.DateFromTime (t + offset))) as Hlt.
    rewrite TimeFacts.MakeDay_fields in Hlt.
    unfold Time.MakeDate, Time.Day, Time.TimeWithinDay in *.
    assert (Z.abs (t + offset) <= 2 * Time.maxTime) as Hb
      by (unfold Time.maxTime, Time.msPerDay in *; lia).
    specialize (Hy Hb). assert (2 ^ 53 = 9007199254740992) as Hp by reflexivity.
    TimeFacts.zify_div. lia.
Qed.


End FixedOffset.

(** ** Identifiers that the codec can carry *)

(** A plain identifier is no composite identifier. *)
Lemma virtualIdOf_not_plain taskId taskId' t :
  codecSafe taskId -> codecSafe taskId' ->
  virtualIdOf taskId (toISOString t) <> taskId'.
Proof.
  intros H H' Heq.
  pose proof (parseVirtualId_virtualIdOf taskId t H) as H1.
  rewrite Heq, (parseVirtualId_plain taskId' H') in H1. discriminate.
Qed.

Lemma toISOString_inj a b :
  Z.abs a <= Time.maxTime -> Z.abs b <= Time.maxTime ->
  toISOString a = toISOString b -> a = b.
Proof.
  intros Ha Hb Heq.
  pose proof (DateParseISO_toISOString a Ha) as H1.
  rewrite Heq, (DateParseISO_toISOString b Hb) in H1. congruence.
Qed.

Lemma virtualIdOf_inj taskId a b :
  Z.abs a <= Time.maxTime -> Z.abs b <= Time.maxTime ->
  virtualIdOf taskId (toISOString a) = virtualIdOf taskId (toISOString b) ->
  a = b.
Proof.
  intros Ha Hb Heq. unfold virtualIdOf in Heq.
  apply (inj (String.app taskId)), (inj (String.app "::")) in Heq.
  by apply toISOString_inj.
Qed.

Lemma StronglySorted_lt_NoDup (zs : list Z) : StronglySorted Z.lt zs -> NoDup zs.
Proof.
  induction 1 as [|z zs _ IH Hall]; constructor; [|done].
  intros Hin. rewrite Forall_forall in Hall. specialize (Hall z Hin). lia.
Qed.

Lemma StronglySorted_lt_sublist (zs' zs : list Z) :
  sublist zs' zs -> StronglySorted Z.lt zs -> StronglySorted Z.lt zs'.
Proof.
  induction 1 as [|z l1 l2 Hsub IH|z l1 l2 Hsub IH]; intros Hs.
  - constructor.
  - apply StronglySorted_cons in Hs as [Hall Hs].
    apply StronglySorted_cons. split; [|by apply IH].
    rewrite Forall_forall in *. intros x Hx. apply Hall.
    by eapply elem_of_sublist.
  - apply StronglySorted_cons in Hs as [_ Hs]. by apply IH.
Qed.

(** ** The occurrences of one series *)

Section Series.

Variable DateParse : string -> number.
Variable offset : Z.
Hypothesis offset_range : Z.abs offset <= Time.msPerDay.

Lemma recurrenceRule_Some task r :
  recurrenceRule task = Some r ->
  recurrence task = Some r /\ frequency r <> NONE.
Proof.
  unfold recurrenceRule. destruct (recurrence task) as [r'|]; [|done].
  destruct (isNONE (frequency r')) eqn:Hf; [done|]. intros [= ->].
  split; [done|]. by intros Hn; rewrite Hn in Hf.
Qed.

(** With an interval that is no Number below 1 the starts visited go
    strictly upwards. *)
Lemma visited_increasing task r windowEnd :
  frequency r <> NONE ->
  (forall n, orElse (interval r) (Some 1) = Some n -> 1 <= n) ->
  forall fuel k, exists zs,
    takeWhile (fun s => negb (walkStops DateParse r windowEnd s))
      (map (candidateStart DateParse (LocalTZA_fixed offset) task r)
         (seq k fuel)) = Some <$> zs /\
    StronglySorted Z.lt zs /\
    Forall (fun z => Z.abs z <= Time.maxTime) zs /\
    forall z, z ∈ zs ->
      exists t0, candidateStart DateParse (LocalTZA_fixed offset) task r k
                 = Some t0 /\ t0 <= z.
Proof.
  intros Hf Hn. induction fuel as [|fuel IH]; intros k.
  - exists []. split_and!; [done|constructor|constructor|]. by intros z ?%elem_of_nil.
  - cbn [seq map takeWhile].
    destruct (walkStops DateParse r windowEnd
                (candidateStart DateParse (LocalTZA_fixed offset) task r k))
      eqn:Hs; cbn [negb].
    { exists []. split_and!; [done|constructor|constructor|].
      by intros z ?%elem_of_nil. }
    destruct (candidateStart DateParse (LocalTZA_fixed offset) task r k)
      as [t0|] eqn:Hc; [|discriminate].
    pose proof (candidateStart_valid _ _ _ _ _ _ Hc) as Ht0.
    destruct (IH (S k)) as (zs & Heq & Hsorted & Hvalid & Hlow).
    assert (forall z, z ∈ zs -> t0 < z) as Hup.
    { intros z Hz. destruct (Hlow z Hz) as (t1 & Ht1 & Hle).
      cbn [candidateStart] in Ht1. rewrite Hc in Ht1.
      rewrite <- advance_nextStart in Ht1 by done.
      destruct (orElse (interval r) (Some 1)) as [n|] eqn:Hi;
        [|by destruct (frequency r)].
      apply advance_increases in Ht1; [lia|done..|by apply Hn]. }
    exists (t0 :: zs). rewrite Heq. split_and!; [done| | |].
    + apply StronglySorted_cons. split; [|done]. by apply Forall_forall.
    + by constructor.
    + intros z [->|Hz]%elem_of_cons; exists t0; [done|].
      split; [done|]. specialize (Hup z Hz). lia.
Qed.

(** What is emitted of the starts visited. *)
Lemma emitted_of_visited task windowStart windowEnd (zs : list Z) :
  exists zs', sublist zs' zs /\
    id <$> omap (occurrenceAt DateParse task)
             (List.filter
                (fun s => overlapsWindow s (occurrenceEnd DateParse task s)
                            windowStart windowEnd) (Some <$> zs))
    = (fun z => virtualIdOf (id task) (toISOString z)) <$> zs' /\
    start <$> omap (occurrenceAt DateParse task)
             (List.filter
                (fun s => overlapsWindow s (occurrenceEnd DateParse task s)
                            windowStart windowEnd) (Some <$> zs))
    = toISOString <$> zs'.
Proof.
  induction zs as [|z zs (zs' & Hsub & Hid & Hstart)].
  - exists []. by split_and!.
  - cbn [fmap list_fmap List.filter].
    destruct (overlapsWindow (Some z) (occurrenceEnd DateParse task (Some z))
                windowStart windowEnd) eqn:Ho.
    + cbn [omap list_omap].
      destruct (occurrenceAt DateParse task (Some z)) as [o|] eqn:Hocc.
      * assert (id o = virtualIdOf (id task) (toISOString z) /\
                start o = toISOString z) as [Ho1 Ho2].
        { unfold occurrenceAt in Hocc.
          destruct (occurrenceEnd DateParse task (Some z)); [|done].
          by injection Hocc as <-. }
        exists (z :: zs'). split_and!; [by apply sublist_skip|..].
        -- cbn [fmap list_fmap]. cbn [fmap list_fmap] in Hid.
           by rewrite Hid, Ho1.
        -- cbn [fmap list_fmap]. cbn [fmap list_fmap] in Hstart.
           by rewrite Hstart, Ho2.
      * exists zs'. split_and!; [by apply sublist_cons|done..].
    + exists zs'. split_and!; [by apply sublist_cons|done..].
Qed.

(** The occurrences of a series with an interval that is no Number below
    1 are those of a strictly increasing list of instants. *)
Lemma series_increasing task r windowStart windowEnd :
  recurrenceRule task = Some r ->
  (forall n, orElse (interval r) (Some 1) = Some n -> 1 <= n) ->
  exists zs,
    StronglySorted Z.lt zs /\
    Forall (fun z => Z.abs z <= Time.maxTime) zs /\
    id <$> expandTaskSpec DateParse (LocalTZA_fixed offset) task
             windowStart windowEnd
    = (fun z => virtualIdOf (id task) (toISOString z)) <$> zs /\
    start <$> expandTaskSpec DateParse (LocalTZA_fixed offset) task
                windowStart windowEnd
    = toISOString <$> zs.
Proof.
  intros Hr Hn. unfold expandTaskSpec. rewrite Hr.
  apply recurrenceRule_Some in Hr as [_ Hf].
  destruct (visited_increasing task r windowEnd Hf Hn 1000 0)
    as (zs & Hzs & Hsorted & Hvalid & _).
  unfold visitedStarts. rewrite Hzs.
  destruct (emitted_of_visited task windowStart windowEnd zs)
    as (zs' & Hsub & Hid & Hstart).
  exists zs'. split_and!; [|..|done|done].
  - by eapply StronglySorted_lt_sublist.
  - rewrite Forall_forall in *. intros z Hz. apply Hvalid.
    by eapply elem_of_sublist.
Qed.

Lemma series_ids_distinct task windowStart windowEnd :
  positiveInterval task ->
  NoDup (id <$> expandTaskSpec DateParse (LocalTZA_fixed offset) task
                  windowStart windowEnd).
Proof.
  intros Hpos. destruct (recurrenceRule task) as [r|] eqn:Hr.
  - destruct (series_increasing task r windowStart windowEnd Hr)
      as (zs & Hsorted & Hvalid & -> & _).
    { apply recurrenceRule_Some in Hr as [Hrec _].
      unfold positiveInterval in Hpos. rewrite Hrec in Hpos.
      destruct (interval r) as [[m|]|]; simpl; intros n [= <-]; [done|lia]. }
    apply NoDup_fmap_2_strong; [|by apply StronglySorted_lt_NoDup].
    rewrite Forall_forall in Hvalid.
    intros a b Ha Hb. apply virtualIdOf_inj; auto.
  - unfold expandTaskSpec. rewrite Hr. case_match; simpl.
    + apply NoDup_singleton.
    + apply NoDup_nil_2.
Qed.

(** Every occurrence carries the identifier of its series. *)
Lemma expansionSpec_elem_of LocalTZA tasks windowStart windowEnd o :
  o ∈ expansionSpec DateParse LocalTZA tasks windowStart windowEnd <->
  exists task, task ∈ tasks /\
    o ∈ expandTaskSpec DateParse LocalTZA task windowStart windowEnd.
Proof.
  unfold expansionSpec. rewrite list_elem_of_In, in_flat_map.
  split; intros (task & H1 & H2); exists task;
    by rewrite ?list_elem_of_In in *.
Qed.

(** No identifier comes twice out of the expansion of tasks with
    distinct identifiers that the codec can carry and no interval below
    1. *)
Lemma expansion_ids_distinct tasks windowStart windowEnd :
  NoDup (id <$> tasks) ->
  Forall (fun t => codecSafe (id t)) tasks ->
  Forall positiveInterval tasks ->
  NoDup (id <$> expansionSpec DateParse (LocalTZA_fixed offset) tasks
                  windowStart windowEnd).
Proof.
  induction tasks as [|task tasks IH]; intros Hnd Hsafe Hpos.
  - apply NoDup_nil_2.
  - cbn [expansionSpec flat_map]. rewrite fmap_app.
    apply NoDup_cons in Hnd as [Hfresh Hnd].
    apply Forall_cons in Hsafe as [Hs Hsafe].
    apply Forall_cons in Hpos as [Hp Hpos].
    apply NoDup_app. split_and!.
    + by apply series_ids_distinct.
    + intros i (o & -> & Ho)%list_elem_of_fmap (o' & Heq & Ho')%list_elem_of_fmap.
      apply Hfresh.
      apply (seriesOf_emitted _ _ _ _ _ _ Hs) in Ho.
      apply expansionSpec_elem_of in Ho' as (task' & Hin & Ho').
      rewrite Forall_forall in Hsafe.
      apply (seriesOf_emitted _ _ _ _ _ _ (Hsafe _ Hin)) in Ho'.
      apply list_elem_of_fmap. exists task'. split; [|done].
      unfold seriesOf in *. rewrite <- Ho, <- Ho'. by rewrite Heq.
    + by apply IH.
Qed.

End Series.

(** ** The scanner over several ticks *)

Section ScannerFacts.

Variable DateParse : string -> number.
Variable LocalTZA : Z -> bool -> Z.
Variable Notification : option NotificationAPI.

Lemma scanner_total ticks : forall notified,
  exists events,
    scanner DateParse LocalTZA Notification ticks notified = Some events.
Proof.
  induction ticks as [|[tasks now] later IH]; intros notified; [by eexists|].
  cbn [scanner].
  destruct (checkReminders_total DateParse LocalTZA Notification tasks
              notified now) as [tick ->]. cbn [mbind option_bind].
  destruct (IH (notifiedAfter tick)) as [rest ->]. by eexists.
Qed.

Lemma scannerState_total ticks : forall notified,
  exists left,
    scannerState DateParse LocalTZA Notification ticks notified = Some left.
Proof.
  induction ticks as [|[tasks now] later IH]; intros notified; [by eexists|].
  cbn [scannerState].
  destruct (checkReminders_total DateParse LocalTZA Notification tasks
              notified now) as [tick ->]. apply IH.
Qed.

(** Nothing is fired for an identifier of the set the run starts from. *)
Lemma scanner_fresh ticks : forall notified events o,
  scanner DateParse LocalTZA Notification ticks notified = Some events ->
  o ∈ events -> id o ∉ notified.
Proof.
  induction ticks as [|[tasks now] later IH]; intros notified events o.
  - intros [= <-]. by intros ?%elem_of_nil.
  - cbn [scanner].
    destruct (checkReminders DateParse LocalTZA Notification tasks notified now)
      as [tick|] eqn:Htick; [|discriminate]. cbn [mbind option_bind].
    destruct (scanner DateParse LocalTZA Notification later (notifiedAfter tick))
      as [rest|] eqn:Hrest; [|discriminate]. cbn [mbind option_bind].
    intros [= <-] [Ho|Ho]%elem_of_app.
    + by eapply checkReminders_fired.
    + intros Hin. apply (IH _ _ _ Hrest Ho).
      apply checkReminders_Some in Htick as (_ & _ & _ & ->).
      rewrite elem_of_notified. by left.
Qed.

Lemma scannerState_grows ticks : forall notified after events o,
  scanner DateParse LocalTZA Notification ticks notified = Some events ->
  scannerState DateParse LocalTZA Notification ticks notified = Some after ->
  notified ⊆ after /\ (o ∈ events -> id o ∈ after).
Proof.
  induction ticks as [|[tasks now] later IH]; intros notified after events o.
  - intros [= <-] [= <-]. split; [done|]. by intros ?%elem_of_nil.
  - cbn [scanner scannerState].
    destruct (checkReminders DateParse LocalTZA Notification tasks notified now)
      as [tick|] eqn:Htick; [|discriminate]. cbn [mbind option_bind].
    destruct (scanner DateParse LocalTZA Notification later (notifiedAfter tick))
      as [rest|] eqn:Hrest; [|discriminate]. cbn [mbind option_bind].
    intros [= <-] Hafter.
    destruct (IH _ _ _ o Hrest Hafter) as [Hsub Hin].
    assert (notified ⊆ notifiedAfter tick) as Hgrow.
    { pose proof Htick as (_ & _ & _ & ->)%checkReminders_Some.
      intros x Hx. rewrite elem_of_notified. by left. }
    split; [by etrans|].
    intros [Ho|Ho]%elem_of_app; [|auto].
    apply Hsub. by eapply checkReminders_fired.
Qed.

Lemma scanner_app before : forall after notified,
  scanner DateParse LocalTZA Notification (before ++ after) notified
  = (ev1 ← scanner DateParse LocalTZA Notification before notified;
     left ← scannerState DateParse LocalTZA Notification before notified;
     ev2 ← scanner DateParse LocalTZA Notification after left;
     Some (ev1 ++ ev2)).
Proof.
  induction before as [|[tasks now] before IH]; intros after notified.
  - cbn. by destruct (scanner DateParse LocalTZA Notification after notified).
  - cbn [app scanner scannerState].
    destruct (checkReminders DateParse LocalTZA Notification tasks notified now)
      as [tick|]; [|done]. cbn [mbind option_bind]. rewrite IH.
    destruct (scanner DateParse LocalTZA Notification before
                (notifiedAfter tick)) as [ev1|]; [|done].
    cbn [mbind option_bind].
    destruct (scannerState DateParse LocalTZA Notification before
                (notifiedAfter tick)) as [left|]; [|done].
    cbn [mbind option_bind].
    destruct (scanner DateParse LocalTZA Notification after left)
      as [ev2|]; [|done].
    cbn [mbind option_bind]. by rewrite app_assoc.
Qed.

(** Where the notification throws, no tick fires more than one
    reminder. *)
Lemma scanner_one_per_tick ticks : forall notified events,
  nativeNotification Notification = false ->
  scanner DateParse LocalTZA Notification ticks notified = Some events ->
  (length events <= length ticks)%nat.
Proof.
  induction ticks as [|[tasks now] later IH]; intros notified events Hthrows.
  - by intros [= <-].
  - cbn [scanner].
    destruct (checkReminders DateParse LocalTZA Notification tasks notified now)
      as [tick|] eqn:Htick; [|discriminate]. cbn [mbind option_bind].
    destruct (scanner DateParse LocalTZA Notification later (notifiedAfter tick))
      as [rest|] eqn:Hrest; [|discriminate]. cbn [mbind option_bind].
    intros [= <-]. specialize (IH _ _ Hthrows Hrest).
    apply checkReminders_Some in Htick as (expanded & _ & [Hrem _] & _).
    rewrite Hthrows in Hrem. rewrite length_app, Hrem, length_take.
    cbn [length]. lia.
Qed.

End ScannerFacts.

(** The sample list is well formed. *)
Lemma twoTasks_wellFormed : wellFormed twoTasks.
Proof.
  split_and!.
  - by apply (bool_decide_unpack _).
  - by repeat constructor.
  - repeat constructor. vm_compute. discriminate.
Qed.

(** ** The reminders fired *)

(** X1, [checkReminders] of [App.tsx], in a host with and in a host
    without notifications.  No tick throws in the expansion.  Where the
    statements of the notification return, a tick fires, in the order of
    the expansion of the day, every occurrence that passes the tests, and
    it ends without exception.  Where they throw, the host lacking the
    global [Notification] or its constructor refusing, the tick fires the
    first such occurrence alone and ends by the exception exactly when
    there is one.  In both hosts an occurrence is fired only if it is not
    completed, its identifier is not in the set the tick sees, and the
    clock is at or after [start - reminderMinutes * 60 * 1000] and before
    [start + 60000]; and the set the tick leaves holds, beyond the set it
    saw, the identifiers fired. *)
Theorem X1_reminder_conditions (DateParse : string -> number)
    (LocalTZA : Z -> bool -> Z) (Notification : option NotificationAPI)
    (tasks : list Task) (notified : gset string) (now : Z) :
  exists tick expanded,
    checkReminders DateParse LocalTZA Notification tasks notified now
      = Some tick /\
    generateRecurringTasks DateParse LocalTZA tasks
      (setHours LocalTZA now 0 0 0 0) (setHours LocalTZA now 23 59 59 999)
      = Some expanded /\
    (let due :=
       List.filter (fun o =>
         negb (completed o || bool_decide (id o ∈ notified)) &&
         reminderDue DateParse now o) expanded in
     (nativeNotification Notification = true ->
      reminders tick = due /\ thrown tick = false) /\
     (nativeNotification Notification = false ->
      reminders tick = take 1 due /\ (thrown tick = true <-> due <> []))) /\
    (forall o, o ∈ reminders tick ->
       completed o = false /\ (id o ∉ notified) /\
       exists startTime,
         Date_ofString DateParse (start o) = Some startTime /\
         now >= Num.sub startTime
                  (Num.mul (Num.mul (reminderMinutes o) 60) 1000) /\
         now < Num.add startTime 60000) /\
    (forall i, i ∈ notifiedAfter tick <->
       i ∈ notified \/ i ∈ id <$> reminders tick).
Proof.
  destruct (checkReminders_total DateParse LocalTZA Notification tasks
              notified now) as [tick Htick].
  pose proof Htick as (expanded & Hexp & [Hrem Hthrown] & Hafter)
    %checkReminders_Some.
  exists tick, expanded. split_and!; [done|done| | |].
  - cbv zeta. split; intros Hn; rewrite Hn in Hrem, Hthrown;
      (split; [done|]); [done|].
    rewrite Hthrown. cbn [negb andb]. by destruct (List.filter _ expanded).
  - intros o Ho.
    by destruct (checkReminders_fired _ _ _ _ _ _ _ o Htick Ho)
      as (? & ? & ? & _).
  - intros i. by rewrite Hafter, elem_of_notified.
Qed.

(** X2, the reminder scanner of [App.tsx] over successive ticks, in any
    host.  What a run fires is what its first ticks fire followed by what
    the later ticks fire; no identifier fired in the first ticks is fired
    again in a later tick, whatever the task lists and the clock are and
    whether or not ticks were ended by the exception of the notification;
    nothing is fired for an identifier of the set the run starts from;
    and where the notification throws, a run fires no more reminders than
    it has ticks. *)
Theorem X2_never_reminded_again (DateParse : string -> number)
    (LocalTZA : Z -> bool -> Z) (Notification : option NotificationAPI)
    (before after : list (list Task * Z)) (notified : gset string) :
  exists ev1 ev2,
    scanner DateParse LocalTZA Notification (before ++ after) notified
      = Some (ev1 ++ ev2) /\
    scanner DateParse LocalTZA Notification before notified = Some ev1 /\
    (forall o o', o ∈ ev1 -> o' ∈ ev2 -> id o <> id o') /\
    (forall o, o ∈ ev1 ++ ev2 -> id o ∉ notified) /\
    (nativeNotification Notification = false ->
     (length ev1 <= length before)%nat /\
     (length ev2 <= length after)%nat).
Proof.
  destruct (scanner_total DateParse LocalTZA Notification before notified)
    as [ev1 H1].
  destruct (scannerState_total DateParse LocalTZA Notification before notified)
    as [left Hleft].
  destruct (scanner_total DateParse LocalTZA Notification after left)
    as [ev2 H2].
  assert (scanner DateParse LocalTZA Notification (before ++ after) notified
          = Some (ev1 ++ ev2)) as Hall.
  { rewrite scanner_app, H1. cbn [mbind option_bind]. rewrite Hleft.
    cbn [mbind option_bind]. by rewrite H2. }
  exists ev1, ev2. split_and!; [done..| | |].
  - intros o o' Ho Ho' Heq.
    apply (scanner_fresh _ _ _ _ _ _ _ H2 Ho').
    rewrite <- Heq. by apply (scannerState_grows _ _ _ _ _ _ _ o H1 Hleft).
  - intros o Ho. by eapply scanner_fresh.
  - intros Hthrows. split; by eapply scanner_one_per_tick.
Qed.

(** X3, the reminder scanner over task lists as [TaskForm] saves them.  In
    a host at a fixed offset from UTC, with or without notifications, when
    at every tick the tasks have distinct identifiers that the codec can
    carry and no recurrence interval is a Number below 1, no identifier is
    reminded of twice in the whole run. *)
Theorem X3_reminded_at_most_once (DateParse : string -> number) (offset : Z)
    (Notification : option NotificationAPI)
    (ticks : list (list Task * Z)) (notified : gset string)
    (events : list Task) :
  Z.abs offset <= Time.msPerDay ->
  Forall (fun tick : list Task * Z =>
    NoDup (id <$> tick.1) /\
    Forall (fun t => codecSafe (id t)) tick.1 /\
    Forall positiveInterval tick.1) ticks ->
  scanner DateParse (LocalTZA_fixed offset) Notification ticks notified
    = Some events ->
  NoDup (id <$> events).
Proof.
  intros Hoff Hticks Hrun.
  eapply (scanner_NoDup DateParse (LocalTZA_fixed offset) Notification ticks
            notified events); [|done].
  eapply Forall_impl; [exact Hticks|].
  intros [tasks now] (Hnd & Hsafe & Hpos) expanded. cbn [fst snd].
  rewrite generateRecurringTasks_expansionSpec. intros [= <-].
  by apply expansion_ids_distinct.
Qed.

Lemma X3_reminded_at_most_once_witness :
  Z.abs 0 <= Time.msPerDay /\
  Forall (fun tick : list Task * Z =>
    NoDup (id <$> tick.1) /\
    Forall (fun t => codecSafe (id t)) tick.1 /\
    Forall positiveInterval tick.1) twoTicks /\
  scanner DateParseISO (LocalTZA_fixed 0) notifying twoTicks ∅
    = Some [standupOccurrence (Some 1)] /\
  NoDup (id <$> [standupOccurrence (Some 1)]).
Proof.
  assert (Z.abs 0 <= Time.msPerDay) as Hoff by (vm_compute; discriminate).
  assert (Forall (fun tick : list Task * Z =>
            NoDup (id <$> tick.1) /\
            Forall (fun t => codecSafe (id t)) tick.1 /\
            Forall positiveInterval tick.1) twoTicks) as Hticks.
  { repeat (apply Forall_cons; split; [exact twoTasks_wellFormed|]).
    apply Forall_nil_2. }
  assert (scanner DateParseISO (LocalTZA_fixed 0) notifying twoTicks ∅
          = Some [standupOccurrence (Some 1)]) as Hrun
    by (vm_compute; reflexivity).
  split_and!; [done..|].
  exact (X3_reminded_at_most_once DateParseISO 0 notifying twoTicks ∅ _
           Hoff Hticks Hrun).
Defined.

(** ** Widening the window *)

Lemma takeWhile_weaker (p q : number -> bool) (l : list number) :
  (forall s, p s = true -> q s = true) ->
  exists more, takeWhile q l = takeWhile p l ++ more.
Proof.
  intros Hpq. induction l as [|s l [more IH]]; [by exists []|].
  cbn [takeWhile]. destruct (p s) eqn:Hp.
  - rewrite (Hpq s Hp), IH. by exists more.
  - by eexists.
Qed.

Lemma filter_weaker (p q : number -> bool) (l : list number) :
  (forall s, p s = true -> q s = true) ->
  List.filter p l `sublist_of` List.filter q l.
Proof.
  intros Hpq. induction l as [|s l IH]; [done|]. cbn [List.filter].
  destruct (p s) eqn:Hp.
  - rewrite (Hpq s Hp). by apply sublist_skip.
  - destruct (q s); [by apply sublist_cons|done].
Qed.

Lemma omap_occurrences (f : number -> option Task) (l1 l2 : list number) :
  l1 `sublist_of` l2 -> omap f l1 `sublist_of` omap f l2.
Proof.
  induction 1 as [|s l1 l2 _ IH|s l1 l2 _ IH]; [done| |];
    cbn [omap list_omap]; destruct (f s); try done.
  - by apply sublist_skip.
  - by apply sublist_cons.
Qed.

Section WindowFacts.

Variable DateParse : string -> number.
Variable LocalTZA : Z -> bool -> Z.

Lemma overlapsWindow_wider s e (windowStart windowEnd windowStart' windowEnd' : Z) :
  windowStart' <= windowStart -> windowEnd <= windowEnd' ->
  overlapsWindow s e (Some windowStart) (Some windowEnd) = true ->
  overlapsWindow s e (Some windowStart') (Some windowEnd') = true.
Proof.
  intros Hs He. unfold overlapsWindow. rewrite !andb_true_iff.
  rewrite !num_lt_true, !num_gt_true.
  intros [(x & y & -> & [= <-] & Hlt) (x' & y' & -> & [= <-] & Hgt)].
  split; eexists _, _; (split_and!; [done..|lia]).
Qed.

Lemma expandTaskSpec_wider task
    (windowStart windowEnd windowStart' windowEnd' : Z) :
  windowStart' <= windowStart -> windowEnd <= windowEnd' ->
  expandTaskSpec DateParse LocalTZA task (Some windowStart) (Some windowEnd)
  `sublist_of`
  expandTaskSpec DateParse LocalTZA task (Some windowStart') (Some windowEnd').
Proof.
  intros Hs He. unfold expandTaskSpec.
  destruct (recurrenceRule task) as [r|].
  - apply omap_occurrences. unfold visitedStarts.
    destruct (takeWhile_weaker
                (fun s => negb (walkStops DateParse r (Some windowEnd) s))
                (fun s => negb (walkStops DateParse r (Some windowEnd') s))
                (map (candidateStart DateParse LocalTZA task r) (seq 0 1000)))
      as [more ->].
    { intros [sk|]; [|done]. cbn [walkStops]. rewrite !negb_true_iff.
      rewrite !orb_false_iff. intros [H1 H2]. split; [|done].
      apply Z.leb_gt. apply Z.leb_gt in H1. lia. }
    rewrite List.filter_app. apply sublist_inserts_r, filter_weaker.
    intros s. by apply overlapsWindow_wider.
  - destruct (overlapsWindow _ _ (Some windowStart) _) eqn:Ho.
    + by rewrite (overlapsWindow_wider _ _ _ _ _ _ Hs He Ho).
    + apply sublist_nil_l.
Qed.

Lemma expansionSpec_wider tasks
    (windowStart windowEnd windowStart' windowEnd' : Z) :
  windowStart' <= windowStart -> windowEnd <= windowEnd' ->
  expansionSpec DateParse LocalTZA tasks (Some windowStart) (Some windowEnd)
  `sublist_of`
  expansionSpec DateParse LocalTZA tasks (Some windowStart') (Some windowEnd').
Proof.
  intros Hs He. induction tasks as [|task tasks IH]; [done|].
  cbn [expansionSpec flat_map]. apply sublist_app; [|done].
  by apply expandTaskSpec_wider.
Qed.

Lemma expansionSpec_app l1 l2 windowStart windowEnd :
  expansionSpec DateParse LocalTZA (l1 ++ l2) windowStart windowEnd
  = expansionSpec DateParse LocalTZA l1 windowStart windowEnd ++
    expansionSpec DateParse LocalTZA l2 windowStart windowEnd.
Proof. unfold expansionSpec. by rewrite flat_map_app. Qed.

Lemma expansionSpec_length tasks windowStart windowEnd :
  (length (expansionSpec DateParse LocalTZA tasks windowStart windowEnd)
   <= 1000 * length tasks)%nat.
Proof.
  induction tasks as [|task tasks IH]; [done|].
  cbn [expansionSpec flat_map]. rewrite length_app. cbn [length].
  fold (expansionSpec DateParse LocalTZA tasks windowStart windowEnd).
  assert (length (expandTaskSpec DateParse LocalTZA task windowStart windowEnd)
          <= 1000)%nat; [|lia].
  destruct (recurrenceRule task) as [r|] eqn:Hr.
  - by eapply expandTaskSpec_bounded.
  - unfold expandTaskSpec. rewrite Hr. case_match; simpl; lia.
Qed.

End WindowFacts.

(** X4, [generateRecurringTasks].  In a host at a fixed offset from UTC,
    the expansion of tasks that have distinct identifiers, each without
    the separator and without a colon at its end, and none of whose
    recurrence intervals is a Number below 1, holds no identifier twice,
    whatever the window is. *)
Theorem X4_expansion_ids_distinct (DateParse : string -> number) (offset : Z)
    (tasks : list Task) (windowStart windowEnd : number) :
  Z.abs offset <= Time.msPerDay ->
  NoDup (id <$> tasks) ->
  Forall (fun t => codecSafe (id t)) tasks ->
  Forall positiveInterval tasks ->
  exists expanded,
    generateRecurringTasks DateParse (LocalTZA_fixed offset) tasks
      windowStart windowEnd = Some expanded /\
    NoDup (id <$> expanded).
Proof.
  intros Hoff Hnd Hsafe Hpos. eexists. split.
  - apply generateRecurringTasks_expansionSpec.
  - by apply expansion_ids_distinct.
Qed.

Lemma X4_expansion_ids_distinct_witness :
  Z.abs utc8 <= Time.msPerDay /\
  wellFormed twoTasks /\
  exists expanded,
    generateRecurringTasks DateParseISO (LocalTZA_fixed utc8) twoTasks
      (Some jan1) (Some (jan1 + hours 72)) = Some expanded /\
    NoDup (id <$> expanded).
Proof.
  assert (Z.abs utc8 <= Time.msPerDay) as Hoff by (vm_compute; discriminate).
  split; [done|]. split; [exact twoTasks_wellFormed|].
  destruct twoTasks_wellFormed as (Hnd & Hsafe & Hpos).
  exact (X4_expansion_ids_distinct DateParseISO utc8 twoTasks
           (Some jan1) (Some (jan1 + hours 72)) Hoff Hnd Hsafe Hpos).
Defined.


(** X5, the loop of [generateRecurringTasks].  In a host at a fixed offset
    from UTC, the occurrences emitted for one recurring task whose interval
    is no Number below 1 come in strictly increasing order of their
    starts: their [start] fields are the ISO timestamps, and their
    identifiers the encodings, of a strictly increasing list of valid
    instants. *)
Theorem X5_series_in_order (DateParse : string -> number) (offset : Z)
    (task : Task) (r : RecurrenceConfig) (windowStart windowEnd : number) :
  Z.abs offset <= Time.msPerDay ->
  recurrenceRule task = Some r ->
  positiveInterval task ->
  exists expanded zs,
    generateRecurringTasks DateParse (LocalTZA_fixed offset) [task]
      windowStart windowEnd = Some expanded /\
    StronglySorted Z.lt zs /\
    Forall (fun z => Z.abs z <= Time.maxTime) zs /\
    start <$> expanded = toISOString <$> zs /\
    id <$> expanded = (fun z => virtualIdOf (id task) (toISOString z)) <$> zs.
Proof.
  intros Hoff Hr Hpos.
  destruct (series_increasing DateParse offset Hoff task r windowStart windowEnd Hr)
    as (zs & Hsorted & Hvalid & Hid & Hstart).
  { apply recurrenceRule_Some in Hr as [Hrec _].
    unfold positiveInterval in Hpos. rewrite Hrec in Hpos.
    destruct (interval r) as [[m|]|]; simpl; intros n [= <-]; [done|lia]. }
  eexists _, zs. split; [apply generateRecurringTasks_expansionSpec|].
  unfold expansionSpec. cbn [flat_map]. rewrite app_nil_r. by split_and!.
Qed.

Lemma X5_series_in_order_witness :
  Z.abs utc8 <= Time.msPerDay /\
  recurrenceRule (standup (Some 1))
    = Some {| frequency := DAILY; interval := Some (Some 1);
              until := None |} /\
  positiveInterval (standup (Some 1)) /\
  exists expanded zs,
    generateRecurringTasks DateParseISO (LocalTZA_fixed utc8)
      [standup (Some 1)] (Some jan1) (Some (jan1 + hours 72))
      = Some expanded /\
    StronglySorted Z.lt zs /\
    Forall (fun z => Z.abs z <= Time.maxTime) zs /\
    start <$> expanded = toISOString <$> zs /\
    id <$> expanded
    = (fun z => virtualIdOf (id (standup (Some 1))) (toISOString z)) <$> zs.
Proof.
  assert (Z.abs utc8 <= Time.msPerDay) as Hoff by (vm_compute; discriminate).
  assert (positiveInterval (standup (Some 1))) as Hpos
    by (vm_compute; discriminate).
  split_and!; [done|reflexivity|done|].
  exact (X5_series_in_order DateParseISO utc8 (standup (Some 1)) _
           (Some jan1) (Some (jan1 + hours 72)) Hoff eq_refl Hpos).
Defined.


(** X6, the iteration cap of [generateRecurringTasks].  The expansion
    never throws and never returns more than 1000 tasks per task of the
    list, whatever the tasks, the window and the host are. *)
Theorem X6_expansion_cap (DateParse : string -> number)
    (LocalTZA : Z -> bool -> Z) (tasks : list Task)
    (windowStart windowEnd : number) :
  exists expanded,
    generateRecurringTasks DateParse LocalTZA tasks windowStart windowEnd
      = Some expanded /\
    (length expanded <= 1000 * length tasks)%nat.
Proof.
  eexists. split; [apply generateRecurringTasks_expansionSpec|].
  apply expansionSpec_length.
Qed.

(** X7, [generateRecurringTasks] after [handleBatchImport] and after
    [handleSaveTask] of a new task.  Both handlers append to the list, and
    the expansion works task by task: what was expanded before stays, in
    its order, at the head of the expansion of the new list; what is
    added behind is the expansion of the added tasks alone. *)
Theorem X7_expansion_after_adding (DateParse : string -> number)
    (LocalTZA : Z -> bool -> Z) (randomUUID : nat -> string)
    (calls : nat) (prev : list Task) (windowStart windowEnd : number) :
  exists before,
    generateRecurringTasks DateParse LocalTZA prev windowStart windowEnd
      = Some before /\
    (forall newTasks, exists added,
       generateRecurringTasks DateParse LocalTZA
         (formatTasks randomUUID calls newTasks).2 windowStart windowEnd
         = Some added /\
       generateRecurringTasks DateParse LocalTZA
         (handleBatchImport randomUUID newTasks (calls, prev)).2
         windowStart windowEnd = Some (before ++ added)) /\
    (forall taskData, exists added,
       generateRecurringTasks DateParse LocalTZA
         [createTask (randomUUID calls) taskData] windowStart windowEnd
         = Some added /\
       generateRecurringTasks DateParse LocalTZA
         (handleSaveTask randomUUID None taskData (calls, prev)).2
         windowStart windowEnd = Some (before ++ added)).
Proof.
  eexists. split; [apply generateRecurringTasks_expansionSpec|]. split.
  - intros newTasks. eexists.
    split; [apply generateRecurringTasks_expansionSpec|].
    rewrite generateRecurringTasks_expansionSpec. f_equal.
    unfold handleBatchImport.
    destruct (formatTasks randomUUID calls newTasks) as [calls' formatted].
    cbn [snd]. apply expansionSpec_app.
  - intros taskData. eexists.
    split; [apply generateRecurringTasks_expansionSpec|].
    rewrite generateRecurringTasks_expansionSpec. f_equal.
    cbn [handleSaveTask snd]. apply expansionSpec_app.
Qed.

(** X8, the window of [generateRecurringTasks].  Widening the window never
    loses an occurrence: the expansion over a window is a sublist (same
    tasks, same order) of the expansion over any window that starts no
    later and ends no earlier. *)
Theorem X8_wider_window (DateParse : string -> number)
    (LocalTZA : Z -> bool -> Z) (tasks : list Task)
    (windowStart windowEnd windowStart' windowEnd' : Z) :
  windowStart' <= windowStart -> windowEnd <= windowEnd' ->
  exists narrow wide,
    generateRecurringTasks DateParse LocalTZA tasks
      (Some windowStart) (Some windowEnd) = Some narrow /\
    generateRecurringTasks DateParse LocalTZA tasks
      (Some windowStart') (Some windowEnd') = Some wide /\
    narrow `sublist_of` wide.
Proof.
  intros Hs He. eexists _, _.
  split; [apply generateRecurringTasks_expansionSpec|].
  split; [apply generateRecurringTasks_expansionSpec|].
  by apply expansionSpec_wider.
Qed.

Lemma X8_wider_window_witness :
  jan1 <= jan1 + hours 9 /\ jan1 + hours 10 <= jan1 + hours 72 /\
  exists narrow wide,
    generateRecurringTasks DateParseISO LocalTZA_UTC twoTasks
      (Some (jan1 + hours 9)) (Some (jan1 + hours 10)) = Some narrow /\
    generateRecurringTasks DateParseISO LocalTZA_UTC twoTasks
      (Some jan1) (Some (jan1 + hours 72)) = Some wide /\
    narrow `sublist_of` wide.
Proof.
  assert (jan1 <= jan1 + hours 9) as Hs by (vm_compute; discriminate).
  assert (jan1 + hours 10 <= jan1 + hours 72) as He
    by (vm_compute; discriminate).
  split_and!; [done..|].
  exact (X8_wider_window DateParseISO LocalTZA_UTC twoTasks _ _ _ _ Hs He).
Defined.

(** ** The windows of the views, in a host at a fixed offset *)

Lemma WeekDay_range t : 0 <= WeekDay t <= 6.
Proof. unfold WeekDay. Z.div_mod_to_equations. lia. Qed.

Lemma filter_shown (keep : Task -> bool) (l1 l2 : list Task) :
  l1 `sublist_of` l2 -> List.filter keep l1 `sublist_of` List.filter keep l2.
Proof.
  induction 1 as [|t l1 l2 _ IH|t l1 l2 _ IH]; [done| |];
    cbn [List.filter]; destruct (keep t); try done.
  - by apply sublist_skip.
  - by apply sublist_cons.
Qed.

Section ViewWindows.

Variable offset : Z.

Lemma getDate_fixed t :
  getDate (LocalTZA_fixed offset) t = Time.DateFromTime (t + offset).
Proof. reflexivity. Qed.

Lemma getDay_fixed t : getDay (LocalTZA_fixed offset) t = WeekDay (t + offset).
Proof. reflexivity. Qed.

Lemma dayRange_fixed t :
  Z.abs t <= Time.maxTime - 2 * Time.msPerDay ->
  dayRange (LocalTZA_fixed offset) (Some t)
  = (Some (midnight offset t), Some (midnight offset t + 86399999)).
Proof.
  intros Ht. unfold dayRange, Date_setHours. cbn [mbind option_bind].
  rewrite !setHours_fixed. unfold midnight.
  change (Time.MakeTime 0 0 0 0) with 0.
  change (Time.MakeTime 23 59 59 999) with 86399999.
  rewrite !TimeClip_valid;
    [f_equal; f_equal; lia|unfold Time.Day; TimeFacts.zify_div; lia..].
Qed.

Lemma midnight_le t : midnight offset t <= t < midnight offset t + Time.msPerDay.
Proof. unfold midnight, Time.Day. TimeFacts.zify_div. lia. Qed.

Lemma weekRange_fixed t :
  Z.abs t <= Time.maxTime - 9 * Time.msPerDay ->
  let sunday := midnight offset t - WeekDay (t + offset) * Time.msPerDay in
  weekRange (LocalTZA_fixed offset) (Some t)
  = (Some sunday, Some (sunday + 7 * Time.msPerDay)).
Proof.
  intros Ht sunday. unfold weekRange, Date_setHours. cbn [mbind option_bind].
  pose proof (WeekDay_range (t + offset)) as Hw.
  pose proof (midnight_le t) as Hm.
  pose proof (TimeFacts.DateFromTime_range (t + offset)) as Hd.
  rewrite setDate_fixed, getDate_fixed, getDay_fixed. unfold Num.sub.
  rewrite NumFacts.fl_small by lia.
  rewrite TimeClip_valid by (unfold Time.maxTime, Time.msPerDay in *; lia).
  cbn [mbind option_bind]. rewrite setHours_fixed.
  change (Time.MakeTime 0 0 0 0) with 0.
  assert (Time.Day (t + (Time.DateFromTime (t + offset)
                         - WeekDay (t + offset)
                         - Time.DateFromTime (t + offset)) * Time.msPerDay
                    + offset) * Time.msPerDay + 0 - offset = sunday) as ->.
  { subst sunday. unfold midnight, Time.Day. TimeFacts.zify_div. lia. }
  rewrite TimeClip_valid
    by (subst sunday; unfold Time.maxTime, Time.msPerDay in *; lia).
  cbn [mbind option_bind]. rewrite setDate_fixed, getDate_fixed.
  unfold Num.add.
  pose proof (TimeFacts.DateFromTime_range (sunday + offset)) as Hd'.
  rewrite NumFacts.fl_small by lia.
  rewrite TimeClip_valid
    by (subst sunday; unfold Time.maxTime, Time.msPerDay in *; lia).
  do 3 f_equal. lia.
Qed.

Lemma sunday_WeekDay t :
  WeekDay (midnight offset t - WeekDay (t + offset) * Time.msPerDay + offset) = 0 /\
  Time.TimeWithinDay
    (midnight offset t - WeekDay (t + offset) * Time.msPerDay + offset) = 0.
Proof.
  unfold midnight, WeekDay, Time.Day, Time.TimeWithinDay.
  TimeFacts.zify_div. lia.
Qed.

End ViewWindows.

(** X10, the Day window of [visibleTasks] and of [checkReminders]
    ([setHours(0,0,0,0)] and [setHours(23,59,59,999)]).  In a host at a
    fixed offset from UTC the window of a valid date starts at the local
    midnight at or before it, ends 86399999 ms later, on the last
    millisecond of the same local day, and holds the date. *)
Theorem X10_day_window (offset t : Z) :
  Z.abs t <= Time.maxTime - 2 * Time.msPerDay ->
  exists dayStart,
    dayRange (LocalTZA_fixed offset) (Some t)
      = (Some dayStart, Some (dayStart + 86399999)) /\
    Time.TimeWithinDay (LocalTime (LocalTZA_fixed offset) dayStart) = 0 /\
    Time.Day (LocalTime (LocalTZA_fixed offset) dayStart)
      = Time.Day (LocalTime (LocalTZA_fixed offset) t) /\
    dayStart <= t <= dayStart + 86399999.
Proof.
  intros Ht. exists (midnight offset t).
  split; [by apply dayRange_fixed|].
  pose proof (midnight_le offset t).
  unfold LocalTime, LocalTZA_fixed, midnight, Time.TimeWithinDay, Time.Day in *.
  split_and!; TimeFacts.zify_div; lia.
Qed.

Lemma X10_day_window_witness :
  Z.abs beforeStandup <= Time.maxTime - 2 * Time.msPerDay /\
  exists dayStart,
    dayRange (LocalTZA_fixed utc8) (Some beforeStandup)
      = (Some dayStart, Some (dayStart + 86399999)) /\
    Time.TimeWithinDay (LocalTime (LocalTZA_fixed utc8) dayStart) = 0 /\
    Time.Day (LocalTime (LocalTZA_fixed utc8) dayStart)
      = Time.Day (LocalTime (LocalTZA_fixed utc8) beforeStandup) /\
    dayStart <= beforeStandup <= dayStart + 86399999.
Proof.
  assert (Z.abs beforeStandup <= Time.maxTime - 2 * Time.msPerDay) as Ht
    by (vm_compute; discriminate).
  split; [done|]. exact (X10_day_window utc8 beforeStandup Ht).
Defined.


(** X11, the Week window of [visibleTasks]
    ([setDate(getDate() - getDay())], [setHours(0,0,0,0)], then
    [setDate(getDate() + 7)]).  In a host at a fixed offset from UTC the
    window of a valid date starts at local midnight of a Sunday, ends
    exactly seven days later, holds the date, and holds the Day window of
    the same date. *)
Theorem X11_week_window (offset t : Z) :
  Z.abs t <= Time.maxTime - 9 * Time.msPerDay ->
  exists weekStart dayStart,
    weekRange (LocalTZA_fixed offset) (Some t)
      = (Some weekStart, Some (weekStart + 7 * Time.msPerDay)) /\
    getDay (LocalTZA_fixed offset) weekStart = 0 /\
    Time.TimeWithinDay (LocalTime (LocalTZA_fixed offset) weekStart) = 0 /\
    weekStart <= t < weekStart + 7 * Time.msPerDay /\
    dayRange (LocalTZA_fixed offset) (Some t)
      = (Some dayStart, Some (dayStart + 86399999)) /\
    weekStart <= dayStart /\
    dayStart + 86399999 < weekStart + 7 * Time.msPerDay.
Proof.
  intros Ht. eexists _, (midnight offset t).
  split; [by apply weekRange_fixed|].
  pose proof (sunday_WeekDay offset t) as [Hw Hm].
  pose proof (WeekDay_range (t + offset)).
  pose proof (midnight_le offset t).
  unfold getDay, LocalTime, LocalTZA_fixed.
  split_and!; try done; try (unfold Time.msPerDay in *; lia).
  apply dayRange_fixed; unfold Time.msPerDay in *; lia.
Qed.

Lemma X11_week_window_witness :
  Z.abs beforeStandup <= Time.maxTime - 9 * Time.msPerDay /\
  exists weekStart dayStart,
    weekRange (LocalTZA_fixed utc8) (Some beforeStandup)
      = (Some weekStart, Some (weekStart + 7 * Time.msPerDay)) /\
    getDay (LocalTZA_fixed utc8) weekStart = 0 /\
    Time.TimeWithinDay (LocalTime (LocalTZA_fixed utc8) weekStart) = 0 /\
    weekStart <= beforeStandup < weekStart + 7 * Time.msPerDay /\
    dayRange (LocalTZA_fixed utc8) (Some beforeStandup)
      = (Some dayStart, Some (dayStart + 86399999)) /\
    weekStart <= dayStart /\
    dayStart + 86399999 < weekStart + 7 * Time.msPerDay.
Proof.
  assert (Z.abs beforeStandup <= Time.maxTime - 9 * Time.msPerDay) as Ht
    by (vm_compute; discriminate).
  split; [done|]. exact (X11_week_window utc8 beforeStandup Ht).
Defined.


(** X9, [visibleTasks] in Day mode and in Week mode.  In a host at a fixed
    offset from UTC, for the same tasks, date and search text, what the Day
    mode computes is a sublist (same tasks, same order) of what the Week
    mode computes; neither throws. *)
Theorem X9_day_within_week (DateParse : string -> number)
    (toLowerCase trim : string -> string) (offset t : Z)
    (tasks : list Task) (searchQuery : string) :
  Z.abs t <= Time.maxTime - 9 * Time.msPerDay ->
  exists ofDay ofWeek,
    visibleTasks DateParse (LocalTZA_fixed offset) toLowerCase trim
      tasks DAY (Some t) searchQuery = Some ofDay /\
    visibleTasks DateParse (LocalTZA_fixed offset) toLowerCase trim
      tasks WEEK (Some t) searchQuery = Some ofWeek /\
    ofDay `sublist_of` ofWeek.
Proof.
  intros Ht. unfold visibleTasks.
  rewrite dayRange_fixed by (unfold Time.msPerDay in *; lia).
  rewrite weekRange_fixed by done.
  rewrite !generateRecurringTasks_expansionSpec. cbn [mbind option_bind].
  pose proof (WeekDay_range (t + offset)).
  assert (expansionSpec DateParse (LocalTZA_fixed offset) tasks
            (Some (midnight offset t)) (Some (midnight offset t + 86399999))
          `sublist_of`
          expansionSpec DateParse (LocalTZA_fixed offset) tasks
            (Some (midnight offset t - WeekDay (t + offset) * Time.msPerDay))
            (Some (midnight offset t - WeekDay (t + offset) * Time.msPerDay
                   + 7 * Time.msPerDay))) as Hsub
    by (apply expansionSpec_wider; unfold Time.msPerDay; lia).
  destruct (truthy (Some (trim searchQuery))); eexists _, _;
    (split; [done|split; [done|]]); [by apply filter_shown|done].
Qed.

Lemma X9_day_within_week_witness :
  Z.abs beforeStandup <= Time.maxTime - 9 * Time.msPerDay /\
  exists ofDay ofWeek,
    visibleTasks DateParseISO (LocalTZA_fixed utc8) (fun s => s) (fun s => s)
      twoTasks DAY (Some beforeStandup) "stand" = Some ofDay /\
    visibleTasks DateParseISO (LocalTZA_fixed utc8) (fun s => s) (fun s => s)
      twoTasks WEEK (Some beforeStandup) "stand" = Some ofWeek /\
    ofDay `sublist_of` ofWeek.
Proof.
  assert (Z.abs beforeStandup <= Time.maxTime - 9 * Time.msPerDay) as Ht
    by (vm_compute; discriminate).
  split; [done|].
  exact (X9_day_within_week DateParseISO (fun s => s) (fun s => s) utc8
           beforeStandup twoTasks "stand" Ht).
Defined.

(** ** Editing, deleting and toggling through an occurrence *)

Lemma String_eqb_eq (a b : string) : String.eqb a b = bool_decide (a = b).
Proof.
  destruct (String.eqb_spec a b) as [H|H].
  - by rewrite bool_decide_eq_true_2.
  - by rewrite bool_decide_eq_false_2.
Qed.

Lemma same_id_same_task (tasks : list Task) (a b : Task) :
  NoDup (id <$> tasks) -> a ∈ tasks -> b ∈ tasks -> id a = id b -> a = b.
Proof.
  induction tasks as [|t tasks IH]; [by intros _ ?%elem_of_nil|].
  cbn [fmap list_fmap]. rewrite NoDup_cons.
  intros [Hfresh Hnd] [->|Ha]%elem_of_cons [->|Hb]%elem_of_cons Heq;
    [done| | |by apply IH].
  - destruct Hfresh. rewrite Heq. by apply list_elem_of_fmap_2.
  - destruct Hfresh. rewrite <- Heq. by apply list_elem_of_fmap_2.
Qed.

Lemma filter_all (keep : Task -> bool) (l : list Task) :
  (forall o, o ∈ l -> keep o = true) -> List.filter keep l = l.
Proof.
  induction l as [|o l IH]; intros H; [done|]. cbn [List.filter].
  rewrite (H o) by apply list_elem_of_here. f_equal. apply IH.
  intros o' Ho'. apply H. by apply list_elem_of_further.
Qed.

Lemma filter_none (keep : Task -> bool) (l : list Task) :
  (forall o, o ∈ l -> keep o = false) -> List.filter keep l = [].
Proof.
  induction l as [|o l IH]; intros H; [done|]. cbn [List.filter].
  rewrite (H o) by apply list_elem_of_here. apply IH.
  intros o' Ho'. apply H. by apply list_elem_of_further.
Qed.

Section ThroughOccurrences.

Variable DateParse : string -> number.
Variable LocalTZA : Z -> bool -> Z.

Lemma handleEditTask_emitted tasks windowStart windowEnd o :
  Forall (fun t => codecSafe (id t)) tasks ->
  o ∈ expansionSpec DateParse LocalTZA tasks windowStart windowEnd ->
  exists master,
    handleEditTask tasks o = Some master /\ master ∈ tasks /\
    id master = seriesOf o /\
    (NoDup (id <$> tasks) ->
     o ∈ expandTaskSpec DateParse LocalTZA master windowStart windowEnd).
Proof.
  intros Hsafe Ho. rewrite Forall_forall in Hsafe.
  apply expansionSpec_elem_of in Ho as (task & Hin & Ho).
  pose proof (seriesOf_emitted _ _ _ _ _ _ (Hsafe _ Hin) Ho) as Hseries.
  unfold handleEditTask. fold (seriesOf o).
  destruct (List.find (fun t => String.eqb (id t) (seriesOf o)) tasks)
    as [master|] eqn:Hfind.
  - apply find_some in Hfind as [Hm Heq]. apply String.eqb_eq in Heq.
    apply list_elem_of_In in Hm.
    exists master. split_and!; [done..|]. intros Hnd.
    by rewrite (same_id_same_task tasks master task Hnd Hm Hin)
      by congruence.
  - apply list_elem_of_In in Hin.
    pose proof (find_none _ _ Hfind task Hin) as Hno. cbn beta in Hno.
    rewrite Hseries, String.eqb_refl in Hno. discriminate.
Qed.

Lemma expansionSpec_delete tasks windowStart windowEnd series :
  Forall (fun t => codecSafe (id t)) tasks ->
  expansionSpec DateParse LocalTZA
    (List.filter (fun t => negb (String.eqb (id t) series)) tasks)
    windowStart windowEnd
  = List.filter (fun o => negb (String.eqb (seriesOf o) series))
      (expansionSpec DateParse LocalTZA tasks windowStart windowEnd).
Proof.
  induction tasks as [|task tasks IH]; intros Hsafe; [done|].
  apply Forall_cons in Hsafe as [Hs Hsafe].
  cbn [List.filter expansionSpec flat_map]. rewrite List.filter_app.
  fold (expansionSpec DateParse LocalTZA tasks windowStart windowEnd).
  rewrite <- (IH Hsafe).
  destruct (String.eqb (id task) series) eqn:Heq; cbn [negb].
  - rewrite (filter_none _ (expandTaskSpec _ _ task _ _)); [done|]. intros o Ho.
    by rewrite (seriesOf_emitted _ _ _ _ _ _ Hs Ho), Heq.
  - cbn [expansionSpec flat_map]. f_equal.
    rewrite (filter_all _ (expandTaskSpec _ _ task _ _)); [done|]. intros o Ho.
    by rewrite (seriesOf_emitted _ _ _ _ _ _ Hs Ho), Heq.
Qed.

End ThroughOccurrences.

(** X12, [handleEditTask] on what [generateRecurringTasks] emits.  When
    no identifier of the list holds the separator or ends in a colon, a
    click on any task or occurrence of the expansion finds a master task
    to edit: a task of the list whose identifier is the series identifier
    decoded from the occurrence, and, when the identifiers of the list are
    distinct, the very task whose expansion holds the occurrence. *)
Theorem X12_edit_finds_master (DateParse : string -> number)
    (LocalTZA : Z -> bool -> Z) (tasks expanded : list Task)
    (windowStart windowEnd : number) (o : Task) :
  Forall (fun t => codecSafe (id t)) tasks ->
  generateRecurringTasks DateParse LocalTZA tasks windowStart windowEnd
    = Some expanded ->
  o ∈ expanded ->
  exists master,
    handleEditTask tasks o = Some master /\ master ∈ tasks /\
    id master = seriesOf o /\
    (NoDup (id <$> tasks) ->
     exists own,
       generateRecurringTasks DateParse LocalTZA [master]
         windowStart windowEnd = Some own /\ o ∈ own).
Proof.
  intros Hsafe. rewrite generateRecurringTasks_expansionSpec. intros [= <-] Ho.
  destruct (handleEditTask_emitted DateParse LocalTZA tasks _ _ o Hsafe Ho)
    as (master & Hfind & Hin & Hid & Hown).
  exists master. split_and!; [done..|]. intros Hnd. eexists.
  split; [apply generateRecurringTasks_expansionSpec|].
  unfold expansionSpec. cbn [flat_map]. rewrite app_nil_r. auto.
Qed.

Lemma X12_edit_finds_master_witness :
  Forall (fun t => codecSafe (id t)) twoTasks /\
  generateRecurringTasks DateParseISO LocalTZA_UTC twoTasks
    (Some jan1) (Some (jan1 + hours 24))
    = Some [standupOccurrence (Some 1); meeting] /\
  standupOccurrence (Some 1) ∈ [standupOccurrence (Some 1); meeting] /\
  exists master,
    handleEditTask twoTasks (standupOccurrence (Some 1)) = Some master /\
    master ∈ twoTasks /\
    id master = seriesOf (standupOccurrence (Some 1)) /\
    (NoDup (id <$> twoTasks) ->
     exists own,
       generateRecurringTasks DateParseISO LocalTZA_UTC [master]
         (Some jan1) (Some (jan1 + hours 24)) = Some own /\
       standupOccurrence (Some 1) ∈ own).
Proof.
  destruct twoTasks_wellFormed as (_ & Hsafe & _).
  assert (generateRecurringTasks DateParseISO LocalTZA_UTC twoTasks
            (Some jan1) (Some (jan1 + hours 24))
          = Some [standupOccurrence (Some 1); meeting]) as Hexp
    by (vm_compute; reflexivity).
  assert (standupOccurrence (Some 1) ∈ [standupOccurrence (Some 1); meeting])
    as Hin by apply list_elem_of_here.
  split_and!; [done..|].
  exact (X12_edit_finds_master DateParseISO LocalTZA_UTC twoTasks _ _ _ _
           Hsafe Hexp Hin).
Defined.


(** X13, [handleDeleteTask] followed by [generateRecurringTasks].  A
    declined confirmation changes nothing.  A confirmed deletion, asked
    with a plain or a composite identifier, removes the whole series:
    when no identifier of the list holds the separator or ends in a colon,
    the expansion of the new list is the old expansion without the tasks
    and occurrences of the decoded series, everything else kept in its
    order. *)
Theorem X13_delete_series (DateParse : string -> number)
    (LocalTZA : Z -> bool -> Z) (tasks : list Task) (asked : string)
    (windowStart windowEnd : number) :
  Forall (fun t => codecSafe (id t)) tasks ->
  handleDeleteTask false asked tasks = tasks /\
  exists before,
    generateRecurringTasks DateParse LocalTZA tasks windowStart windowEnd
      = Some before /\
    generateRecurringTasks DateParse LocalTZA
      (handleDeleteTask true asked tasks) windowStart windowEnd
      = Some (List.filter
                (fun o => negb (String.eqb (seriesOf o)
                                  (originalId (parseVirtualId asked))))
                before).
Proof.
  intros Hsafe. split; [done|]. eexists.
  split; [apply generateRecurringTasks_expansionSpec|].
  rewrite generateRecurringTasks_expansionSpec. f_equal.
  by apply expansionSpec_delete.
Qed.

Lemma X13_delete_series_witness :
  Forall (fun t => codecSafe (id t)) twoTasks /\
  handleDeleteTask false "s::2024-01-01T09:00:00.000Z" twoTasks = twoTasks /\
  exists before,
    generateRecurringTasks DateParseISO LocalTZA_UTC twoTasks
      (Some jan1) (Some (jan1 + hours 72)) = Some before /\
    generateRecurringTasks DateParseISO LocalTZA_UTC
      (handleDeleteTask true "s::2024-01-01T09:00:00.000Z" twoTasks)
      (Some jan1) (Some (jan1 + hours 72))
      = Some (List.filter
                (fun o => negb (String.eqb (seriesOf o)
                   (originalId
                      (parseVirtualId "s::2024-01-01T09:00:00.000Z"))))
                before).
Proof.
  destruct twoTasks_wellFormed as (_ & Hsafe & _).
  split; [done|].
  exact (X13_delete_series DateParseISO LocalTZA_UTC twoTasks
           "s::2024-01-01T09:00:00.000Z" (Some jan1) (Some (jan1 + hours 72))
           Hsafe).
Defined.

(** ** Toggling an occurrence and expanding again *)

Lemma flipped_other i (l : list Task) :
  (forall x, x ∈ l -> id x <> i) -> flipped i <$> (shown <$> l) = shown <$> l.
Proof.
  induction l as [|x l IH]; intros H; [done|]. cbn [fmap list_fmap].
  cbn [fmap list_fmap] in IH. rewrite IH.
  - f_equal. unfold shown, flipped.
    destruct (String.eqb_spec (id x) i) as [Heq|]; [|done].
    by destruct (H x (list_elem_of_here _ _)).
  - intros x' Hx'. apply H. by apply list_elem_of_further.
Qed.

Lemma omap_shown (f f' : number -> option Task)
    (g : string * string * string * bool -> string * string * string * bool)
    (l : list number) :
  (forall s, shown <$> f' s = g <$> (shown <$> f s)) ->
  shown <$> omap f' l = g <$> (shown <$> omap f l).
Proof.
  intros H. induction l as [|s l IH]; [done|]. cbn [omap list_omap].
  specialize (H s). destruct (f s), (f' s); try discriminate; [|done].
  cbn [fmap list_fmap]. cbn [fmap list_fmap] in IH. rewrite IH.
  by injection H as ->.
Qed.

Section ToggleThenExpand.

Variable DateParse : string -> number.
Variable LocalTZA : Z -> bool -> Z.

Lemma candidateStart_start task task' r k :
  start task' = start task ->
  candidateStart DateParse LocalTZA task' r k
  = candidateStart DateParse LocalTZA task r k.
Proof. intros H. induction k as [|k IH]; cbn [candidateStart]; congruence. Qed.

Lemma visitedStarts_start task task' r windowEnd :
  start task' = start task ->
  visitedStarts DateParse LocalTZA task' r windowEnd
  = visitedStarts DateParse LocalTZA task r windowEnd.
Proof.
  intros H. unfold visitedStarts.
  by rewrite (map_ext _ _ (fun k => candidateStart_start task task' r k H)).
Qed.

(** The master flag of a recurring task is not read by the expansion. *)
Lemma expandTaskSpec_setCompleted task r b windowStart windowEnd :
  recurrenceRule task = Some r ->
  expandTaskSpec DateParse LocalTZA (setCompleted task b) windowStart windowEnd
  = expandTaskSpec DateParse LocalTZA task windowStart windowEnd.
Proof.
  intros Hr. unfold expandTaskSpec.
  change (recurrenceRule (setCompleted task b)) with (recurrenceRule task).
  rewrite Hr. by rewrite (visitedStarts_start task (setCompleted task b)).
Qed.

Lemma emitted_not_of series task windowStart windowEnd x i :
  codecSafe (id task) ->
  originalId (parseVirtualId i) = series -> id task <> series ->
  x ∈ expandTaskSpec DateParse LocalTZA task windowStart windowEnd ->
  id x <> i.
Proof.
  intros Hsafe Hi Hne Hx Heq.
  apply (seriesOf_emitted _ _ _ _ _ _ Hsafe) in Hx.
  unfold seriesOf in Hx. rewrite Heq, Hi in Hx. congruence.
Qed.

Lemma recurring_not_plain task r windowStart windowEnd x plain :
  recurrenceRule task = Some r -> codecSafe (id task) -> codecSafe plain ->
  x ∈ expandTaskSpec DateParse LocalTZA task windowStart windowEnd ->
  id x <> plain.
Proof.
  intros Hr Hsafe Hplain Hx.
  assert (x ∈ expansionSpec DateParse LocalTZA [task] windowStart windowEnd)
    as Hin by (unfold expansionSpec; simpl; by rewrite app_nil_r).
  apply expansionSpec_inv in Hin as (task' & ->%list_elem_of_singleton & H).
  destruct H as [(Hn & _)|(r' & k & s & e & _ & _ & _ & _ & _ & ->)];
    [congruence|].
  cbn [instanceOf id]. by apply virtualIdOf_not_plain.
Qed.

(** Toggling by a plain identifier, seen through the expansion. *)
Lemma toggle_plain_shown task plain windowStart windowEnd :
  codecSafe plain -> codecSafe (id task) ->
  shown <$> expandTaskSpec DateParse LocalTZA
              (toggleOne {| originalId := plain; instanceDate := None |} task)
              windowStart windowEnd
  = flipped plain <$>
      (shown <$> expandTaskSpec DateParse LocalTZA task windowStart windowEnd).
Proof.
  intros Hplain Hsafe.
  destruct (decide (id task = plain)) as [Heq|Hne].
  - rewrite toggleOne_plain by done.
    destruct (recurrenceRule task) as [r|] eqn:Hr.
    + rewrite (expandTaskSpec_setCompleted task r) by done.
      symmetry. apply flipped_other. intros x.
      by apply (recurring_not_plain task r).
    + unfold expandTaskSpec.
      change (recurrenceRule (setCompleted task (negb (completed task))))
        with (recurrenceRule task). rewrite Hr.
      change (start (setCompleted task (negb (completed task))))
        with (start task).
      change (end_ (setCompleted task (negb (completed task))))
        with (end_ task).
      case_match; [|done]. cbn [fmap list_fmap]. f_equal.
      unfold shown, flipped. cbn [setCompleted id start end_ completed].
      by rewrite Heq, String.eqb_refl.
  - rewrite toggleOne_other by done. symmetry. apply flipped_other.
    intros x. apply (emitted_not_of plain task); [done| |done].
    by rewrite parseVirtualId_plain.
Qed.

(** Toggling by the identifier of an occurrence, seen through the
    expansion. *)
Lemma toggle_instance_shown task series z0 windowStart windowEnd :
  codecSafe series -> codecSafe (id task) ->
  shown <$> expandTaskSpec DateParse LocalTZA
              (toggleOne {| originalId := series;
                            instanceDate := Some (toISOString z0) |} task)
              windowStart windowEnd
  = flipped (virtualIdOf series (toISOString z0)) <$>
      (shown <$> expandTaskSpec DateParse LocalTZA task windowStart windowEnd).
Proof.
  intros Hseries Hsafe.
  destruct (decide (id task = series)) as [Heq|Hne].
  - unfold toggleOne. cbn [originalId instanceDate].
    rewrite Heq, String.eqb_refl. cbn [negb].
    rewrite truthy_Some by apply toISOString_nonempty. cbn [orElse].
    set (arr := orElse (completedInstances task) []).
    set (arr' := if includes arr (toISOString z0)
                 then List.filter
                        (fun d => negb (String.eqb d (toISOString z0))) arr
                 else arr ++ [toISOString z0]).
    destruct (toggled_instances arr (toISOString z0)) as [Hother Hself].
    fold arr' in Hother, Hself.
    unfold expandTaskSpec.
    change (recurrenceRule (setCompletedInstances task arr'))
      with (recurrenceRule task).
    destruct (recurrenceRule task) as [r|] eqn:Hr.
    + rewrite (visitedStarts_start task (setCompletedInstances task arr'))
        by done.
      apply omap_shown. intros [z|]; [|done]. unfold occurrenceAt.
      change (occurrenceEnd DateParse (setCompletedInstances task arr') (Some z))
        with (occurrenceEnd DateParse task (Some z)).
      destruct (occurrenceEnd DateParse task (Some z)) as [e|]; [|done].
      cbn [fmap option_fmap option_map]. f_equal. unfold shown, flipped.
      cbn [setCompletedInstances id start end_ completed completedInstances
           orElse]. fold arr. rewrite Heq. unfold virtualIdOf. f_equal.
      rewrite String_eqb_eq.
      destruct (decide (toISOString z = toISOString z0)) as [Hz|Hz].
      * rewrite Hz.
        rewrite (bool_decide_eq_true_2
                   (series +:+ "::" +:+ toISOString z0
                    = series +:+ "::" +:+ toISOString z0)) by done.
        destruct (decide (toISOString z0 ∈ arr)) as [Hin|Hin].
        -- rewrite (bool_decide_eq_true_2 _ Hin). cbn [negb].
           apply bool_decide_eq_false_2. tauto.
        -- rewrite (bool_decide_eq_false_2 _ Hin). cbn [negb].
           apply bool_decide_eq_true_2. tauto.
      * rewrite (bool_decide_eq_false_2
                   (series +:+ "::" +:+ toISOString z
                    = series +:+ "::" +:+ toISOString z0)).
        -- apply bool_decide_ext. by apply Hother.
        -- intros H. apply Hz.
           by apply (inj (String.app series)), (inj (String.app "::")) in H.
    + change (start (setCompletedInstances task arr')) with (start task).
      change (end_ (setCompletedInstances task arr')) with (end_ task).
      case_match; [|done]. cbn [fmap list_fmap]. f_equal.
      unfold shown, flipped. cbn [setCompletedInstances id start end_ completed].
      destruct (String.eqb_spec (id task) (virtualIdOf series (toISOString z0)))
        as [Hbad|]; [|done].
      symmetry in Hbad. by apply virtualIdOf_not_plain in Hbad.
  - rewrite toggleOne_other by done. symmetry. apply flipped_other.
    intros x. apply (emitted_not_of series task); [done| |done].
    by rewrite parseVirtualId_virtualIdOf.
Qed.

Lemma expansionSpec_toggled tasks v i windowStart windowEnd :
  (forall task, task ∈ tasks ->
     shown <$> expandTaskSpec DateParse LocalTZA (toggleOne v task)
                 windowStart windowEnd
     = flipped i <$>
         (shown <$> expandTaskSpec DateParse LocalTZA task
                      windowStart windowEnd)) ->
  shown <$> expansionSpec DateParse LocalTZA (map (toggleOne v) tasks)
              windowStart windowEnd
  = flipped i <$>
      (shown <$> expansionSpec DateParse LocalTZA tasks windowStart windowEnd).
Proof.
  induction tasks as [|task tasks IH]; intros H; [done|].
  cbn [map expansionSpec flat_map]. rewrite !fmap_app. f_equal.
  - apply H, list_elem_of_here.
  - apply IH. intros task' Hin. by apply H, list_elem_of_further.
Qed.

Lemma toggle_then_expand tasks windowStart windowEnd o :
  Forall (fun t => codecSafe (id t)) tasks ->
  o ∈ expansionSpec DateParse LocalTZA tasks windowStart windowEnd ->
  shown <$> expansionSpec DateParse LocalTZA (handleToggleComplete o tasks)
              windowStart windowEnd
  = flipped (id o) <$>
      (shown <$> expansionSpec DateParse LocalTZA tasks windowStart windowEnd).
Proof.
  intros Hsafe Ho. rewrite Forall_forall in Hsafe.
  unfold handleToggleComplete. apply expansionSpec_toggled.
  intros task Htask.
  apply expansionSpec_inv in Ho as (task0 & Hin0 & H).
  destruct H as [(_ & -> & _)|(r & k & s & e & _ & _ & _ & _ & _ & ->)].
  - rewrite parseVirtualId_plain by auto. apply toggle_plain_shown; auto.
  - cbn [instanceOf id]. rewrite parseVirtualId_virtualIdOf by auto.
    apply toggle_instance_shown; auto.
Qed.

End ToggleThenExpand.

Lemma setCompleted_twice t :
  setCompleted (setCompleted t (negb (completed t)))
    (negb (completed (setCompleted t (negb (completed t))))) = t.
Proof. destruct t. cbn. by rewrite negb_involutive. Qed.

(** X14, [handleToggleComplete] followed by [generateRecurringTasks].  When
    no identifier of the list holds the separator or ends in a colon,
    toggling any task or occurrence [o] of the expansion and expanding
    again over the same window gives the same entries in the same order,
    with the same identifiers and spans, and with the completion flag
    turned over on exactly the entries whose identifier is that of [o]:
    completion is per occurrence. *)
Theorem X14_toggle_then_expand (DateParse : string -> number)
    (LocalTZA : Z -> bool -> Z) (tasks expanded : list Task)
    (windowStart windowEnd : number) (o : Task) :
  Forall (fun t => codecSafe (id t)) tasks ->
  generateRecurringTasks DateParse LocalTZA tasks windowStart windowEnd
    = Some expanded ->
  o ∈ expanded ->
  exists expanded',
    generateRecurringTasks DateParse LocalTZA (handleToggleComplete o tasks)
      windowStart windowEnd = Some expanded' /\
    shown <$> expanded' = flipped (id o) <$> (shown <$> expanded).
Proof.
  intros Hsafe. rewrite generateRecurringTasks_expansionSpec. intros [= <-] Ho.
  eexists. split; [apply generateRecurringTasks_expansionSpec|].
  by apply toggle_then_expand.
Qed.

Lemma X14_toggle_then_expand_witness :
  Forall (fun t => codecSafe (id t)) twoTasks /\
  generateRecurringTasks DateParseISO LocalTZA_UTC twoTasks
    (Some jan1) (Some (jan1 + hours 24))
    = Some [standupOccurrence (Some 1); meeting] /\
  standupOccurrence (Some 1) ∈ [standupOccurrence (Some 1); meeting] /\
  exists expanded',
    generateRecurringTasks DateParseISO LocalTZA_UTC
      (handleToggleComplete (standupOccurrence (Some 1)) twoTasks)
      (Some jan1) (Some (jan1 + hours 24)) = Some expanded' /\
    shown <$> expanded'
    = flipped (id (standupOccurrence (Some 1))) <$>
        (shown <$> [standupOccurrence (Some 1); meeting]).
Proof.
  destruct twoTasks_wellFormed as (_ & Hsafe & _).
  assert (generateRecurringTasks DateParseISO LocalTZA_UTC twoTasks
            (Some jan1) (Some (jan1 + hours 24))
          = Some [standupOccurrence (Some 1); meeting]) as Hexp
    by (vm_compute; reflexivity).
  assert (standupOccurrence (Some 1) ∈ [standupOccurrence (Some 1); meeting])
    as Hin by apply list_elem_of_here.
  split_and!; [done..|].
  exact (X14_toggle_then_expand DateParseISO LocalTZA_UTC twoTasks _ _ _ _
           Hsafe Hexp Hin).
Defined.


(** X15, [handleToggleComplete] on a plain identifier, as [ListView] calls
    it.  For an identifier without the separator, each task of the list
    with that identifier has its [completed] flag turned over and nothing
    else changed, the other tasks are left as they are, and toggling a
    second time gives back the very list. *)
Theorem X15_toggle_plain (task : Task) (prev : list Task) :
  findSeparator (id task) = None ->
  handleToggleComplete task prev
  = map (fun t => if String.eqb (id t) (id task)
                  then setCompleted t (negb (completed t)) else t) prev /\
  handleToggleComplete task (handleToggleComplete task prev) = prev.
Proof.
  intros Hplain. unfold handleToggleComplete.
  rewrite (parseVirtualId_no_separator _ Hplain).
  assert (forall t,
            toggleOne {| originalId := id task; instanceDate := None |} t
            = if String.eqb (id t) (id task)
              then setCompleted t (negb (completed t)) else t) as Hone.
  { intros t. unfold toggleOne. cbn [originalId instanceDate truthy].
    by destruct (String.eqb (id t) (id task)). }
  split; [by apply map_ext|].
  rewrite map_map. rewrite <- (map_id prev) at 2. apply map_ext. intros t.
  rewrite !Hone. destruct (String.eqb (id t) (id task)) eqn:Heq; [|by rewrite Heq].
  change (id (setCompleted t (negb (completed t)))) with (id t).
  rewrite Heq. apply setCompleted_twice.
Qed.

Lemma X15_toggle_plain_witness :
  findSeparator (id meeting) = None /\
  handleToggleComplete meeting twoTasks
  = map (fun t => if String.eqb (id t) (id meeting)
                  then setCompleted t (negb (completed t)) else t) twoTasks /\
  handleToggleComplete meeting (handleToggleComplete meeting twoTasks)
  = twoTasks.
Proof.
  split; [reflexivity|]. exact (X15_toggle_plain meeting twoTasks eq_refl).
Defined.

(** ** The form and the handlers that save *)

Section SaveFacts.

Variable DateParse : string -> number.

Lemma handleSubmit_saved form data :
  handleSubmit DateParse form = Some (Some data) ->
  exists s e recurrence,
    Date_ofString DateParse (Form.start form) = Some s /\
    Date_ofString DateParse (Form.end_ form) = Some e /\
    s < e /\
    submittedRecurrence DateParse (Form.freq form) (Form.interval form)
      (Form.until form) = Some recurrence /\
    data = {| TaskData.title := Form.title form;
              TaskData.description := Form.description form;
              TaskData.start := toISOString s;
              TaskData.end_ := toISOString e;
              TaskData.priority := Form.priority form;
              TaskData.reminderMinutes := Form.reminderMinutes form;
              TaskData.recurrence := recurrence |}.
Proof.
  unfold handleSubmit.
  destruct (num_ge _ _) eqn:Hge; [discriminate|].
  destruct (submittedRecurrence _ _ _ _) as [recurrence|]; [|discriminate].
  cbn [mbind option_bind].
  destruct (Date_ofString DateParse (Form.start form)) as [s|]; [|discriminate].
  destruct (Date_ofString DateParse (Form.end_ form)) as [e|]; [|discriminate].
  cbn [Date_toISOString mbind option_bind]. intros [= <-].
  exists s, e, recurrence. split_and!; try done.
  unfold num_ge, num_le in Hge. by apply Z.leb_gt in Hge.
Qed.

Lemma handleSubmit_refused form :
  handleSubmit DateParse form = Some None <->
  exists s e,
    Date_ofString DateParse (Form.start form) = Some s /\
    Date_ofString DateParse (Form.end_ form) = Some e /\ e <= s.
Proof.
  unfold handleSubmit. split.
  - destruct (num_ge _ _) eqn:Hge.
    + intros _. apply num_ge_true in Hge as (s & e & Hs & He & Hle).
      exists s, e. split_and!; [done..|lia].
    + destruct (submittedRecurrence _ _ _ _); cbn [mbind option_bind];
        [|discriminate].
      destruct (Date_ofString DateParse (Form.start form)),
        (Date_ofString DateParse (Form.end_ form));
        cbn [Date_toISOString mbind option_bind]; discriminate.
  - intros (s & e & -> & -> & Hle). cbn [num_ge num_le].
    by rewrite (proj2 (Z.leb_le e s) Hle).
Qed.

Lemma submitted_positive freq x text r (t : Task) :
  submittedRecurrence DateParse freq x text = Some r ->
  recurrence t = r -> positiveInterval t.
Proof.
  intros Hsub Hrec. unfold positiveInterval. rewrite Hrec.
  destruct r as [r|]; [|done].
  destruct (submittedRecurrence_interval DateParse freq x text r Hsub)
    as (-> & Hmax).
  destruct x as [[n|]|]; rewrite Hmax; [lia|done..].
Qed.

End SaveFacts.

Lemma ids_toggled v (tasks : list Task) :
  id <$> map (toggleOne v) tasks = id <$> tasks.
Proof.
  induction tasks as [|t tasks IH]; [done|]. cbn [map fmap list_fmap].
  cbn [fmap list_fmap] in IH. by rewrite IH, id_toggleOne.
Qed.

Lemma recurrence_toggleOne v t : recurrence (toggleOne v t) = recurrence t.
Proof. unfold toggleOne. by repeat case_match. Qed.

Lemma Forall_kept (P : Task -> Prop) (keep : Task -> bool) (tasks : list Task) :
  Forall P tasks -> Forall P (List.filter keep tasks).
Proof.
  rewrite !Forall_forall. intros H t Ht.
  apply list_elem_of_In, filter_In in Ht as [Ht _]. by apply H, list_elem_of_In.
Qed.

Lemma wellFormed_delete confirmed asked tasks :
  wellFormed tasks -> wellFormed (handleDeleteTask confirmed asked tasks).
Proof.
  intros (Hnd & Hsafe & Hpos). unfold handleDeleteTask.
  destruct confirmed; [|done].
  split_and!; [by apply NoDup_ids_filter|by apply Forall_kept..].
Qed.

Lemma wellFormed_toggle o tasks :
  wellFormed tasks -> wellFormed (handleToggleComplete o tasks).
Proof.
  intros (Hnd & Hsafe & Hpos). unfold handleToggleComplete, wellFormed.
  rewrite ids_toggled. split; [done|].
  rewrite !Forall_forall in *.
  split; intros t (t0 & <- & Hin%list_elem_of_In)%list_elem_of_In%in_map_iff.
  - rewrite id_toggleOne. auto.
  - unfold positiveInterval. rewrite recurrence_toggleOne. by apply Hpos.
Qed.

Lemma wellFormed_edit randomUUID editing data calls tasks :
  (forall t, recurrence t = TaskData.recurrence data -> positiveInterval t) ->
  wellFormed tasks ->
  wellFormed (handleSaveTask randomUUID (Some editing) data (calls, tasks)).2.
Proof.
  intros Hdata (Hnd & Hsafe & Hpos). cbn [handleSaveTask snd].
  set (f := fun t => if String.eqb (id t) (id editing)
                     then mergeTaskData t data else t).
  assert (forall t, id (f t) = id t) as Hid
    by (intros t; unfold f; by case_match).
  assert (id <$> map f tasks = id <$> tasks) as Hids.
  { clear -Hid. induction tasks as [|t tasks IH]; [done|].
    cbn [map fmap list_fmap]. cbn [fmap list_fmap] in IH. by rewrite IH, Hid. }
  unfold wellFormed. rewrite Hids. split; [done|].
  rewrite !Forall_forall in *.
  split; intros t (t0 & <- & Hin%list_elem_of_In)%list_elem_of_In%in_map_iff.
  - rewrite Hid. auto.
  - unfold f. case_match; [by apply Hdata|by apply Hpos].
Qed.

Lemma wellFormed_create randomUUID data calls tasks :
  (forall t, recurrence t = TaskData.recurrence data -> positiveInterval t) ->
  codecSafe (randomUUID calls) -> randomUUID calls ∉ id <$> tasks ->
  wellFormed tasks ->
  wellFormed (handleSaveTask randomUUID None data (calls, tasks)).2.
Proof.
  intros Hdata Hsafe' Hfresh (Hnd & Hsafe & Hpos). cbn [handleSaveTask snd].
  unfold wellFormed. rewrite fmap_app, !Forall_app. split_and!; try done.
  - apply NoDup_app. split_and!; [done| |apply NoDup_singleton].
    intros i Hi ->%list_elem_of_singleton. done.
  - by apply Forall_singleton.
  - apply Forall_singleton. by apply Hdata.
Qed.

(** X16, the state kept by the handlers of [App.tsx].  A task list with
    distinct identifiers, none with the separator or a colon at its end,
    and with no recurrence interval that is a Number below 1 (an interval
    is absent, at least 1, or [NaN]) stays so under [handleDeleteTask],
    under [handleToggleComplete], under [handleSaveTask] of an edit that
    [TaskForm.handleSubmit] hands over, whatever the state of the form
    is, its interval [undefined] included, and under [handleSaveTask] of
    a new task that [handleSubmit] hands over when the identifier drawn
    can be carried by the codec and is not in the list. *)
Theorem X16_handlers_keep_well_formed (DateParse : string -> number)
    (randomUUID : nat -> string) (calls : nat) (tasks : list Task) :
  wellFormed tasks ->
  (forall confirmed asked,
     wellFormed (handleDeleteTask confirmed asked tasks)) /\
  (forall o, wellFormed (handleToggleComplete o tasks)) /\
  (forall form data editing,
     handleSubmit DateParse form = Some (Some data) ->
     wellFormed
       (handleSaveTask randomUUID (Some editing) data (calls, tasks)).2) /\
  (forall form data,
     handleSubmit DateParse form = Some (Some data) ->
     codecSafe (randomUUID calls) -> randomUUID calls ∉ id <$> tasks ->
     wellFormed (handleSaveTask randomUUID None data (calls, tasks)).2).
Proof.
  intros Hwf.
  assert (forall form data,
            handleSubmit DateParse form = Some (Some data) ->
            forall t, recurrence t = TaskData.recurrence data ->
                      positiveInterval t) as Hdata.
  { intros form data (s & e & r & _ & _ & _ & Hsub & ->)%handleSubmit_saved t.
    cbn [TaskData.recurrence]. by eapply submitted_positive. }
  split_and!.
  - intros. by apply wellFormed_delete.
  - intros. by apply wellFormed_toggle.
  - intros form data editing Hsub. apply wellFormed_edit; [|done]. eauto.
  - intros form data Hsub ??. apply wellFormed_create; [|done..]. eauto.
Qed.

Lemma X16_handlers_keep_well_formed_witness :
  wellFormed twoTasks /\
  (forall confirmed asked,
     wellFormed (handleDeleteTask confirmed asked twoTasks)) /\
  (forall o, wellFormed (handleToggleComplete o twoTasks)) /\
  (forall form data editing,
     handleSubmit DateParseISO form = Some (Some data) ->
     wellFormed
       (handleSaveTask countingUUID (Some editing) data (2%nat, twoTasks)).2) /\
  (forall form data,
     handleSubmit DateParseISO form = Some (Some data) ->
     codecSafe (countingUUID 2) -> countingUUID 2 ∉ id <$> twoTasks ->
     wellFormed (handleSaveTask countingUUID None data (2%nat, twoTasks)).2).
Proof.
  split; [exact twoTasks_wellFormed|].
  exact (X16_handlers_keep_well_formed DateParseISO countingUUID 2 twoTasks
           twoTasks_wellFormed).
Defined.


(** ** An edit and the other series *)

Lemma ids_edited (editing : Task) (data : TaskData.t) (tasks : list Task) :
  id <$> map (fun t => if String.eqb (id t) (id editing)
                       then mergeTaskData t data else t) tasks
  = id <$> tasks.
Proof.
  induction tasks as [|t tasks IH]; [done|]. cbn [map fmap list_fmap].
  cbn [fmap list_fmap] in IH. rewrite IH. f_equal. by case_match.
Qed.

(** Saving the same edit a second time changes nothing more. *)
Lemma edited_twice (editing : Task) (data : TaskData.t) (tasks : list Task) :
  let save := fun t => if String.eqb (id t) (id editing)
                       then mergeTaskData t data else t in
  map save (map save tasks) = map save tasks.
Proof.
  cbv zeta. rewrite map_map. apply map_ext. intros t.
  destruct (String.eqb (id t) (id editing)) eqn:Heq.
  - cbn [mergeTaskData id]. by rewrite Heq.
  - by rewrite Heq.
Qed.

Lemma expansionSpec_edit DateParse LocalTZA (editing : Task)
    (data : TaskData.t) (tasks : list Task) (windowStart windowEnd : number) :
  Forall (fun t => codecSafe (id t)) tasks ->
  List.filter (fun o => negb (String.eqb (seriesOf o) (id editing)))
    (expansionSpec DateParse LocalTZA
       (map (fun t => if String.eqb (id t) (id editing)
                      then mergeTaskData t data else t) tasks)
       windowStart windowEnd)
  = List.filter (fun o => negb (String.eqb (seriesOf o) (id editing)))
      (expansionSpec DateParse LocalTZA tasks windowStart windowEnd).
Proof.
  induction tasks as [|task tasks IH]; intros Hsafe; [done|].
  apply Forall_cons in Hsafe as [Hs Hsafe].
  cbn [map expansionSpec flat_map]. rewrite !List.filter_app.
  fold (expansionSpec DateParse LocalTZA tasks windowStart windowEnd).
  fold (expansionSpec DateParse LocalTZA
          (map (fun t => if String.eqb (id t) (id editing)
                         then mergeTaskData t data else t) tasks)
          windowStart windowEnd).
  rewrite (IH Hsafe). f_equal.
  destruct (String.eqb (id task) (id editing)) eqn:Heq; [|done].
  rewrite (filter_none _ (expandTaskSpec _ _ (mergeTaskData task data) _ _)),
    (filter_none _ (expandTaskSpec _ _ task _ _)); [done| |].
  - intros o Ho. by rewrite (seriesOf_emitted _ _ _ _ _ _ Hs Ho), Heq.
  - intros o Ho.
    assert (codecSafe (id (mergeTaskData task data))) as Hs' by done.
    rewrite (seriesOf_emitted _ _ _ _ _ _ Hs' Ho). cbn [mergeTaskData id].
    by rewrite Heq.
Qed.

(** X17, [handleSaveTask] of an edit followed by [generateRecurringTasks].
    Saving an edit draws no identifier and keeps the identifiers of the
    list in their order; saving the same edit once more changes nothing;
    and when no identifier of the list holds the separator or ends in a
    colon, the views show every other series as before: the expansion of
    the saved list, the series of [editingTask.id] left out, is the
    expansion of the old list with that series left out, in the same
    order, whatever the form data are. *)
Theorem X17_edit_other_series (DateParse : string -> number)
    (LocalTZA : Z -> bool -> Z) (randomUUID : nat -> string) (calls : nat)
    (tasks : list Task) (editing : Task) (data : TaskData.t)
    (windowStart windowEnd : number) :
  Forall (fun t => codecSafe (id t)) tasks ->
  exists saved before after,
    handleSaveTask randomUUID (Some editing) data (calls, tasks)
      = (calls, saved) /\
    handleSaveTask randomUUID (Some editing) data (calls, saved)
      = (calls, saved) /\
    id <$> saved = id <$> tasks /\
    generateRecurringTasks DateParse LocalTZA tasks windowStart windowEnd
      = Some before /\
    generateRecurringTasks DateParse LocalTZA saved windowStart windowEnd
      = Some after /\
    List.filter (fun o => negb (String.eqb (seriesOf o) (id editing))) after
    = List.filter (fun o => negb (String.eqb (seriesOf o) (id editing)))
        before.
Proof.
  intros Hsafe. eexists _, _, _. split_and!.
  - reflexivity.
  - cbn [handleSaveTask]. f_equal. apply edited_twice.
  - apply ids_edited.
  - apply generateRecurringTasks_expansionSpec.
  - apply generateRecurringTasks_expansionSpec.
  - by apply expansionSpec_edit.
Qed.

Lemma X17_edit_other_series_witness :
  Forall (fun t => codecSafe (id t)) twoTasks /\
  exists saved before after,
    handleSaveTask countingUUID (Some meeting) afternoon (2%nat, twoTasks)
      = (2%nat, saved) /\
    handleSaveTask countingUUID (Some meeting) afternoon (2%nat, saved)
      = (2%nat, saved) /\
    id <$> saved = id <$> twoTasks /\
    generateRecurringTasks DateParseISO LocalTZA_UTC twoTasks
      (Some jan1) (Some (jan1 + hours 72)) = Some before /\
    generateRecurringTasks DateParseISO LocalTZA_UTC saved
      (Some jan1) (Some (jan1 + hours 72)) = Some after /\
    List.filter (fun o => negb (String.eqb (seriesOf o) (id meeting))) after
    = List.filter (fun o => negb (String.eqb (seriesOf o) (id meeting)))
        before.
Proof.
  destruct twoTasks_wellFormed as (_ & Hsafe & _).
  split; [done|].
  exact (X17_edit_other_series DateParseISO LocalTZA_UTC countingUUID 2
           twoTasks meeting afternoon (Some jan1) (Some (jan1 + hours 72))
           Hsafe).
Defined.

(** ** The calendar day of a time value *)

Lemma same_day_same_fields a b :
  Time.Day a = Time.Day b <->
  Time.DateFromTime a = Time.DateFromTime b /\
  Time.MonthFromTime a = Time.MonthFromTime b /\
  Time.YearFromTime a = Time.YearFromTime b.
Proof.
  split.
  - intros H.
    assert (Time.YearFromTime a = Time.YearFromTime b) as Hy
      by (unfold Time.YearFromTime; by rewrite H).
    assert (Time.DayWithinYear a = Time.DayWithinYear b) as Hd
      by (unfold Time.DayWithinYear; by rewrite H, Hy).
    assert (Time.InLeapYear a = Time.InLeapYear b) as Hl
      by (unfold Time.InLeapYear; by rewrite Hy).
    assert (Time.MonthFromTime a = Time.MonthFromTime b) as Hm
      by (unfold Time.MonthFromTime; by rewrite Hd, Hl).
    split_and!; [|done..]. unfold Time.DateFromTime. by rewrite Hd, Hm, Hl.
  - intros (Hd & Hm & Hy).
    by rewrite <- (TimeFacts.MakeDay_fields a), <- (TimeFacts.MakeDay_fields b),
      Hd, Hm, Hy.
Qed.

(** ** What the form saves *)

(** A series whose interval is [NaN] is walked no further than its first
    start. *)
Lemma nan_interval_once DateParse LocalTZA task r windowStart windowEnd :
  recurrenceRule task = Some r -> interval r = Some None ->
  (length (expandTaskSpec DateParse LocalTZA task windowStart windowEnd) <= 1)%nat.
Proof.
  intros Hrule Hnan. unfold expandTaskSpec. rewrite Hrule.
  etrans; [apply length_omap_le|]. etrans; [apply filter_length_le|].
  unfold visitedStarts.
  change (seq 0 1000) with (0 :: 1 :: seq 2 998)%nat.
  cbn [map takeWhile candidateStart].
  destruct (negb (walkStops DateParse r windowEnd
                    (Date_ofString DateParse (start task)))); [|cbn; lia].
  assert (nextStart LocalTZA r (Date_ofString DateParse (start task)) = None)
    as ->.
  { unfold nextStart. rewrite Hnan. cbn [orElse]. by case_match. }
  cbn. lia.
Qed.

(** X18, [handleSubmit] of [TaskForm.tsx], for a [Date.parse] that reads
    back what [toISOString] writes.  The form is refused, with nothing
    saved, exactly when both dates parse and the end is not after the
    start.  Whatever is handed to [onSave] has a start and an end that
    are ISO timestamps of valid instants with start before end, the
    instants parsed from the fields; its recurrence is absent exactly
    when the frequency is [None], and otherwise carries that frequency
    and [Math.max(1, interval)]: the larger of 1 and the Number in the
    field, and [NaN] when the field holds [undefined], as it does once an
    edit has opened on a recurrence without interval
    ([initialInterval]), or [NaN].  A series saved with [NaN] is expanded
    to one occurrence at most, whatever the window. *)
Theorem X18_submit_saves_valid (DateParse : string -> number) (form : Form.t) :
  (forall t, Z.abs t <= Time.maxTime -> DateParse (toISOString t) = Some t) ->
  (handleSubmit DateParse form = Some None <->
   exists s e,
     Date_ofString DateParse (Form.start form) = Some s /\
     Date_ofString DateParse (Form.end_ form) = Some e /\ e <= s) /\
  forall data, handleSubmit DateParse form = Some (Some data) ->
    exists s e,
      Date_ofString DateParse (Form.start form) = Some s /\
      Date_ofString DateParse (Form.end_ form) = Some e /\
      TaskData.start data = toISOString s /\
      TaskData.end_ data = toISOString e /\
      Date_ofString DateParse (TaskData.start data) = Some s /\
      Date_ofString DateParse (TaskData.end_ data) = Some e /\
      s < e /\
      match TaskData.recurrence data with
      | None => Form.freq form = NONE
      | Some r =>
          frequency r = Form.freq form /\ frequency r <> NONE /\
          match Form.interval form with
          | Some (Some n) => interval r = Some (Some (Z.max 1 n))
          | Some None | None =>
              interval r = Some None /\
              forall LocalTZA uuid windowStart windowEnd expanded,
                generateRecurringTasks DateParse LocalTZA
                  [createTask uuid data] windowStart windowEnd
                  = Some expanded ->
                (length expanded <= 1)%nat
          end /\
          forall initialData r0,
            recurrence initialData = Some r0 -> interval r0 = None ->
            Form.interval form = initialInterval initialData ->
            interval r = Some None
      end.
Proof.
  intros Hread. split; [apply handleSubmit_refused|].
  - intros data (s & e & r & Hs & He & Hlt & Hsub & ->)%handleSubmit_saved.
    exists s, e. cbn [TaskData.start TaskData.end_ TaskData.recurrence].
    pose proof (newDate_Some _ _ Hs) as Hvs.
    pose proof (newDate_Some _ _ He) as Hve.
    rewrite !(Date_ofString_toISOString DateParse Hread) by done.
    split_and!; try done.
    destruct r as [r|].
    + destruct (submittedRecurrence_interval _ _ _ _ _ Hsub) as (Hi & Hmax).
      unfold submittedRecurrence in Hsub.
      destruct (isNONE (Form.freq form)) eqn:Hf; [discriminate|].
      destruct (if truthy (Some (Form.until form)) then _ else _);
        [|discriminate].
      cbn [mbind option_bind] in Hsub.
      assert (frequency r = Form.freq form) as Hfreq
        by (by injection Hsub as <-).
      assert (frequency r <> NONE) as Hnone
        by (rewrite Hfreq; intros Hn; by rewrite Hn in Hf).
      do 2 (split; [done|]).
      assert (interval r = Some None ->
              forall LocalTZA uuid windowStart windowEnd expanded,
                generateRecurringTasks DateParse LocalTZA
                  [createTask uuid
                     {| TaskData.title := Form.title form;
                        TaskData.description := Form.description form;
                        TaskData.start := toISOString s;
                        TaskData.end_ := toISOString e;
                        TaskData.priority := Form.priority form;
                        TaskData.reminderMinutes := Form.reminderMinutes form;
                        TaskData.recurrence := Some r |}]
                  windowStart windowEnd = Some expanded ->
                (length expanded <= 1)%nat) as Honce.
      { intros Hnan LocalTZA uuid windowStart windowEnd expanded.
        rewrite generateRecurringTasks_one. intros [= <-].
        apply (nan_interval_once _ _ _ r); [|done].
        unfold recurrenceRule. cbn [createTask recurrence TaskData.recurrence].
        by destruct (frequency r). }
      split.
      * destruct (Form.interval form) as [[n|]|]; rewrite Hmax in Hi;
          [done | split; [done | by apply Honce]..].
      * intros initialData r0 Hrec Habsent Hopen.
        unfold initialInterval in Hopen. rewrite Hrec, Habsent in Hopen.
        rewrite Hopen in Hmax, Hi. by rewrite Hmax in Hi.
    + unfold submittedRecurrence in Hsub.
      destruct (Form.freq form); [done|..]; cbn [isNONE] in Hsub;
        (destruct (if truthy (Some (Form.until form)) then _ else _);
           discriminate).
Qed.

Lemma X18_submit_saves_valid_witness :
  (forall t, Z.abs t <= Time.maxTime -> DateParseISO (toISOString t) = Some t) /\
  (handleSubmit DateParseISO weeklyForm = Some None <->
   exists s e,
     Date_ofString DateParseISO (Form.start weeklyForm) = Some s /\
     Date_ofString DateParseISO (Form.end_ weeklyForm) = Some e /\ e <= s) /\
  forall data, handleSubmit DateParseISO weeklyForm = Some (Some data) ->
    exists s e,
      Date_ofString DateParseISO (Form.start weeklyForm) = Some s /\
      Date_ofString DateParseISO (Form.end_ weeklyForm) = Some e /\
      TaskData.start data = toISOString s /\
      TaskData.end_ data = toISOString e /\
      Date_ofString DateParseISO (TaskData.start data) = Some s /\
      Date_ofString DateParseISO (TaskData.end_ data) = Some e /\
      s < e /\
      match TaskData.recurrence data with
      | None => Form.freq weeklyForm = NONE
      | Some r =>
          frequency r = Form.freq weeklyForm /\ frequency r <> NONE /\
          match Form.interval weeklyForm with
          | Some (Some n) => interval r = Some (Some (Z.max 1 n))
          | Some None | None =>
              interval r = Some None /\
              forall LocalTZA uuid windowStart windowEnd expanded,
                generateRecurringTasks DateParseISO LocalTZA
                  [createTask uuid data] windowStart windowEnd
                  = Some expanded ->
                (length expanded <= 1)%nat
          end /\
          forall initialData r0,
            recurrence initialData = Some r0 -> interval r0 = None ->
            Form.interval weeklyForm = initialInterval initialData ->
            interval r = Some None
      end.
Proof.
  split; [exact DateParseISO_toISOString|].
  exact (X18_submit_saves_valid DateParseISO weeklyForm
           DateParseISO_toISOString).
Defined.


(** An edit of a series whose recurrence has no interval, in the UTC
    host: the form opens with [undefined] in the field, the edit saved
    untouched holds [NaN], and of the three occurrences of three days the
    first is left. *)
Example edit_without_interval :
  initialInterval briefing = Form.interval briefingForm /\
  initialStart (DateParseForm 0) briefing = Some (Form.start briefingForm) /\
  initialEnd (DateParseForm 0) briefing = Some (Form.end_ briefingForm) /\
  length <$> generateRecurringTasks (DateParseForm 0) LocalTZA_UTC [briefing]
               (Some jan1) (Some (jan1 + hours 72)) = Some 3%nat /\
  length <$> generateRecurringTasks (DateParseForm 0) LocalTZA_UTC
               (act (DateParseForm 0) countingUUID (1%nat, [briefing])
                  (SubmitEdit briefing briefingForm)).2
               (Some jan1) (Some (jan1 + hours 72)) = Some 1%nat.
Proof. split_and!; vm_compute; reflexivity. Qed.

(** X19, [dayTasks] of [DayView.tsx].  The view of a valid date draws
    exactly the tasks handed to it whose start parses to an instant of
    the same local calendar day as the date, in their order; a task that
    began on an earlier day and runs into the day is not drawn, and
    nothing is drawn for an invalid date. *)
Theorem X19_dayTasks_same_day (DateParse : string -> number)
    (LocalTZA : Z -> bool -> Z) (tasks : list Task) (date : Z) :
  dayTasks DateParse LocalTZA tasks None = [] /\
  dayTasks DateParse LocalTZA tasks (Some date) `sublist_of` tasks /\
  forall task,
    task ∈ dayTasks DateParse LocalTZA tasks (Some date) <->
    task ∈ tasks /\
    exists s, Date_ofString DateParse (start task) = Some s /\
      Time.Day (LocalTime LocalTZA s) = Time.Day (LocalTime LocalTZA date).
Proof.
  split_and!.
  - unfold dayTasks. apply filter_none. intros task _.
    change (Date_getDate LocalTZA None) with (@None Z).
    by destruct (Date_getDate LocalTZA _).
  - unfold dayTasks. induction tasks as [|t tasks IH]; [done|].
    cbn [List.filter]. case_match; [by apply sublist_skip|by apply sublist_cons].
  - intros task. unfold dayTasks.
    rewrite list_elem_of_In, filter_In, <- list_elem_of_In.
    apply and_iff_compat_l.
    unfold Date_getDate, Date_getMonth, Date_getFullYear.
    destruct (Date_ofString DateParse (start task)) as [s|];
      cbn [mbind option_bind num_eq].
    + rewrite !andb_true_iff, !Z.eqb_eq.
      unfold getDate, getMonth, getFullYear.
      pose proof (same_day_same_fields (LocalTime LocalTZA s)
                    (LocalTime LocalTZA date)) as Hday.
      split.
      * intros [[Hd Hm] Hy]. exists s. split; [done|]. by apply Hday.
      * intros (s' & [= <-] & H). apply Hday in H. tauto.
    + split; [done|]. by intros (? & ? & _).
Qed.

(** ** The weather codes *)

(** Case analysis on the comparisons of a goal, and their evaluation
    where the context decides them. *)
Ltac decide_codes :=
  repeat match goal with
         | |- context [?a =? ?b] => destruct (Z.eqb_spec a b)
         | |- context [?a <=? ?b] => destruct (Z.leb_spec a b)
         end; cbn [andb orb].

Ltac settle_codes :=
  repeat match goal with
         | |- context [?a =? ?b] =>
             first [rewrite (proj2 (Z.eqb_eq a b)) by lia
                   |rewrite (proj2 (Z.eqb_neq a b)) by lia]
         | |- context [?a <=? ?b] =>
             first [rewrite (proj2 (Z.leb_le a b)) by lia
                   |rewrite (proj2 (Z.leb_gt a b)) by lia]
         end; cbn [andb orb].

(** X20, [getWeatherIcon] of [App.tsx] and [getWeatherDescription] of
    [weatherService.ts].  The lightning icon is never returned, because
    the test [code >= 71] comes before the test [code >= 95]: for
    every code from 95 on the description is the thunderstorm one and
    the icon is the snow icon.  The sun is returned exactly for code 0,
    the rain icon exactly for 61 to 65, and the snow icon exactly for
    everything from 71 on. *)
Theorem X20_weather_icon (code : Z) :
  getWeatherIcon code <> CloudLightning /\
  (getWeatherIcon code = Sun <-> code = 0) /\
  (getWeatherIcon code = CloudRain <-> 61 <= code <= 65) /\
  (getWeatherIcon code = CloudSnow <-> 71 <= code) /\
  (95 <= code ->
   getWeatherDescription code = "雷雨" /\ getWeatherIcon code = CloudSnow).
Proof.
  split_and!.
  - unfold getWeatherIcon. decide_codes; (done || lia).
  - unfold getWeatherIcon. decide_codes; (split; [done || lia|done || lia]).
  - unfold getWeatherIcon. decide_codes; (split; [done || lia|done || lia]).
  - unfold getWeatherIcon. decide_codes; (split; [done || lia|done || lia]).
  - intros H. unfold getWeatherIcon, getWeatherDescription.
    by settle_codes.
Qed.

Lemma append_space_nonempty (advice rest : string) :
  advice +:+ String " " rest <> EmptyString.
Proof. destruct advice; push_append; discriminate. Qed.

Lemma code_ranges (code : Z) :
  code < 0 \/ code = 0 \/ 1 <= code <= 3 \/ 4 <= code <= 44 \/
  45 <= code <= 48 \/ 49 <= code <= 50 \/ 51 <= code <= 55 \/
  56 <= code <= 60 \/ 61 <= code <= 65 \/ 66 <= code <= 67 \/
  68 <= code <= 70 \/ 71 <= code <= 77 \/ 78 <= code <= 79 \/
  80 <= code <= 82 \/ 83 <= code <= 84 \/ 85 <= code <= 86 \/
  87 <= code <= 94 \/ 95 <= code.
Proof. lia. Qed.

Ltac not_listed H :=
  repeat (apply elem_of_cons in H as [H|H]; [discriminate H|]);
  by apply elem_of_nil in H.

(** X21, [getClothingAdvice] against [getWeatherDescription] in
    [weatherService.ts].  The advice is never empty: it always ends with
    one of the six sentences on temperature.  Whenever the description of
    the code is one of drizzle, rain, sleet or showers, the advice starts
    with the sentence on the umbrella; whenever it is snow, snow showers
    or thunderstorm, the advice starts with the sentence on snow, the
    thunderstorm codes falling under [code >= 71]. *)
Theorem X21_clothing_advice (temp : QArith_base.Q) (code : Z) :
  getClothingAdvice temp code <> EmptyString /\
  (getWeatherDescription code ∈ ["毛毛雨"; "下雨"; "雨夹雪"; "阵雨"] ->
   exists rest, getClothingAdvice temp code = "记得带伞。" +:+ rest) /\
  (getWeatherDescription code ∈ ["下雪"; "阵雪"; "雷雨"] ->
   exists rest,
     getClothingAdvice temp code = "雪天路滑，注意保暖。" +:+ rest).
Proof.
  split_and!.
  - unfold getClothingAdvice. repeat case_match; apply append_space_nonempty.
  - unfold getClothingAdvice, getWeatherDescription.
    destruct (code_ranges code) as
      [H|[H|[H|[H|[H|[H|[H|[H|[H|[H|[H|[H|[H|[H|[H|[H|[H|H]]]]]]]]]]]]]]]]];
      settle_codes; intros Hin; try (not_listed Hin);
      rewrite append_nil_l; repeat case_match; by eexists.
  - unfold getClothingAdvice, getWeatherDescription.
    destruct (code_ranges code) as
      [H|[H|[H|[H|[H|[H|[H|[H|[H|[H|[H|[H|[H|[H|[H|[H|[H|H]]]]]]]]]]]]]]]]];
      settle_codes; intros Hin; try (not_listed Hin);
      rewrite append_nil_l; repeat case_match; by eexists.
Qed.

(** ** Sorting *)

Section SortFacts.

Context {A : Type}.
Variable before : A -> A -> bool.
Variable key : A -> Z * Z.
Variable sound : A -> Prop.

Hypothesis before_key : forall a b, sound a -> sound b ->
  (before a b = true <-> ~ lexLe (key b) (key a)).

Lemma lexLe_total p q : lexLe p q \/ lexLe q p.
Proof. unfold lexLe. lia. Qed.

Lemma lexLe_trans p q r : lexLe p q -> lexLe q r -> lexLe p r.
Proof. unfold lexLe. lia. Qed.

Lemma insertSorted_Permutation x l : insertSorted before x l ≡ₚ x :: l.
Proof.
  induction l as [|y l IH]; [done|]. cbn [insertSorted].
  destruct (before x y); [done|]. rewrite IH. apply perm_swap.
Qed.

Lemma Array_sort_Permutation l : Array_sort before l ≡ₚ l.
Proof.
  unfold Array_sort.
  assert (forall acc, foldl (fun sorted x => insertSorted before x sorted) acc l
                      ≡ₚ acc ++ l) as H; [|apply (H [])].
  induction l as [|x l IH]; intros acc; cbn [foldl].
  - by rewrite app_nil_r.
  - rewrite IH, insertSorted_Permutation. cbn [app]. apply Permutation_middle.
Qed.

Lemma insertSorted_sorted x l :
  sound x -> Forall sound l ->
  StronglySorted (fun a b => lexLe (key a) (key b)) l ->
  StronglySorted (fun a b => lexLe (key a) (key b)) (insertSorted before x l).
Proof.
  intros Hx. induction l as [|y l IH]; intros Hl Hs.
  - repeat constructor.
  - apply Forall_cons in Hl as [Hy Hl].
    apply StronglySorted_cons in Hs as [Hall Hs]. cbn [insertSorted].
    destruct (before x y) eqn:Hb.
    + apply (before_key x y Hx Hy) in Hb.
      assert (lexLe (key x) (key y)) as Hxy
        by (destruct (lexLe_total (key x) (key y)); tauto).
      apply StronglySorted_cons. split.
      * constructor; [done|]. eapply Forall_impl; [exact Hall|].
        intros z Hz. by eapply lexLe_trans.
      * by apply StronglySorted_cons.
    + assert (lexLe (key y) (key x)) as Hyx.
      { destruct (lexLe_total (key y) (key x)) as [|Hxy]; [done|].
        destruct (decide (lexLe (key y) (key x))) as [|Hn]; [done|].
        apply (before_key x y Hx Hy) in Hn. congruence. }
      apply StronglySorted_cons. split; [|by apply IH].
      rewrite Forall_forall in *. intros z Hz.
      rewrite insertSorted_Permutation in Hz.
      apply elem_of_cons in Hz as [->|Hz]; auto.
Qed.

Lemma Array_sort_sorted l :
  Forall sound l ->
  StronglySorted (fun a b => lexLe (key a) (key b)) (Array_sort before l).
Proof.
  unfold Array_sort.
  assert (forall acc, Forall sound acc -> Forall sound l ->
            StronglySorted (fun a b => lexLe (key a) (key b)) acc ->
            StronglySorted (fun a b => lexLe (key a) (key b))
              (foldl (fun sorted x => insertSorted before x sorted) acc l))
    as H; [|intros Hl; apply (H []); [done..|constructor]].
  induction l as [|x l IH]; intros acc Hacc Hl Hs; [done|]. cbn [foldl].
  apply Forall_cons in Hl as [Hx Hl]. apply IH; [|done|].
  - rewrite Forall_forall in *. intros z Hz.
    rewrite insertSorted_Permutation in Hz.
    apply elem_of_cons in Hz as [->|Hz]; auto.
  - by apply insertSorted_sorted.
Qed.

End SortFacts.

Lemma fl_negative x : Num.fl x < 0 <-> x < 0.
Proof.
  unfold Num.fl.
  assert (0 < Z.abs x -> 0 < Num.round53 (Z.abs x)) as Hpos.
  { intros H. destruct (Z.le_gt_cases (Z.abs x) (2 ^ 53)) as [Hs|Hb].
    - by rewrite NumFacts.round53_small.
    - pose proof (NumFacts.round53_big _ Hb). lia. }
  destruct (Z.lt_trichotomy x 0) as [H|[->|H]]; [| done |].
  - rewrite Z.sgn_neg by done. lia.
  - rewrite Z.sgn_pos by done. lia.
Qed.

Section Comparators.

Variable DateParse : string -> number.

Lemma compareGenerated_key a b :
  is_Some (generatedStart DateParse a) -> is_Some (generatedStart DateParse b) ->
  (num_lt (compareGenerated DateParse a b) (Some 0) = true <->
   ~ lexLe (generatedKey DateParse b) (generatedKey DateParse a)).
Proof.
  intros [sa Ha] [sb Hb]. unfold compareGenerated, generatedKey, lexLe.
  rewrite Ha, Hb. cbn [num_eq num_sub default from_option Datatypes.id fst snd].
  destruct (Z.eqb_spec sa sb) as [->|Hne]; cbn [negb num_lt];
    rewrite Z.ltb_lt; unfold Num.sub; rewrite fl_negative; lia.
Qed.

Lemma compareListed_key a b :
  is_Some (Date_ofString DateParse (start a)) ->
  is_Some (Date_ofString DateParse (start b)) ->
  (num_lt (compareListed DateParse a b) (Some 0) = true <->
   ~ lexLe (listedKey DateParse b) (listedKey DateParse a)).
Proof.
  intros [sa Ha] [sb Hb]. unfold compareListed, listedKey, lexLe.
  rewrite Ha, Hb. cbn [num_sub default from_option Datatypes.id fst snd].
  destruct (completed a), (completed b); cbn [Bool.eqb negb num_lt];
    rewrite Z.ltb_lt; unfold Num.sub; rewrite ?fl_negative; lia.
Qed.

End Comparators.

(** X22, [sortGeneratedTasks] of [AiPlannerModal.tsx] and the import that
    follows it.  When every start that is given parses to a date, the
    comparator is consistent and the sorted plan is a rearrangement of the
    extracted records in ascending order of start (a missing start
    counting as 0) and, for equal starts, in descending order of priority;
    the import then appends one task per record in that order, behind the
    tasks already there. *)
Theorem X22_sorted_plan (DateParse : string -> number)
    (randomUUID : nat -> string) (rawTasks : list Any.t) (calls : nat)
    (prev : list Task) :
  Forall (fun a => is_Some (generatedStart DateParse a)) rawTasks ->
  sortGeneratedTasks DateParse rawTasks ≡ₚ rawTasks /\
  StronglySorted
    (fun a b => lexLe (generatedKey DateParse a) (generatedKey DateParse b))
    (sortGeneratedTasks DateParse rawTasks) /\
  importGenerated DateParse randomUUID rawTasks (calls, prev)
  = ((calls + length rawTasks)%nat,
     prev ++ imap (fun i a => formatTask (randomUUID (calls + i)%nat) a)
               (sortGeneratedTasks DateParse rawTasks)).
Proof.
  intros Hvalid. split_and!.
  - apply Array_sort_Permutation.
  - apply (Array_sort_sorted _ _
             (fun a => is_Some (generatedStart DateParse a))); [|done].
    intros a b. apply compareGenerated_key.
  - unfold importGenerated, handleBatchImport.
    rewrite formatTasks_imap. do 2 f_equal.
    apply Permutation_length, Array_sort_Permutation.
Qed.

Lemma X22_sorted_plan_witness :
  Forall (fun a => is_Some (generatedStart DateParseISO a)) plan /\
  sortGeneratedTasks DateParseISO plan ≡ₚ plan /\
  StronglySorted
    (fun a b => lexLe (generatedKey DateParseISO a)
                  (generatedKey DateParseISO b))
    (sortGeneratedTasks DateParseISO plan) /\
  importGenerated DateParseISO countingUUID plan (0%nat, twoTasks)
  = ((0 + length plan)%nat,
     twoTasks ++
     imap (fun i a => formatTask (countingUUID (0 + i)%nat) a)
       (sortGeneratedTasks DateParseISO plan)).
Proof.
  assert (Forall (fun a => is_Some (generatedStart DateParseISO a)) plan)
    as Hvalid by (repeat constructor; by eexists).
  split; [done|].
  exact (X22_sorted_plan DateParseISO countingUUID plan 0 twoTasks Hvalid).
Defined.


(** X23, [sortedTasks] of [ListView.tsx].  When every start parses to a
    date, the comparator is consistent and the list shown is a
    rearrangement of the tasks with every task that is not completed
    before every completed one, and within each group in ascending order
    of start. *)
Theorem X23_list_order (DateParse : string -> number) (tasks : list Task) :
  Forall (fun t => is_Some (Date_ofString DateParse (start t))) tasks ->
  sortedTasks DateParse tasks ≡ₚ tasks /\
  StronglySorted
    (fun a b => lexLe (listedKey DateParse a) (listedKey DateParse b))
    (sortedTasks DateParse tasks) /\
  forall earlier later a b,
    sortedTasks DateParse tasks = earlier ++ a :: later -> b ∈ later ->
    (completed a = true -> completed b = true) /\
    (completed a = completed b ->
     exists sa sb,
       Date_ofString DateParse (start a) = Some sa /\
       Date_ofString DateParse (start b) = Some sb /\ sa <= sb).
Proof.
  intros Hvalid.
  assert (StronglySorted
            (fun a b => lexLe (listedKey DateParse a) (listedKey DateParse b))
            (sortedTasks DateParse tasks)) as Hsorted.
  { apply (Array_sort_sorted _ _
             (fun t => is_Some (Date_ofString DateParse (start t)))); [|done].
    intros a b. apply compareListed_key. }
  assert (sortedTasks DateParse tasks ≡ₚ tasks) as Hperm
    by apply Array_sort_Permutation.
  split_and!; [done..|].
  intros earlier later a b Heq Hb. rewrite Heq in Hsorted, Hperm.
  apply StronglySorted_app_1_r, StronglySorted_cons in Hsorted as [Hall _].
  rewrite Forall_forall in Hall, Hvalid. specialize (Hall b Hb).
  assert (a ∈ tasks) as Ha by (rewrite <- Hperm; set_solver).
  assert (b ∈ tasks) as Hb' by (rewrite <- Hperm; set_solver).
  destruct (Hvalid a Ha) as [sa Hsa], (Hvalid b Hb') as [sb Hsb].
  unfold lexLe, listedKey in Hall. rewrite Hsa, Hsb in Hall.
  cbn [fst snd default from_option Datatypes.id] in Hall.
  split.
  - intros Hca. rewrite Hca in Hall. destruct (completed b); [done|lia].
  - intros Hc. rewrite Hc in Hall. exists sa, sb. split_and!; [done..|].
    destruct (completed b); lia.
Qed.

Lemma X23_list_order_witness :
  Forall (fun t => is_Some (Date_ofString DateParseISO (start t))) twoTasks /\
  sortedTasks DateParseISO twoTasks ≡ₚ twoTasks /\
  StronglySorted
    (fun a b => lexLe (listedKey DateParseISO a) (listedKey DateParseISO b))
    (sortedTasks DateParseISO twoTasks) /\
  forall earlier later a b,
    sortedTasks DateParseISO twoTasks = earlier ++ a :: later -> b ∈ later ->
    (completed a = true -> completed b = true) /\
    (completed a = completed b ->
     exists sa sb,
       Date_ofString DateParseISO (start a) = Some sa /\
       Date_ofString DateParseISO (start b) = Some sb /\ sa <= sb).
Proof.
  assert (Forall (fun t => is_Some (Date_ofString DateParseISO (start t)))
            twoTasks) as Hvalid by (repeat constructor; by eexists).
  split; [done|]. exact (X23_list_order DateParseISO twoTasks Hvalid).
Defined.

(** ** Conflicts come in pairs *)

(** X24, [checkConflict] of [App.tsx].  The test of one task against
    another is symmetric, so conflicts come in pairs: a task of the pool
    that is flagged has a partner in the pool, of another series, that
    is flagged too. *)
Theorem X24_conflicts_in_pairs (DateParse : string -> number) :
  (forall a b, checkConflict DateParse [b] a = checkConflict DateParse [a] b) /\
  (forall pool a,
     a ∈ pool -> checkConflict DateParse pool a = true ->
     exists b, b ∈ pool /\ seriesOf b <> seriesOf a /\
               checkConflict DateParse pool b = true).
Proof.
  split.
  - intros a b. unfold checkConflict. cbn [existsb]. rewrite !orb_false_r.
    rewrite (String.eqb_sym (originalId (parseVirtualId (id b)))).
    destruct (String.eqb _ _); [done|].
    rewrite (Bool.orb_comm (completed a)). destruct (completed b || completed a);
      [done|].
    unfold num_gt. apply Bool.andb_comm.
  - intros pool a Ha. rewrite checkConflict_true_iff.
    intros (b & Hb & Hne & Hca & Hcb & s1 & e1 & s2 & e2 & H1 & H2 & H3 & H4 & Hlt).
    exists b. split_and!; [done..|]. apply checkConflict_true_iff.
    exists a. split_and!; try done.
    exists s2, e2, s1, e1. split_and!; try done; lia.
Qed.

(** ** When a reminder is fired *)




(** ** The columns of the week and the navigation *)

Section WeekFacts.

Variable offset : Z.

(** [setDate] to a date a few days off, away from the ends of time. *)
Lemma setDate_shift t n :
  Z.abs (t + n * Time.msPerDay) <= Time.maxTime -> Z.abs n <= 15 ->
  setDate (LocalTZA_fixed offset) t
    (Num.fl (getDate (LocalTZA_fixed offset) t + n))
  = Some (t + n * Time.msPerDay).
Proof.
  intros Ht Hn. rewrite setDate_fixed, getDate_fixed.
  pose proof (TimeFacts.DateFromTime_range (t + offset)).
  rewrite NumFacts.fl_small by lia.
  replace (Time.DateFromTime (t + offset) + n - Time.DateFromTime (t + offset))
    with n by lia.
  by rewrite TimeClip_valid.
Qed.

Lemma startOfWeek_fixed t :
  Z.abs t <= Time.maxTime - 16 * Time.msPerDay ->
  startOfWeek (LocalTZA_fixed offset) (Some t)
  = Some (t - WeekDay (t + offset) * Time.msPerDay).
Proof.
  intros Ht. unfold startOfWeek. cbn [mbind option_bind].
  pose proof (WeekDay_range (t + offset)). unfold Num.sub.
  replace (getDate (LocalTZA_fixed offset) t - getDay (LocalTZA_fixed offset) t)
    with (getDate (LocalTZA_fixed offset) t + - WeekDay (t + offset))
    by (rewrite getDay_fixed; lia).
  rewrite setDate_shift by (unfold Time.maxTime, Time.msPerDay in *; lia).
  f_equal. lia.
Qed.

Lemma weekDays_fixed t :
  Z.abs t <= Time.maxTime - 16 * Time.msPerDay ->
  weekDays (LocalTZA_fixed offset) (Some t)
  = map (fun i => Some (t + (i - WeekDay (t + offset)) * Time.msPerDay))
      [0; 1; 2; 3; 4; 5; 6].
Proof.
  intros Ht. unfold weekDays. rewrite startOfWeek_fixed by done.
  cbn [mbind option_bind]. apply map_ext_in. intros i Hi.
  pose proof (WeekDay_range (t + offset)).
  assert (0 <= i <= 6) by (cbn in Hi; lia).
  unfold Num.add. rewrite setDate_shift;
    [f_equal| |]; unfold Time.maxTime, Time.msPerDay in *;
    lia.
Qed.

Lemma WeekDay_shift t n : WeekDay (t + n * Time.msPerDay) = (WeekDay t + n) mod 7.
Proof.
  unfold WeekDay, Time.Day.
  rewrite Z.div_add by (unfold Time.msPerDay; lia).
  rewrite Zplus_mod_idemp_l. f_equal. lia.
Qed.

End WeekFacts.

(** X26, the columns of [WeekView.tsx] against the Week window of
    [App.tsx].  In a host at a fixed offset from UTC, the seven columns
    of a valid date are the date moved by whole days: column [i] falls on
    weekday [i], at the time of day of the date, inside the window that
    [visibleTasks] expands for that date, on the [i]-th local day of that
    window; the column of the weekday of the date is the date itself. *)
Theorem X26_week_columns (offset t : Z) :
  Z.abs t <= Time.maxTime - 16 * Time.msPerDay ->
  exists weekStart,
    weekRange (LocalTZA_fixed offset) (Some t)
      = (Some weekStart, Some (weekStart + 7 * Time.msPerDay)) /\
    length (weekDays (LocalTZA_fixed offset) (Some t)) = 7%nat /\
    forall (i : nat) (column : number),
      weekDays (LocalTZA_fixed offset) (Some t) !! i = Some column ->
      exists d,
        column = Some d /\
        d = t + (Z.of_nat i - getDay (LocalTZA_fixed offset) t) * Time.msPerDay /\
        getDay (LocalTZA_fixed offset) d = Z.of_nat i /\
        weekStart <= d < weekStart + 7 * Time.msPerDay /\
        Time.Day (LocalTime (LocalTZA_fixed offset) d)
          = Time.Day (LocalTime (LocalTZA_fixed offset) weekStart)
            + Z.of_nat i /\
        (Z.of_nat i = getDay (LocalTZA_fixed offset) t -> d = t).
Proof.
  intros Ht. eexists.
  split; [apply weekRange_fixed; unfold Time.msPerDay in *; lia|].
  rewrite weekDays_fixed by done. split; [done|].
  intros i column Hi.
  assert (i < 7)%nat as Hlt by (apply lookup_lt_Some in Hi; cbn in Hi; lia).
  pose proof (WeekDay_range (t + offset)) as Hw.
  pose proof (midnight_le offset t) as Hm.
  rewrite getDay_fixed.
  exists (t + (Z.of_nat i - WeekDay (t + offset)) * Time.msPerDay).
  assert (column
          = Some (t + (Z.of_nat i - WeekDay (t + offset)) * Time.msPerDay))
    as ->.
  { destruct i as [|[|[|[|[|[|[|i]]]]]]]; cbn in Hi; try lia;
      injection Hi as <-; done. }
  split; [done|]. split; [done|]. split; [|split; [|split]].
  - rewrite getDay_fixed.
    replace (t + (Z.of_nat i - WeekDay (t + offset)) * Time.msPerDay + offset)
      with (t + offset + (Z.of_nat i - WeekDay (t + offset)) * Time.msPerDay)
      by lia.
    rewrite WeekDay_shift.
    replace (WeekDay (t + offset) + (Z.of_nat i - WeekDay (t + offset)))
      with (Z.of_nat i) by lia.
    apply Z.mod_small. lia.
  - unfold Time.msPerDay in *. lia.
  - unfold LocalTime, LocalTZA_fixed, midnight, Time.Day.
    TimeFacts.zify_div. lia.
  - intros Heq. rewrite Heq. lia.
Qed.

Lemma X26_week_columns_witness :
  Z.abs beforeStandup <= Time.maxTime - 16 * Time.msPerDay /\
  exists weekStart,
    weekRange (LocalTZA_fixed utc8) (Some beforeStandup)
      = (Some weekStart, Some (weekStart + 7 * Time.msPerDay)) /\
    length (weekDays (LocalTZA_fixed utc8) (Some beforeStandup)) = 7%nat /\
    forall (i : nat) (column : number),
      weekDays (LocalTZA_fixed utc8) (Some beforeStandup) !! i = Some column ->
      exists d,
        column = Some d /\
        d = beforeStandup
            + (Z.of_nat i - getDay (LocalTZA_fixed utc8) beforeStandup)
              * Time.msPerDay /\
        getDay (LocalTZA_fixed utc8) d = Z.of_nat i /\
        weekStart <= d < weekStart + 7 * Time.msPerDay /\
        Time.Day (LocalTime (LocalTZA_fixed utc8) d)
          = Time.Day (LocalTime (LocalTZA_fixed utc8) weekStart)
            + Z.of_nat i /\
        (Z.of_nat i = getDay (LocalTZA_fixed utc8) beforeStandup ->
         d = beforeStandup).
Proof.
  assert (Z.abs beforeStandup <= Time.maxTime - 16 * Time.msPerDay) as Ht
    by (vm_compute; discriminate).
  split; [done|]. exact (X26_week_columns utc8 beforeStandup Ht).
Defined.

(** X27, the buttons of [WeekView.tsx] ([setDate(getDate() - 7)] and
    [setDate(getDate() + 7)]).  In a host at a fixed offset from UTC the
    two buttons move a valid date by exactly seven days, each undoes the
    other, and the weeks tile the time line: the Week window of the next
    date starts at the instant at which the window of the date ends, and
    the window of the previous date ends where that of the date starts. *)
Theorem X27_week_navigation (offset t : Z) :
  Z.abs t <= Time.maxTime - 32 * Time.msPerDay ->
  nextWeek (LocalTZA_fixed offset) (Some t) = Some (t + 7 * Time.msPerDay) /\
  previousWeek (LocalTZA_fixed offset) (Some t)
    = Some (t - 7 * Time.msPerDay) /\
  previousWeek (LocalTZA_fixed offset) (nextWeek (LocalTZA_fixed offset) (Some t))
    = Some t /\
  nextWeek (LocalTZA_fixed offset) (previousWeek (LocalTZA_fixed offset) (Some t))
    = Some t /\
  (weekRange (LocalTZA_fixed offset)
     (nextWeek (LocalTZA_fixed offset) (Some t))).1
  = (weekRange (LocalTZA_fixed offset) (Some t)).2 /\
  (weekRange (LocalTZA_fixed offset)
     (previousWeek (LocalTZA_fixed offset) (Some t))).2
  = (weekRange (LocalTZA_fixed offset) (Some t)).1.
Proof.
  intros Ht.
  assert (forall u, Z.abs u <= Time.maxTime - 16 * Time.msPerDay ->
            nextWeek (LocalTZA_fixed offset) (Some u)
            = Some (u + 7 * Time.msPerDay)) as Hnext.
  { intros u Hu. unfold nextWeek. cbn [mbind option_bind]. unfold Num.add.
    by rewrite setDate_shift
      by (unfold Time.maxTime, Time.msPerDay in *; lia). }
  assert (forall u, Z.abs u <= Time.maxTime - 16 * Time.msPerDay ->
            previousWeek (LocalTZA_fixed offset) (Some u)
            = Some (u - 7 * Time.msPerDay)) as Hprev.
  { intros u Hu. unfold previousWeek. cbn [mbind option_bind]. unfold Num.sub.
    replace (getDate (LocalTZA_fixed offset) u - 7)
      with (getDate (LocalTZA_fixed offset) u + -7) by lia.
    rewrite setDate_shift by (unfold Time.maxTime, Time.msPerDay in *; lia).
    f_equal; lia. }
  assert (forall u n,
            midnight offset (u + n * Time.msPerDay)
              - WeekDay (u + n * Time.msPerDay + offset) * Time.msPerDay
            = midnight offset u - WeekDay (u + offset) * Time.msPerDay
              + (n + WeekDay (u + offset)
                 - (WeekDay (u + offset) + n) mod 7) * Time.msPerDay) as Hsun.
  { intros u n.
    replace (u + n * Time.msPerDay + offset)
      with (u + offset + n * Time.msPerDay) by lia.
    rewrite WeekDay_shift. unfold midnight, Time.Day.
    replace (u + n * Time.msPerDay + offset)
      with (u + offset + n * Time.msPerDay) by lia.
    rewrite Z.div_add by (unfold Time.msPerDay; lia). lia. }
  pose proof (WeekDay_range (t + offset)) as Hw.
  repeat first [rewrite Hnext by (unfold Time.msPerDay in *; lia)
               |rewrite Hprev by (unfold Time.msPerDay in *; lia)].
  rewrite !weekRange_fixed by (unfold Time.msPerDay in *; lia).
  cbn [fst snd]. split_and!; try done; try (f_equal; lia).
  - f_equal. rewrite Hsun.
    replace ((WeekDay (t + offset) + 7) mod 7) with (WeekDay (t + offset))
      by (Z.div_mod_to_equations; lia). lia.
  - f_equal. replace (t - 7 * Time.msPerDay) with (t + -7 * Time.msPerDay) by lia.
    rewrite Hsun.
    replace ((WeekDay (t + offset) + -7) mod 7) with (WeekDay (t + offset))
      by (Z.div_mod_to_equations; lia). lia.
Qed.

Lemma X27_week_navigation_witness :
  Z.abs beforeStandup <= Time.maxTime - 32 * Time.msPerDay /\
  nextWeek (LocalTZA_fixed utc8) (Some beforeStandup)
    = Some (beforeStandup + 7 * Time.msPerDay) /\
  previousWeek (LocalTZA_fixed utc8) (Some beforeStandup)
    = Some (beforeStandup - 7 * Time.msPerDay) /\
  previousWeek (LocalTZA_fixed utc8)
    (nextWeek (LocalTZA_fixed utc8) (Some beforeStandup))
    = Some beforeStandup /\
  nextWeek (LocalTZA_fixed utc8)
    (previousWeek (LocalTZA_fixed utc8) (Some beforeStandup))
    = Some beforeStandup /\
  (weekRange (LocalTZA_fixed utc8)
     (nextWeek (LocalTZA_fixed utc8) (Some beforeStandup))).1
  = (weekRange (LocalTZA_fixed utc8) (Some beforeStandup)).2 /\
  (weekRange (LocalTZA_fixed utc8)
     (previousWeek (LocalTZA_fixed utc8) (Some beforeStandup))).2
  = (weekRange (LocalTZA_fixed utc8) (Some beforeStandup)).1.
Proof.
  assert (Z.abs beforeStandup <= Time.maxTime - 32 * Time.msPerDay) as Ht
    by (vm_compute; discriminate).
  split; [done|]. exact (X27_week_navigation utc8 beforeStandup Ht).
Defined.

(** ** The dates of the form, read back *)

(** The years that [toISOString] writes with four digits lie well inside
    the range of time values. *)
Lemma four_digit_year t :
  0 <= Time.YearFromTime t <= 9999 -> Z.abs t <= 300000000000000.
Proof.
  intros Hy. pose proof (TimeFacts.YearFromTime_spec t) as [Hlo Hhi].
  assert (Time.DayFromYear 0 <= Time.DayFromYear (Time.YearFromTime t)).
  { destruct (Z.eq_dec (Time.YearFromTime t) 0) as [->|]; [done|].
    apply Z.lt_le_incl, TimeFacts.DayFromYear_lt. lia. }
  assert (Time.DayFromYear (Time.YearFromTime t + 1) <= Time.DayFromYear 10000).
  { destruct (Z.eq_dec (Time.YearFromTime t + 1) 10000) as [->|]; [done|].
    apply Z.lt_le_incl, TimeFacts.DayFromYear_lt. lia. }
  change (Time.DayFromYear 0) with (-719528) in *.
  change (Time.DayFromYear 10000) with 2932897 in *.
  unfold Time.Day in *. TimeFacts.zify_div. lia.
Qed.

(** The first 16 and the first 10 characters of an ISO timestamp with a
    four-digit year. *)
Lemma toISOString_minutes t :
  0 <= Time.YearFromTime t <= 9999 ->
  String.substring 0 16 (toISOString t)
  = isoYear (Time.YearFromTime t) +:+ "-" +:+
    pad 2 (Time.MonthFromTime t + 1) +:+ "-" +:+
    pad 2 (Time.DateFromTime t) +:+ "T" +:+
    pad 2 (Time.HourFromTime t) +:+ ":" +:+
    pad 2 (Time.MinFromTime t).
Proof.
  intros Hy. unfold toISOString, isoYear.
  rewrite (proj2 (Z.leb_le 0 _)), (proj2 (Z.leb_le _ 9999)) by lia.
  cbn [andb pad]. push_append. reflexivity.
Qed.

Lemma toISOString_date t :
  0 <= Time.YearFromTime t <= 9999 ->
  String.substring 0 10 (toISOString t)
  = isoYear (Time.YearFromTime t) +:+ "-" +:+
    pad 2 (Time.MonthFromTime t + 1) +:+ "-" +:+
    pad 2 (Time.DateFromTime t).
Proof.
  intros Hy. unfold toISOString, isoYear.
  rewrite (proj2 (Z.leb_le 0 _)), (proj2 (Z.leb_le _ 9999)) by lia.
  cbn [andb pad]. push_append. reflexivity.
Qed.

Lemma append_nil_r (s : string) : s +:+ EmptyString = s.
Proof. induction s as [|c s IH]; push_append; [done|]. by rewrite IH. Qed.

Lemma takeDigits_isoYear y rest :
  0 <= y <= 9999 -> takeDigits 4 0 (isoYear y +:+ rest) = Some (y, rest).
Proof.
  intros Hy. unfold isoYear.
  rewrite (proj2 (Z.leb_le 0 _)), (proj2 (Z.leb_le _ 9999)) by lia.
  cbn [andb]. apply (takeDigits_pad_small 4). simpl. lia.
Qed.

Lemma minutes_of_fields t :
  Time.MakeDate
    (Time.MakeDay (Time.YearFromTime t) (Time.MonthFromTime t)
       (Time.DateFromTime t))
    (Time.MakeTime (Time.HourFromTime t) (Time.MinFromTime t) 0 0)
  = t - t mod Time.msPerMinute.
Proof.
  rewrite TimeFacts.MakeDay_fields.
  unfold Time.MakeDate, Time.MakeTime, Time.Day, Time.HourFromTime,
    Time.MinFromTime. TimeFacts.zify_div. lia.
Qed.

Lemma day_of_fields t :
  Time.MakeDate
    (Time.MakeDay (Time.YearFromTime t) (Time.MonthFromTime t)
       (Time.DateFromTime t)) 0
  = t - t mod Time.msPerDay.
Proof.
  rewrite TimeFacts.MakeDay_fields. unfold Time.MakeDate, Time.Day.
  TimeFacts.zify_div. lia.
Qed.

Section FormDates.

Variable offset : Z.
Hypothesis offset_range : Z.abs offset <= Time.msPerDay.

Lemma DateParseISO_minutes t :
  0 <= Time.YearFromTime t <= 9999 ->
  DateParseISO (String.substring 0 16 (toISOString t)) = None.
Proof.
  intros Hy. rewrite toISOString_minutes by done. unfold DateParseISO.
  pose proof (TimeFacts.MonthFromTime_range t) as Hm.
  pose proof (TimeFacts.DateFromTime_range t) as Hd.
  pose proof (TimeFacts.time_fields_range t) as (Hh & Hmi & _).
  rewrite parseYear_isoYear by lia. cbn [mbind option_bind].
  push_append. rewrite expect_cons. cbn [mbind option_bind].
  read_field 2%nat. read_field 2%nat. read_field 2%nat.
  rewrite <- (append_nil_r (pad 2 (Time.MinFromTime t))).
  rewrite (takeDigits_pad_small 2) by (simpl; lia). reflexivity.
Qed.

Lemma DateParseLocalMinutes_minutes t :
  0 <= Time.YearFromTime t <= 9999 ->
  DateParseLocalMinutes offset (String.substring 0 16 (toISOString t))
  = Some (t - t mod Time.msPerMinute - offset).
Proof.
  intros Hy. rewrite toISOString_minutes by done. unfold DateParseLocalMinutes.
  pose proof (four_digit_year t Hy) as Ht.
  pose proof (TimeFacts.MonthFromTime_range t) as Hm.
  pose proof (TimeFacts.DateFromTime_range t) as Hd.
  pose proof (TimeFacts.time_fields_range t) as (Hh & Hmi & _).
  rewrite takeDigits_isoYear by lia. cbn [mbind option_bind].
  push_append. rewrite expect_cons. cbn [mbind option_bind].
  read_field 2%nat. read_field 2%nat. read_field 2%nat.
  rewrite <- (append_nil_r (pad 2 (Time.MinFromTime t))).
  rewrite (takeDigits_pad_small 2) by (simpl; lia). cbn [mbind option_bind].
  replace (Time.MonthFromTime t + 1 - 1) with (Time.MonthFromTime t) by lia.
  rewrite minutes_of_fields.
  repeat match goal with
  | |- context [?a <=? ?b] => destruct (Z.leb_spec a b); [|lia]
  end.
  cbn. apply TimeClip_valid.
  unfold Time.maxTime, Time.msPerDay, Time.msPerMinute in *.
  Z.div_mod_to_equations. lia.
Qed.

(** What the form shows for a stored ISO timestamp reads back, as the
    local time it is taken for, to the instant cut to the minute and
    moved back by the offset. *)
Lemma shown_minutes_read_back t :
  0 <= Time.YearFromTime t <= 9999 ->
  shownInForm (DateParseForm offset) (toISOString t) 16
  = Some (String.substring 0 16 (toISOString t)) /\
  Date_ofString (DateParseForm offset)
    (String.substring 0 16 (toISOString t))
  = Some (t - t mod Time.msPerMinute - offset).
Proof.
  intros Hy. pose proof (four_digit_year t Hy) as Ht.
  assert (Z.abs t <= Time.maxTime) as Hvalid by (unfold Time.maxTime; lia).
  split.
  - unfold shownInForm, Date_ofString, DateParseForm.
    rewrite DateParseISO_toISOString by done. cbn [newDate].
    by rewrite TimeClip_valid.
  - unfold Date_ofString, DateParseForm.
    rewrite DateParseISO_minutes, DateParseLocalMinutes_minutes by done.
    cbn [newDate]. apply TimeClip_valid.
    unfold Time.maxTime, Time.msPerDay, Time.msPerMinute in *.
    Z.div_mod_to_equations. lia.
Qed.

End FormDates.

Lemma DateParseForm_toISOString offset t :
  Z.abs t <= Time.maxTime -> DateParseForm offset (toISOString t) = Some t.
Proof. intros Ht. unfold DateParseForm. by rewrite DateParseISO_toISOString. Qed.

(** X28, opening [TaskForm] for an edit and submitting it untouched, in a
    host at a fixed offset from UTC whose [Date.parse] follows ECMAScript.
    The form shows the first 16 characters of the stored ISO timestamps,
    which are UTC, and [handleSubmit] reads them as local time: each of
    start and end is cut to the minute and moved back by the offset.  The
    form is refused when the two then coincide or cross; otherwise the
    saved start equals the stored one only if it was on a whole minute
    and the offset is 0, and likewise the end. *)
Theorem X28_edit_moves_by_offset (offset : Z) (initialData : Task)
    (form : Form.t) (s e : Z) :
  Z.abs offset <= Time.msPerDay ->
  0 <= Time.YearFromTime s <= 9999 ->
  0 <= Time.YearFromTime e <= 9999 ->
  start initialData = toISOString s ->
  end_ initialData = toISOString e ->
  initialStart (DateParseForm offset) initialData = Some (Form.start form) ->
  initialEnd (DateParseForm offset) initialData = Some (Form.end_ form) ->
  Date_ofString (DateParseForm offset) (Form.start form)
    = Some (s - s mod Time.msPerMinute - offset) /\
  Date_ofString (DateParseForm offset) (Form.end_ form)
    = Some (e - e mod Time.msPerMinute - offset) /\
  (handleSubmit (DateParseForm offset) form = Some None <->
   e - e mod Time.msPerMinute <= s - s mod Time.msPerMinute) /\
  forall data,
    handleSubmit (DateParseForm offset) form = Some (Some data) ->
    TaskData.start data = toISOString (s - s mod Time.msPerMinute - offset) /\
    TaskData.end_ data = toISOString (e - e mod Time.msPerMinute - offset) /\
    (TaskData.start data = start initialData <->
     s mod Time.msPerMinute + offset = 0) /\
    (TaskData.end_ data = end_ initialData <->
     e mod Time.msPerMinute + offset = 0).
Proof.
  intros Hoff Hys Hye Hstart Hend Hfs Hfe.
  destruct (shown_minutes_read_back offset Hoff s Hys) as [Hshown_s Hread_s].
  destruct (shown_minutes_read_back offset Hoff e Hye) as [Hshown_e Hread_e].
  unfold initialStart in Hfs. unfold initialEnd in Hfe.
  rewrite Hstart, Hshown_s in Hfs. rewrite Hend, Hshown_e in Hfe.
  injection Hfs as Hfs. injection Hfe as Hfe.
  rewrite <- Hfs, <- Hfe in *. split_and!; [done..| |].
  - rewrite handleSubmit_refused. rewrite <- Hfs, <- Hfe, Hread_s, Hread_e.
    split.
    + intros (s' & e' & [= <-] & [= <-] & Hle). lia.
    + intros Hle. eexists _, _. split_and!; [done..|lia].
  - intros data (s' & e' & r & Hs' & He' & Hlt & _ & ->)%handleSubmit_saved.
    rewrite <- Hfs, Hread_s in Hs'. rewrite <- Hfe, Hread_e in He'.
    injection Hs' as <-. injection He' as <-.
    cbn [TaskData.start TaskData.end_]. rewrite Hstart, Hend.
    pose proof (four_digit_year s Hys). pose proof (four_digit_year e Hye).
    assert (forall t, Z.abs t <= 300000000000000 ->
              (toISOString (t - t mod Time.msPerMinute - offset) = toISOString t
               <-> t mod Time.msPerMinute + offset = 0)) as Hsame.
    { intros t Ht. split.
      - intros Heq. apply toISOString_inj in Heq; [lia|..];
          unfold Time.maxTime, Time.msPerDay, Time.msPerMinute in *;
          Z.div_mod_to_equations; lia.
      - intros Hz. f_equal. lia. }
    split_and!; [done|done|by apply Hsame..].
Qed.

Lemma X28_edit_moves_by_offset_witness :
  Z.abs utc8 <= Time.msPerDay /\
  0 <= Time.YearFromTime jan1 <= 9999 /\
  0 <= Time.YearFromTime (jan1 + hours 23) <= 9999 /\
  start meeting = toISOString jan1 /\
  end_ meeting = toISOString (jan1 + hours 23) /\
  initialStart (DateParseForm utc8) meeting = Some (Form.start reopenedForm) /\
  initialEnd (DateParseForm utc8) meeting = Some (Form.end_ reopenedForm) /\
  Date_ofString (DateParseForm utc8) (Form.start reopenedForm)
    = Some (jan1 - jan1 mod Time.msPerMinute - utc8) /\
  Date_ofString (DateParseForm utc8) (Form.end_ reopenedForm)
    = Some (jan1 + hours 23 - (jan1 + hours 23) mod Time.msPerMinute - utc8) /\
  (handleSubmit (DateParseForm utc8) reopenedForm = Some None <->
   jan1 + hours 23 - (jan1 + hours 23) mod Time.msPerMinute
   <= jan1 - jan1 mod Time.msPerMinute) /\
  forall data,
    handleSubmit (DateParseForm utc8) reopenedForm = Some (Some data) ->
    TaskData.start data
      = toISOString (jan1 - jan1 mod Time.msPerMinute - utc8) /\
    TaskData.end_ data
      = toISOString
          (jan1 + hours 23 - (jan1 + hours 23) mod Time.msPerMinute - utc8) /\
    (TaskData.start data = start meeting <->
     jan1 mod Time.msPerMinute + utc8 = 0) /\
    (TaskData.end_ data = end_ meeting <->
     (jan1 + hours 23) mod Time.msPerMinute + utc8 = 0).
Proof.
  assert (Z.abs utc8 <= Time.msPerDay) as Hoff by (vm_compute; discriminate).
  assert (0 <= Time.YearFromTime jan1 <= 9999) as Hys
    by (vm_compute; split; discriminate).
  assert (0 <= Time.YearFromTime (jan1 + hours 23) <= 9999) as Hye
    by (vm_compute; split; discriminate).
  do 3 (split; [done|]). do 4 (split; [reflexivity|]).
  exact (X28_edit_moves_by_offset utc8 meeting reopenedForm jan1
           (jan1 + hours 23) Hoff Hys Hye eq_refl eq_refl eq_refl eq_refl).
Defined.

Lemma date_read_back offset t :
  0 <= Time.YearFromTime t <= 9999 ->
  String.substring 0 10 (toISOString t) <> EmptyString /\
  Date_ofString (DateParseForm offset) (String.substring 0 10 (toISOString t))
  = Some (t - t mod Time.msPerDay).
Proof.
  intros Hy. pose proof (four_digit_year t Hy) as Ht.
  pose proof (TimeFacts.MonthFromTime_range t) as Hm.
  pose proof (TimeFacts.DateFromTime_range t) as Hd.
  rewrite toISOString_date by done. split.
  { unfold isoYear.
    rewrite (proj2 (Z.leb_le 0 _)), (proj2 (Z.leb_le _ 9999)) by lia.
    cbn [andb pad]. push_append. discriminate. }
  unfold Date_ofString, DateParseForm.
  assert (DateParseISO
            (isoYear (Time.YearFromTime t) +:+ "-" +:+
             pad 2 (Time.MonthFromTime t + 1) +:+ "-" +:+
             pad 2 (Time.DateFromTime t)) = None) as ->.
  { unfold DateParseISO. rewrite parseYear_isoYear by lia.
    cbn [mbind option_bind]. push_append. rewrite expect_cons.
    cbn [mbind option_bind]. read_field 2%nat.
    rewrite <- (append_nil_r (pad 2 (Time.DateFromTime t))).
    rewrite (takeDigits_pad_small 2) by (simpl; lia). reflexivity. }
  assert (DateParseLocalMinutes offset
            (isoYear (Time.YearFromTime t) +:+ "-" +:+
             pad 2 (Time.MonthFromTime t + 1) +:+ "-" +:+
             pad 2 (Time.DateFromTime t)) = None) as ->.
  { unfold DateParseLocalMinutes. rewrite takeDigits_isoYear by lia.
    cbn [mbind option_bind]. push_append. rewrite expect_cons.
    cbn [mbind option_bind]. read_field 2%nat.
    rewrite <- (append_nil_r (pad 2 (Time.DateFromTime t))).
    rewrite (takeDigits_pad_small 2) by (simpl; lia). reflexivity. }
  unfold DateParseDateOnly. rewrite takeDigits_isoYear by lia.
  cbn [mbind option_bind]. push_append. rewrite expect_cons.
  cbn [mbind option_bind]. read_field 2%nat.
  rewrite <- (append_nil_r (pad 2 (Time.DateFromTime t))).
  rewrite (takeDigits_pad_small 2) by (simpl; lia). cbn [mbind option_bind].
  replace (Time.MonthFromTime t + 1 - 1) with (Time.MonthFromTime t) by lia.
  rewrite day_of_fields.
  repeat match goal with
  | |- context [?a <=? ?b] => destruct (Z.leb_spec a b); [|lia]
  end.
  cbn [String.eqb andb]. cbn [newDate].
  assert (Z.abs (t - t mod Time.msPerDay) <= Time.maxTime) as Hv
    by (unfold Time.maxTime, Time.msPerDay in *; Z.div_mod_to_equations; lia).
  rewrite TimeClip_valid by done. cbn [newDate]. by rewrite TimeClip_valid.
Qed.

(** X29, the end date of a recurrence through [TaskForm], in a host whose
    [Date.parse] follows ECMAScript.  When an edit opens, the form shows
    the first 10 characters of the stored [until], its UTC date, and
    [handleSubmit] reads a date alone as UTC midnight: the [until] that is
    saved is the instant that begins the UTC day of the stored one,
    whatever the offset of the host, so that it is kept only if it was a
    UTC midnight already. *)
Theorem X29_until_cut_to_midnight (offset : Z) (r : RecurrenceConfig)
    (u : Z) (freq : RecurrenceFrequency) (n : option number)
    (untilText : string) :
  0 <= Time.YearFromTime u <= 9999 ->
  until r = Some (toISOString u) ->
  initialUntil (DateParseForm offset) r = Some untilText ->
  freq <> NONE ->
  exists saved,
    submittedRecurrence (DateParseForm offset) freq n untilText
      = Some (Some saved) /\
    until saved = Some (toISOString (u - u mod Time.msPerDay)) /\
    (until saved = until r <-> u mod Time.msPerDay = 0).
Proof.
  intros Hy Hu Hshown Hfreq. pose proof (four_digit_year u Hy) as Hbound.
  assert (Z.abs u <= Time.maxTime) as Hvalid by (unfold Time.maxTime; lia).
  destruct (date_read_back offset u Hy) as [Hne Hread].
  unfold initialUntil in Hshown. rewrite Hu in Hshown.
  rewrite truthy_Some in Hshown by apply toISOString_nonempty.
  cbn [orElse] in Hshown. unfold shownInForm, Date_ofString in Hshown.
  rewrite DateParseForm_toISOString in Hshown by done.
  cbn [newDate] in Hshown. rewrite TimeClip_valid in Hshown by done.
  cbn [Date_toISOString mbind option_bind] in Hshown.
  injection Hshown as <-.
  unfold submittedRecurrence.
  destruct (isNONE freq) eqn:Hnone; [by destruct freq|].
  rewrite truthy_Some, Hread by done.
  cbn [Date_toISOString mbind option_bind]. eexists. split; [done|].
  cbn [until]. split; [done|]. rewrite Hu. split.
  - intros [= Heq]. apply toISOString_inj in Heq; [lia| |done].
    unfold Time.maxTime, Time.msPerDay in *. Z.div_mod_to_equations. lia.
  - intros Hz. do 2 f_equal. lia.
Qed.

Lemma X29_until_cut_to_midnight_witness :
  0 <= Time.YearFromTime (day 2 + hours 23) <= 9999 /\
  until endsLate = Some (toISOString (day 2 + hours 23)) /\
  initialUntil (DateParseForm utc8) endsLate = Some "2024-01-03" /\
  DAILY <> NONE /\
  exists saved,
    submittedRecurrence (DateParseForm utc8) DAILY (Some (Some 1))
      "2024-01-03" = Some (Some saved) /\
    until saved
      = Some (toISOString
                (day 2 + hours 23 - (day 2 + hours 23) mod Time.msPerDay)) /\
    (until saved = until endsLate
     <-> (day 2 + hours 23) mod Time.msPerDay = 0).
Proof.
  assert (0 <= Time.YearFromTime (day 2 + hours 23) <= 9999) as Hy
    by (vm_compute; split; discriminate).
  assert (DAILY <> NONE) as Hf by discriminate.
  split; [done|]. do 2 (split; [reflexivity|]). split; [done|].
  exact (X29_until_cut_to_midnight utc8 endsLate (day 2 + hours 23) DAILY
           (Some (Some 1)) "2024-01-03" Hy eq_refl eq_refl Hf).
Defined.

(** ** Sessions *)

Section Sessions.

Variable DateParse : string -> number.
Variable randomUUID : nat -> string.

Hypothesis randomUUID_inj : forall i j, randomUUID i = randomUUID j -> i = j.
Hypothesis randomUUID_safe : forall n, codecSafe (randomUUID n).

Lemma drawn_act state action :
  drawn randomUUID state ->
  drawn randomUUID (act DateParse randomUUID state action).
Proof.
  destruct state as [calls tasks]. intros [Hwf Hids]. cbn [fst snd] in *.
  assert (forall form data,
            handleSubmit DateParse form = Some (Some data) ->
            forall t, recurrence t = TaskData.recurrence data ->
                      positiveInterval t) as Hdata.
  { intros form data (s & e & r & _ & _ & _ & Hsub & ->)%handleSubmit_saved t.
    cbn [TaskData.recurrence]. by eapply submitted_positive. }
  destruct action as [form|editing form|confirmed asked|o]; cbn [act].
  - destruct (handleSubmit DateParse form) as [[data|]|] eqn:Hsub;
      [|by split..].
    split.
    + apply wellFormed_create; [by eapply Hdata|done| |done].
      intros (t & Heq & Ht)%list_elem_of_fmap. rewrite Forall_forall in Hids.
      destruct (Hids t Ht) as (k & Hk & Hidk). rewrite Hidk in Heq.
      apply randomUUID_inj in Heq. lia.
    + cbn [handleSaveTask fst snd]. apply Forall_app. split.
      * eapply Forall_impl; [exact Hids|]. intros t (k & Hk & Hidk).
        exists k. split; [lia|done].
      * apply Forall_singleton. exists calls. split; [lia|done].
  - destruct (handleSubmit DateParse form) as [[data|]|] eqn:Hsub;
      [|by split..].
    split; [apply wellFormed_edit; [by eapply Hdata|done]|].
    cbn [handleSaveTask fst snd]. rewrite Forall_forall in *.
    intros t (t0 & <- & Hin%list_elem_of_In)%list_elem_of_In%in_map_iff.
    destruct (Hids t0 Hin) as (k & Hk & Hidk). exists k. split; [done|].
    by case_match.
  - split; [by apply wellFormed_delete|]. cbn [fst snd].
    unfold handleDeleteTask. destruct confirmed; [|done]. by apply Forall_kept.
  - split; [by apply wellFormed_toggle|]. cbn [fst snd].
    unfold handleToggleComplete. rewrite Forall_forall in *.
    intros t (t0 & <- & Hin%list_elem_of_In)%list_elem_of_In%in_map_iff.
    rewrite id_toggleOne. auto.
Qed.

Lemma session_wellFormed actions :
  wellFormed (session DateParse randomUUID actions).
Proof.
  unfold session.
  assert (forall state, drawn randomUUID state ->
            drawn randomUUID
              (foldl (act DateParse randomUUID) state actions)) as H.
  { induction actions as [|a actions IH]; intros state Hstate; [done|].
    cbn [foldl]. by apply IH, drawn_act. }
  apply (H (0%nat, [])). split; [|constructor].
  split_and!; constructor.
Qed.

(** A session in which every form holds a Number as its interval leaves
    only intervals that are Numbers, at least 1. *)
Lemma numbers_act state action :
  entersNumber action ->
  Forall intervalAtLeastOne state.2 ->
  Forall intervalAtLeastOne (act DateParse randomUUID state action).2.
Proof.
  destruct state as [calls tasks]. intros Hnum Hall. cbn [fst snd] in *.
  assert (forall form data,
            (exists n, Form.interval form = Some (Some n)) ->
            handleSubmit DateParse form = Some (Some data) ->
            forall t, recurrence t = TaskData.recurrence data ->
                      intervalAtLeastOne t) as Hdata.
  { intros form data [n Hn]
      (s & e & r & _ & _ & _ & Hsub & ->)%handleSubmit_saved t.
    cbn [TaskData.recurrence]. intros Hrec. unfold intervalAtLeastOne.
    rewrite Hrec. destruct r as [r|]; [|done].
    destruct (submittedRecurrence_interval _ _ _ _ _ Hsub) as (-> & Hmax).
    rewrite Hn in Hmax |- *. rewrite Hmax. exists (Z.max 1 n).
    split; [done|lia]. }
  destruct action as [form|editing form|confirmed asked|o]; cbn [act].
  - destruct (handleSubmit DateParse form) as [[data|]|] eqn:Hsub; [|done..].
    cbn [handleSaveTask snd]. apply Forall_app. split; [done|].
    apply Forall_singleton. by eapply Hdata.
  - destruct (handleSubmit DateParse form) as [[data|]|] eqn:Hsub; [|done..].
    cbn [handleSaveTask snd]. rewrite Forall_forall in *.
    intros t (t0 & <- & Hin%list_elem_of_In)%list_elem_of_In%in_map_iff.
    case_match; [by eapply Hdata | by apply Hall].
  - cbn [snd]. unfold handleDeleteTask. destruct confirmed; [|done].
    by apply Forall_kept.
  - cbn [snd]. unfold handleToggleComplete. rewrite Forall_forall in *.
    intros t (t0 & <- & Hin%list_elem_of_In)%list_elem_of_In%in_map_iff.
    unfold intervalAtLeastOne. rewrite recurrence_toggleOne. by apply Hall.
Qed.

Lemma session_numbers actions :
  Forall entersNumber actions ->
  Forall intervalAtLeastOne (session DateParse randomUUID actions).
Proof.
  unfold session.
  assert (forall state, Forall entersNumber actions ->
            Forall intervalAtLeastOne state.2 ->
            Forall intervalAtLeastOne
              (foldl (act DateParse randomUUID) state actions).2) as H.
  { induction actions as [|a actions IH]; intros state Hnum Hstate; [done|].
    apply Forall_cons in Hnum as [Ha Hnum].
    cbn [foldl]. by apply IH, numbers_act. }
  intros Hnum. apply (H (0%nat, [])); [done|constructor].
Qed.

End Sessions.

Lemma tallyUUID_inj i : forall j, tallyUUID i = tallyUUID j -> i = j.
Proof.
  induction i as [|i IH]; intros [|j]; cbn [tallyUUID];
    [done|discriminate|discriminate|].
  intros [= H]. f_equal. by apply IH.
Qed.

Lemma tallyUUID_safe n : codecSafe (tallyUUID n).
Proof.
  unfold codecSafe. apply findSeparator_None_app; [|done].
  induction n as [|n IH]; cbn [tallyUUID colonFree]; by split.
Qed.

(** X30, the handlers of [App.tsx] over a whole session, the batch
    import left out.  Starting from the empty list, whatever sequence of
    form submissions (new tasks and edits), deletions and toggles is made,
    as long as [crypto.randomUUID] never repeats an identifier and gives
    none with the separator or a colon at its end, the task list has
    distinct identifiers that the codec can carry and no recurrence
    interval that is a Number below 1, and only recurrence intervals that
    are Numbers of at least 1 when every form held a Number as its
    interval; hence, in a host at a fixed offset from UTC, with or without
    notifications, a run of reminder ticks over task lists reached this
    way never fires twice for one identifier. *)
Theorem X30_session_reminds_once (DateParse : string -> number)
    (randomUUID : nat -> string) (offset : Z)
    (Notification : option NotificationAPI)
    (ticks : list (list Action * Z)) (notified : gset string)
    (events : list Task) :
  (forall i j, randomUUID i = randomUUID j -> i = j) ->
  (forall n, codecSafe (randomUUID n)) ->
  Z.abs offset <= Time.msPerDay ->
  scanner DateParse (LocalTZA_fixed offset) Notification
    (map (fun tick : list Action * Z =>
            (session DateParse randomUUID tick.1, tick.2)) ticks)
    notified = Some events ->
  Forall (fun tick : list Action * Z =>
            wellFormed (session DateParse randomUUID tick.1)) ticks /\
  Forall (fun tick : list Action * Z =>
            Forall entersNumber tick.1 ->
            Forall intervalAtLeastOne (session DateParse randomUUID tick.1))
    ticks /\
  NoDup (id <$> events).
Proof.
  intros Hinj Hsafe Hoff Hrun.
  assert (Forall (fun tick : list Action * Z =>
            wellFormed (session DateParse randomUUID tick.1)) ticks) as Hwf.
  { apply Forall_forall. intros tick _. by apply session_wellFormed. }
  split; [done|]. split.
  { apply Forall_forall. intros tick _. apply session_numbers. }
  eapply (scanner_NoDup DateParse (LocalTZA_fixed offset) Notification);
    [|exact Hrun].
  apply Forall_forall.
  intros [tasks now] (tick & [= <- <-] & Hin%list_elem_of_In)%list_elem_of_In%in_map_iff
    expanded.
  cbn [fst snd]. rewrite generateRecurringTasks_expansionSpec. intros [= <-].
  rewrite Forall_forall in Hwf.
  destruct (Hwf tick Hin) as (Hnd & Hsafe' & Hpos).
  by apply expansion_ids_distinct.
Qed.

Lemma X30_session_reminds_once_witness :
  (forall i j, tallyUUID i = tallyUUID j -> i = j) /\
  (forall n, codecSafe (tallyUUID n)) /\
  Z.abs utc8 <= Time.msPerDay /\
  scanner DateParseISO (LocalTZA_fixed utc8) notifying
    (map (fun tick : list Action * Z =>
            (session DateParseISO tallyUUID tick.1, tick.2)) sessionTicks)
    ∅ = Some [reviewOccurrence] /\
  Forall (fun tick : list Action * Z =>
            wellFormed (session DateParseISO tallyUUID tick.1)) sessionTicks /\
  Forall (fun tick : list Action * Z =>
            Forall entersNumber tick.1 ->
            Forall intervalAtLeastOne (session DateParseISO tallyUUID tick.1))
    sessionTicks /\
  NoDup (id <$> [reviewOccurrence]).
Proof.
  assert (Z.abs utc8 <= Time.msPerDay) as Hoff by (vm_compute; discriminate).
  assert (scanner DateParseISO (LocalTZA_fixed utc8) notifying
            (map (fun tick : list Action * Z =>
                    (session DateParseISO tallyUUID tick.1, tick.2))
               sessionTicks)
            ∅ = Some [reviewOccurrence]) as Hrun by (vm_compute; reflexivity).
  split; [exact tallyUUID_inj|]. split; [exact tallyUUID_safe|].
  split; [done|]. split; [done|].
  exact (X30_session_reminds_once DateParseISO tallyUUID utc8 notifying
           sessionTicks ∅ [reviewOccurrence] tallyUUID_inj tallyUUID_safe
           Hoff Hrun).
Defined.
